(** * Voice-call bridge: the realtime event processor, the transcript store
      and the call persistence service.

    A shallow embedding of
      - [OpenAIEventService], the processor of the model's events,
      - [TranscriptStoreService]  (services/transcript.service.ts),
      - [CallPersistenceService]  (services/call-persistence.service.ts),
    with the properties the specification states about them. *)

From Stdlib Require Import ZArith Ascii String List Lia Sorted.
From stdpp Require Import base option list strings gmap pretty.

Local Open Scope Z_scope.
Local Open Scope string_scope.
Local Open Scope list_scope.

(** ** JavaScript values the services look at *)

Module JS.

(** A thrown value, or the reason of a rejected promise. *)
Inductive Exn : Type :=
| SyntaxError (message : string)
| TypeError (message : string)
| Error (message : string).

(** How a statement completes: normally with a value, or by throwing. *)
Inductive Completion (A : Type) : Type :=
| Normal (a : A)
| Throw (e : Exn).
Arguments Normal {A} a.
Arguments Throw {A} e.

(** A property that holds a string or is [undefined] ([None]). *)
Definition Value := option string.

(** [if (v)] for a string-or-undefined: [undefined] and [''] are falsy. *)
Definition truthy (v : Value) : bool :=
  match v with
  | Some s => negb (String.eqb s "")
  | None => false
  end.

(** [if (s)] for a string. *)
Definition truthy_string (s : string) : bool := negb (String.eqb s "").

(** [!n] for a number-or-null: [null] and [0] are falsy. *)
Definition not_number (n : option Z) : bool :=
  match n with
  | Some z => Z.eqb z 0
  | None => true
  end.

(** [a === b] where [a] is a string or [undefined] and [b] a string. *)
Definition strict_eq (a : Value) (b : string) : bool :=
  match a with
  | Some s => String.eqb s b
  | None => false
  end.

End JS.
Import JS.

(** ** The call state (types.ts) *)

Inductive Role : Type := user | assistant.

Record ConversationMessage : Type := mkMessage {
  role : Role;
  content : string
}.

Inductive CallStatus : Type := pending | in_progress | completed.

(** Modelled from the spec: the declaration of [CallState] (types.ts) is not
    among the sources. The fields the sources read or write keep the names
    the sources give them ([callSid], [fromNumber], [toNumber],
    [conversationHistory], [latestMediaTimestamp],
    [responseStartTimestampTwilio] for the spec's responseStartTimestamp,
    [lastAssistantItemId] for the spec's activeResponseItemId); the others
    ([streamId], [callContext], [pendingPlaybackMarks], [status]) are the
    spec's data model. *)
Record CallState : Type := mkCallState {
  callSid : string;
  streamId : string;
  fromNumber : string;
  toNumber : string;
  callContext : string;
  conversationHistory : list ConversationMessage;
  latestMediaTimestamp : Z;
  responseStartTimestampTwilio : option Z;
  lastAssistantItemId : option string;
  pendingPlaybackMarks : list string;
  status : CallStatus
}.

Definition set_conversationHistory (h : list ConversationMessage) (cs : CallState) : CallState :=
  mkCallState (callSid cs) (streamId cs) (fromNumber cs) (toNumber cs) (callContext cs)
    h (latestMediaTimestamp cs) (responseStartTimestampTwilio cs)
    (lastAssistantItemId cs) (pendingPlaybackMarks cs) (status cs).

Definition set_latestMediaTimestamp (t : Z) (cs : CallState) : CallState :=
  mkCallState (callSid cs) (streamId cs) (fromNumber cs) (toNumber cs) (callContext cs)
    (conversationHistory cs) t (responseStartTimestampTwilio cs)
    (lastAssistantItemId cs) (pendingPlaybackMarks cs) (status cs).

Definition set_responseStartTimestampTwilio (t : option Z) (cs : CallState) : CallState :=
  mkCallState (callSid cs) (streamId cs) (fromNumber cs) (toNumber cs) (callContext cs)
    (conversationHistory cs) (latestMediaTimestamp cs) t
    (lastAssistantItemId cs) (pendingPlaybackMarks cs) (status cs).

Definition set_lastAssistantItemId (i : option string) (cs : CallState) : CallState :=
  mkCallState (callSid cs) (streamId cs) (fromNumber cs) (toNumber cs) (callContext cs)
    (conversationHistory cs) (latestMediaTimestamp cs) (responseStartTimestampTwilio cs)
    i (pendingPlaybackMarks cs) (status cs).

Definition set_pendingPlaybackMarks (q : list string) (cs : CallState) : CallState :=
  mkCallState (callSid cs) (streamId cs) (fromNumber cs) (toNumber cs) (callContext cs)
    (conversationHistory cs) (latestMediaTimestamp cs) (responseStartTimestampTwilio cs)
    (lastAssistantItemId cs) q (status cs).

Definition set_status (s : CallStatus) (cs : CallState) : CallState :=
  mkCallState (callSid cs) (streamId cs) (fromNumber cs) (toNumber cs) (callContext cs)
    (conversationHistory cs) (latestMediaTimestamp cs) (responseStartTimestampTwilio cs)
    (lastAssistantItemId cs) (pendingPlaybackMarks cs) s.

(** ** What a call can see and change *)

(** A line written with [console.error] by the event processor or by a
    [.catch] handler it attached. The lines the persistence service writes
    itself are part of its replies. *)
Inductive LogLine : Type :=
| ErrorProcessingMessage (error : Exn) (rawMessage : string)
| FailedToSaveMessage (r : Role) (err : Exn)
| FailedToEndCall (err : Exn).

(** A call of [callPersistenceService] whose promise has not settled yet:
    [addMessage] from the event processor, [endCall] from the session. *)
Inductive SinkRequest : Type :=
| AddMessage (sid : string) (r : Role) (text : string)
| EndCall (sid : string).

(** An instruction sent to the model's socket. *)
Inductive ModelInstruction : Type :=
| AppendAudio (payload : string)
| Truncate (itemId : string) (elapsedMs : Z).

(** A frame sent to the carrier's socket. *)
Inductive CarrierFrame : Type :=
| MediaFrame (sid : string) (payload : string)
| MarkFrame (sid : string) (name : string)
| ClearFrame (sid : string).

(** The call state object, shared by reference between the session and the
    event processor, together with everything else one event can touch: the
    console, the promises in flight, and the two sockets. *)
Record World : Type := mkWorld {
  callState : CallState;
  console : list LogLine;
  inFlight : list SinkRequest;
  toModel : list ModelInstruction;
  toCarrier : list CarrierFrame;
  socketsOpen : bool;
  ended : bool
}.

Definition set_callState (cs : CallState) (w : World) : World :=
  mkWorld cs (console w) (inFlight w) (toModel w) (toCarrier w) (socketsOpen w) (ended w).

Definition set_console (c : list LogLine) (w : World) : World :=
  mkWorld (callState w) c (inFlight w) (toModel w) (toCarrier w) (socketsOpen w) (ended w).

Definition set_inFlight (q : list SinkRequest) (w : World) : World :=
  mkWorld (callState w) (console w) q (toModel w) (toCarrier w) (socketsOpen w) (ended w).

Definition set_toModel (q : list ModelInstruction) (w : World) : World :=
  mkWorld (callState w) (console w) (inFlight w) q (toCarrier w) (socketsOpen w) (ended w).

Definition set_toCarrier (q : list CarrierFrame) (w : World) : World :=
  mkWorld (callState w) (console w) (inFlight w) (toModel w) q (socketsOpen w) (ended w).

Definition set_socketsOpen (b : bool) (w : World) : World :=
  mkWorld (callState w) (console w) (inFlight w) (toModel w) (toCarrier w) b (ended w).

Definition set_ended (b : bool) (w : World) : World :=
  mkWorld (callState w) (console w) (inFlight w) (toModel w) (toCarrier w) (socketsOpen w) b.

(** ** Statements: state passing with exceptions

    A statement runs on the world and completes normally or by throwing; a
    mutation made before a throw stays made, as in JavaScript. *)

Definition M (A : Type) : Type := World -> Completion A * World.

Definition ret {A : Type} (a : A) : M A := fun w => (Normal a, w).

Definition bind {A B : Type} (m : M A) (k : A -> M B) : M B :=
  fun w =>
    match m w with
    | (Normal a, w') => k a w'
    | (Throw e, w') => (Throw e, w')
    end.

Definition throw {A : Type} (e : Exn) : M A := fun w => (Throw e, w).

(** [try { body } catch (error) { handler }] *)
Definition try_catch {A : Type} (body : M A) (handler : Exn -> M A) : M A :=
  fun w =>
    match body w with
    | (Normal a, w') => (Normal a, w')
    | (Throw e, w') => handler e w'
    end.

(** The statement monad in stdpp's notation: [x ← m; k] and [m ;; k]. *)
#[global] Instance M_ret : MRet M := @ret.
#[global] Instance M_bind : MBind M := fun A B k m => bind m k.

Definition skip : M unit := ret tt.

(** [if (c) { body }] *)
Definition when (c : bool) (body : M unit) : M unit := if c then body else skip.

Definition read_world : M World := fun w => (Normal w, w).

Definition update_world (f : World -> World) : M unit := fun w => (Normal tt, f w).

Definition read_callState : M CallState := fun w => (Normal (callState w), w).

Definition update_callState (f : CallState -> CallState) : M unit :=
  fun w => (Normal tt, set_callState (f (callState w)) w).

(** [console.error(...)] *)
Definition console_error (l : LogLine) : M unit :=
  fun w => (Normal tt, set_console (console w ++ [l]) w).

(** Calling an [async] method of [callPersistenceService] and attaching
    [.catch(...)] to the promise it returns: the call returns at once and the
    promise is in flight. *)
Definition dispatch (r : SinkRequest) : M unit :=
  fun w => (Normal tt, set_inFlight (inFlight w ++ [r]) w).

Definition final {A : Type} (r : Completion A * World) : World := snd r.
Definition completion {A : Type} (r : Completion A * World) : Completion A := fst r.

(** ** Inbound model messages

    [JSON.parse] is the runtime's. A message is given by its text and by what
    [JSON.parse] makes of it: a thrown [SyntaxError], [null] (on which any
    property access throws a [TypeError]), or a value whose properties
    [type], [transcript], [delta] and [item_id] are strings, as the handlers
    declare them, or [undefined]. A number, a boolean, a string or an array
    is a value with all four [undefined]. *)

Record Event : Type := mkEvent {
  type : Value;
  transcript : Value;
  delta : Value;
  item_id : Value
}.

Inductive Parsed : Type :=
| ParseThrows (e : Exn)
| ParsedNull
| ParsedValue (response : Event).

Record WebSocketData : Type := mkData {
  toString : string;
  parsed : Parsed
}.

(** [JSON.parse(data.toString())] *)
Definition JSON_parse (data : WebSocketData) : M (option Event) :=
  match parsed data with
  | ParseThrows e => throw e
  | ParsedNull => ret None
  | ParsedValue response => ret (Some response)
  end.

(** Reading a property of [response]: throws on [null]. *)
Definition properties (response : option Event) : M Event :=
  match response with
  | None => throw (TypeError "Cannot read properties of null")
  | Some ev => ret ev
  end.

(** ** OpenAIEventService: the processor of the model's events *)

Section OpenAIEventService.

(** [checkForGoodbye] of utils/call-utils.ts, which is not among the
    sources: the termination-phrase policy is a parameter. *)
Variable checkForGoodbye : string -> bool.

(** The three callbacks handed to the constructor. *)
Variable onEndCall : M unit.
Variable onSendAudioToTwilio : string -> M unit.
Variable onTruncateResponse : M unit.

(** [this.callState.conversationHistory.push(m)] *)
Definition push_conversationHistory (m : ConversationMessage) : M unit :=
  update_callState (fun cs => set_conversationHistory (conversationHistory cs ++ [m]) cs).

Definition handleTranscriptionCompleted (transcription : Value) : M unit :=
  if negb (truthy transcription) then skip
  else
    let text := default "" transcription in
    push_conversationHistory (mkMessage user text) ;;
    cs ← read_callState;
    when (truthy_string (callSid cs)) (dispatch (AddMessage (callSid cs) user text)) ;;
    when (checkForGoodbye text) onEndCall.

Definition handleAudioTranscriptDone (transcript : Value) : M unit :=
  if negb (truthy transcript) then skip
  else
    let text := default "" transcript in
    push_conversationHistory (mkMessage assistant text) ;;
    cs ← read_callState;
    when (truthy_string (callSid cs)) (dispatch (AddMessage (callSid cs) assistant text)) ;;
    when (checkForGoodbye text) onEndCall.

Definition handleAudioDelta (response : Event) : M unit :=
  onSendAudioToTwilio (default "" (delta response)) ;;
  cs ← read_callState;
  when (not_number (responseStartTimestampTwilio cs))
    (update_callState (set_responseStartTimestampTwilio (Some (latestMediaTimestamp cs)))) ;;
  when (truthy (item_id response))
    (update_callState (set_lastAssistantItemId (item_id response))).

Definition processEvent (response : option Event) : M unit :=
  ev ← properties response;
  if strict_eq (type ev) "conversation.item.input_audio_transcription.completed" then
    handleTranscriptionCompleted (transcript ev)
  else if strict_eq (type ev) "response.audio_transcript.done" then
    handleAudioTranscriptDone (transcript ev)
  else if strict_eq (type ev) "response.audio.delta" then
    when (truthy (delta ev)) (handleAudioDelta ev)
  else if strict_eq (type ev) "input_audio_buffer.speech_started" then
    onTruncateResponse
  else skip.

(** [LOG_EVENT_TYPES.includes(response.type)] guards an empty block: all it
    does is read [response.type]. *)
Definition processMessage (data : WebSocketData) : M unit :=
  try_catch
    (response ← JSON_parse data;
     properties response ;;
     processEvent response)
    (fun error => console_error (ErrorProcessingMessage error (toString data))).

(** Messages processed one after the other, as the socket delivers them. *)
Fixpoint processMessages (ds : list WebSocketData) (w : World) : World :=
  match ds with
  | [] => w
  | d :: ds' => processMessages ds' (final (processMessage d w))
  end.

End OpenAIEventService.

(** The [.catch] handler attached where the request was made:
    [err => console.error('Failed to save user message:', err)] and its
    like. *)
Definition on_rejected (r : SinkRequest) (err : Exn) : M unit :=
  match r with
  | AddMessage _ who _ => console_error (FailedToSaveMessage who err)
  | EndCall _ => console_error (FailedToEndCall err)
  end.

(** A promise in flight settles: [i] is its place among those in flight,
    [outcome] the rejection reason if it rejects. Only the [.catch] handler
    runs. *)
Definition settle (i : nat) (outcome : option Exn) : M unit :=
  fun w =>
    match inFlight w !! i with
    | None => (Normal tt, w)
    | Some r =>
        let w' := set_inFlight (delete i (inFlight w)) w in
        match outcome with
        | None => (Normal tt, w')
        | Some err => on_rejected r err w'
        end
    end.

(** ** The call session that owns the event processor

    The session wires [endCall], [sendAudio] and [truncateActiveResponse]
    into the event processor as its three callbacks. *)

Module CallSession.

Definition send_toModel (i : ModelInstruction) : M unit :=
  fun w => (Normal tt, set_toModel (toModel w ++ [i]) w).

Definition send_toCarrier (f : CarrierFrame) : M unit :=
  fun w => (Normal tt, set_toCarrier (toCarrier w ++ [f]) w).

(** Modelled from the spec: the session's handler (handlers/openai.handler.ts)
    is not among the sources. [sendAudio] relays one payload to the
    carrier as an outbound [media] frame of the call's stream. *)
Definition sendAudio (payload : string) : M unit :=
  cs ← read_callState;
  send_toCarrier (MediaFrame (streamId cs) payload).

(** Modelled from the spec: the session's handler is not among the sources.
    If [activeResponseItemId] is set: [elapsed] is
    [latestMediaTimestamp - responseStartTimestamp] floored at 0, a
    truncate instruction for the item and [elapsed] goes to the model, a
    [clear] frame goes to the carrier, and [responseStartTimestamp],
    [activeResponseItemId] and [pendingPlaybackMarks] are cleared.
    Otherwise nothing happens. Where the item is set and the start
    timestamp is not, the spec gives no value to subtract; JavaScript's
    arithmetic on [null] subtracts 0. *)
Definition truncateActiveResponse : M unit :=
  cs ← read_callState;
  match lastAssistantItemId cs with
  | None => skip
  | Some item =>
      let elapsed :=
        Z.max 0 (latestMediaTimestamp cs - default 0 (responseStartTimestampTwilio cs)) in
      send_toModel (Truncate item elapsed) ;;
      send_toCarrier (ClearFrame (streamId cs)) ;;
      update_callState (fun cs =>
        set_pendingPlaybackMarks []
          (set_lastAssistantItemId None
             (set_responseStartTimestampTwilio None cs)))
  end.

(** Modelled from the spec: the session's handler is not among the sources.
    [endCall] is idempotent behind a one-shot guard; the first call closes
    both sockets, notifies the transcript sink of the call's end without
    waiting for it, and sets [status] to [completed]. The session registry
    is outside the world of one call. *)
Definition endCall : M unit :=
  w ← read_world;
  if ended w then skip
  else
    update_world (set_ended true) ;;
    update_world (set_socketsOpen false) ;;
    dispatch (EndCall (callSid (callState w))) ;;
    update_callState (set_status completed).

(** Modelled from the spec: the session's handler is not among the sources.
    A carrier [media] frame updates [latestMediaTimestamp] and its payload
    is forwarded unmodified to the model. *)
Definition onMediaFrame (payload : string) (timestamp : Z) : M unit :=
  update_callState (set_latestMediaTimestamp timestamp) ;;
  send_toModel (AppendAudio payload).

(** The event processor as the session constructs it. *)
Definition onModelMessage (checkForGoodbye : string -> bool) : WebSocketData -> M unit :=
  processMessage checkForGoodbye endCall sendAudio truncateActiveResponse.

End CallSession.

(** ** TranscriptStoreService (services/transcript.service.ts)

    The in-memory store: a [Map] from call SID to transcript object. The
    methods mutate the object held by the map, so a later [getTranscript]
    sees the change. [new Date()] is the clock reading [now] passed in.
    [getAllTranscripts] and [getRecentTranscripts] only read and are left
    out. *)

Module TranscriptStoreService.

Inductive Status : Type := in_progress | completed.

Record CallTranscript : Type := mkCallTranscript {
  callSid : string;
  fromNumber : string;
  toNumber : string;
  callContext : string;
  startTime : Z;
  endTime : option Z;
  messages : list ConversationMessage;
  status : Status
}.

Record t : Type := mkStore {
  transcripts : gmap string CallTranscript;
  latestCallSid : option string
}.

Definition empty : t := mkStore ∅ None.

Definition startCall (callSid fromNumber toNumber callContext : string) (now : Z) (s : t) : t :=
  let transcript :=
    mkCallTranscript callSid fromNumber toNumber callContext now None [] in_progress in
  mkStore (<[callSid := transcript]> (transcripts s)) (Some callSid).

Definition addMessage (callSid : string) (role : Role) (content : string) (s : t) : t :=
  match transcripts s !! callSid with
  | Some transcript =>
      let transcript' :=
        mkCallTranscript (TranscriptStoreService.callSid transcript) (fromNumber transcript)
          (toNumber transcript) (callContext transcript) (startTime transcript)
          (endTime transcript) (messages transcript ++ [mkMessage role content])
          (status transcript) in
      mkStore (<[callSid := transcript']> (transcripts s)) (latestCallSid s)
  | None => s
  end.

Definition endCall (callSid : string) (now : Z) (s : t) : t :=
  match transcripts s !! callSid with
  | Some transcript =>
      let transcript' :=
        mkCallTranscript (TranscriptStoreService.callSid transcript) (fromNumber transcript)
          (toNumber transcript) (callContext transcript) (startTime transcript)
          (Some now) (messages transcript) completed in
      mkStore (<[callSid := transcript']> (transcripts s)) (latestCallSid s)
  | None => s
  end.

Definition getTranscript (callSid : string) (s : t) : option CallTranscript :=
  transcripts s !! callSid.

(** [getLatestTranscript()]: [if (this.latestCallSid)] passes for a call
    SID that is neither [null] nor the empty string. *)
Definition getLatestTranscript (s : t) : option CallTranscript :=
  if truthy (latestCallSid s) then transcripts s !! default "" (latestCallSid s)
  else None.

(** [addMessage(callSid, role, content)] once for each line, in order. *)
Definition addMessages (callSid : string) (lines : list (Role * string)) (s : t) : t :=
  foldl (fun s line => addMessage callSid (fst line) (snd line) s) s lines.

(** What another caller may do to the store in between: any method on a
    call SID. *)
Inductive Op : Type :=
| OpStart (callSid fromNumber toNumber callContext : string) (now : Z)
| OpAdd (callSid : string) (role : Role) (content : string)
| OpEnd (callSid : string) (now : Z).

Definition target (o : Op) : string :=
  match o with
  | OpStart callSid _ _ _ _ => callSid
  | OpAdd callSid _ _ => callSid
  | OpEnd callSid _ => callSid
  end.

Definition run (o : Op) (s : t) : t :=
  match o with
  | OpStart callSid fromNumber toNumber callContext now =>
      startCall callSid fromNumber toNumber callContext now s
  | OpAdd callSid role content => addMessage callSid role content s
  | OpEnd callSid now => endCall callSid now s
  end.

Definition runs (os : list Op) (s : t) : t := foldl (fun s o => run o s) s os.

Definition line_message (line : Role * string) : ConversationMessage :=
  mkMessage (fst line) (snd line).

Definition with_messages (ms : list ConversationMessage) (tr : CallTranscript) : CallTranscript :=
  mkCallTranscript (callSid tr) (fromNumber tr) (toNumber tr) (callContext tr)
    (startTime tr) (endTime tr) ms (status tr).

(** The lines that the operations [os] add to the call [id], in order. *)
Definition lines_for (id : string) (os : list Op) : list ConversationMessage :=
  flat_map
    (fun o =>
       match o with
       | OpAdd callSid role content =>
           if String.eqb callSid id then [mkMessage role content] else []
       | _ => []
       end) os.

(** Among [os], the call [id] is only added to: it is neither started
    again nor ended. *)
Definition only_adds_to (id : string) (os : list Op) : Prop :=
  Forall (fun o => match o with OpAdd _ _ _ => True | _ => target o <> id end) os.

End TranscriptStoreService.

(** ** The database behind the persistence service

    The tables [users], [calls] and [call_messages] of the migration, as the
    rows they hold. [calls.id] is the primary key, [call_sid] carries a
    unique index, [calls.user_id] refers to [users.id] and
    [call_messages.call_id] to [calls.id]. Queries are answered from the
    rows; a lost connection is outside this model. *)

Module User.
Record t : Type := mk {
  id : string;
  email : string;
  passwordHash : string;
  name : option string;
  createdAt : Z;
  updatedAt : Z
}.
End User.

Module Call.
Record t : Type := mk {
  id : string;
  callSid : string;
  userId : string;
  fromNumber : string;
  toNumber : string;
  callContext : option string;
  status : string;
  startedAt : Z;
  endedAt : option Z
}.
End Call.

Module CallMessage.
Record t : Type := mk {
  id : string;
  callId : string;
  role : string;
  content : string;
  timestamp : Z
}.
End CallMessage.

Module Prisma.

Record DB : Type := mkDB {
  users : list User.t;
  calls : list Call.t;
  callMessages : list CallMessage.t
}.

(** The unique index [calls_call_sid_key]. *)
Definition unique_callSid (db : DB) : Prop := NoDup (map Call.callSid (calls db)).

(** The foreign key [call_messages_call_id_fkey]. *)
Definition messages_refer_to_calls (db : DB) : Prop :=
  forall m, In m (callMessages db) ->
    exists c, In c (calls db) /\ Call.id c = CallMessage.callId m.

(** [prisma.call.findUnique({ where: { callSid } })] *)
Definition call_findUnique (callSid : string) (db : DB) : option Call.t :=
  find (fun c => String.eqb (Call.callSid c) callSid) (calls db).

(** The row of [calls] with the primary key [id], and the row of [users]
    with the primary key [id]. *)
Definition call_byId (id : string) (db : DB) : option Call.t :=
  find (fun c => String.eqb (Call.id c) id) (calls db).

Definition user_byId (id : string) (db : DB) : option User.t :=
  find (fun u => String.eqb (User.id u) id) (users db).

(** [prisma.call.create]: refused when the id or the call SID is taken
    ([calls_pkey], [calls_call_sid_key]) and when no user has the id
    [user_id] ([calls_user_id_fkey]). The texts of the errors are Prisma's. *)
Definition call_create (c : Call.t) (db : DB) : Completion Call.t * DB :=
  match call_byId (Call.id c) db, call_findUnique (Call.callSid c) db,
        user_byId (Call.userId c) db with
  | None, None, Some _ => (Normal c, mkDB (users db) (calls db ++ [c]) (callMessages db))
  | Some _, _, _ => (Throw (Error "Unique constraint failed on the fields: (`id`)"), db)
  | None, Some _, _ =>
      (Throw (Error "Unique constraint failed on the fields: (`call_sid`)"), db)
  | None, None, None =>
      (Throw (Error "Foreign key constraint violated: `calls_user_id_fkey (index)`"), db)
  end.

Fixpoint insert_by_timestamp (m : CallMessage.t) (l : list CallMessage.t) : list CallMessage.t :=
  match l with
  | [] => [m]
  | x :: l' =>
      if (CallMessage.timestamp m <=? CallMessage.timestamp x)%Z then m :: l
      else x :: insert_by_timestamp m l'
  end.

(** [orderBy: { timestamp: 'asc' }]; rows with equal timestamps keep their
    order of insertion. *)
Definition orderBy_timestamp_asc (l : list CallMessage.t) : list CallMessage.t :=
  foldr insert_by_timestamp [] l.

(** [include: { messages: { orderBy: { timestamp: 'asc' } } }] *)
Definition include_messages (c : Call.t) (db : DB) : list CallMessage.t :=
  orderBy_timestamp_asc
    (filter (fun m => CallMessage.callId m = Call.id c) (callMessages db)).

End Prisma.

(** ** CallPersistenceService (services/call-persistence.service.ts) *)

Module CallPersistenceService.
Import Prisma.

Record TranscriptMessage : Type := mkTranscriptMessage {
  role : string;
  content : string;
  timestamp : Z
}.

Record CallTranscript : Type := mkCallTranscript {
  callSid : string;
  fromNumber : string;
  toNumber : string;
  callContext : option string;
  startTime : Z;
  endTime : option Z;
  status : string;
  messages : list TranscriptMessage
}.

Definition callToTranscript (call : Call.t) (messages : list CallMessage.t) : CallTranscript :=
  mkCallTranscript (Call.callSid call) (Call.fromNumber call) (Call.toNumber call)
    (Call.callContext call) (Call.startedAt call) (Call.endedAt call) (Call.status call)
    (map (fun m => mkTranscriptMessage (CallMessage.role m) (CallMessage.content m)
                     (CallMessage.timestamp m)) messages).

(** What a method resolves to, the lines it writes with [console.error]
    on the way, and the rows afterwards. *)
Record Reply (A : Type) : Type := mkReply {
  value : A;
  logged : list string;
  database : DB
}.
Arguments mkReply {A} value logged database.
Arguments value {A} r.
Arguments logged {A} r.
Arguments database {A} r.

(** [startCall]: the row's [id] and [startedAt] are the defaults that are
    filled in, passed here as [newId] and [now]. When the insert is
    refused the promise rejects and nothing is logged. *)
Definition startCall (newId : string) (now : Z)
    (userId callSid fromNumber toNumber : string) (callContext : Value) (db : DB)
    : Reply (Completion Call.t) :=
  match
    call_create
      (Call.mk newId callSid userId fromNumber toNumber
         (if truthy callContext then callContext else None) "in_progress" now None) db
  with
  | (Throw error, db') => mkReply (Throw error) [] db'
  | (Normal call, db') =>
      mkReply (Normal call) ["Call started: " +:+ callSid +:+ " for user " +:+ userId] db'
  end.

Definition role_name (r : Role) : string :=
  match r with user => "user" | assistant => "assistant" end.

Definition addMessage (newId : string) (now : Z)
    (callSid : string) (role : Role) (content : string) (db : DB)
    : Reply (option CallMessage.t) :=
  match call_findUnique callSid db with
  | None => mkReply None ["Cannot add message: call " +:+ callSid +:+ " not found"] db
  | Some call =>
      let message := CallMessage.mk newId (Call.id call) (role_name role) content now in
      mkReply (Some message)
        ["Message added to call " +:+ callSid +:+ ": [" +:+ role_name role +:+ "] "
           +:+ substring 0 50 content +:+ "..."]
        (mkDB (users db) (calls db) (callMessages db ++ [message]))
  end.

(** [prisma.call.update] rejects when no row has the call SID, and
    [.catch(() => null)] turns that into [null]; otherwise the row with the
    call SID is replaced by the updated one. *)
Definition endCall (now : Z) (callSid : string) (db : DB) : Reply (option Call.t) :=
  match call_findUnique callSid db with
  | None => mkReply None [] db
  | Some call =>
      let call' :=
        Call.mk (Call.id call) (Call.callSid call) (Call.userId call) (Call.fromNumber call)
          (Call.toNumber call) (Call.callContext call) "completed" (Call.startedAt call)
          (Some now) in
      mkReply (Some call') ["Call ended: " +:+ callSid]
        (mkDB (users db)
              (map (fun c => if String.eqb (Call.callSid c) callSid then call' else c) (calls db))
              (callMessages db))
  end.

(** What [getTranscript] writes with [console.error]. *)
Definition access_denied_line (userId callSid owner : string) : string :=
  "User " +:+ userId +:+ " attempted to access call " +:+ callSid +:+ " owned by " +:+ owner.

(** [getTranscript(callSid, userId)]: the value the promise resolves to
    ([None] is [null]) and the lines logged. *)
Definition getTranscript (callSid userId : string) (db : DB)
    : option CallTranscript * list string :=
  match call_findUnique callSid db with
  | None => (None, [])
  | Some call =>
      if negb (String.eqb (Call.userId call) userId) then
        (None, [access_denied_line userId callSid (Call.userId call)])
      else
        (Some (callToTranscript call (include_messages call db)), [])
  end.

End CallPersistenceService.

(** ** Predicates and sample data used in the statements *)

(** The names of the four kinds of event that [processEvent] handles. *)
Definition transcription_completed : string :=
  "conversation.item.input_audio_transcription.completed".
Definition audio_transcript_done : string := "response.audio_transcript.done".
Definition audio_delta : string := "response.audio.delta".
Definition speech_started : string := "input_audio_buffer.speech_started".

(** Both set or both unset. *)
Definition set_together (cs : CallState) : Prop :=
  is_Some (responseStartTimestampTwilio cs) <-> is_Some (lastAssistantItemId cs).

(** The item is set only while the start timestamp is. *)
Definition item_only_while_started (cs : CallState) : Prop :=
  is_Some (lastAssistantItemId cs) -> is_Some (responseStartTimestampTwilio cs).

(** An audio delta that is relayed and names no item: [response.delta] is
    truthy and [response.item_id] is not. *)
Definition delta_with_no_item (ev : Event) : bool :=
  strict_eq (type ev) audio_delta && truthy (delta ev) && negb (truthy (item_id ev)).

(** A callback keeps a property of the call state, however it completes. *)
Definition preserves (P : CallState -> Prop) (m : M unit) : Prop :=
  forall w, P (callState w) -> P (callState (final (m w))).

(** A callback leaves the conversation history as it is. *)
Definition keeps_history (m : M unit) : Prop :=
  forall w, conversationHistory (callState (final (m w))) = conversationHistory (callState w).

(** The kind of event that carries a transcript line of each role. *)
Definition transcript_kind (r : Role) : string :=
  match r with
  | user => transcription_completed
  | assistant => audio_transcript_done
  end.

(** An event kind that [processEvent] has no case for. *)
Definition unknown_kind (t : Value) : Prop :=
  t <> Some transcription_completed /\ t <> Some audio_transcript_done /\
  t <> Some audio_delta /\ t <> Some speech_started.

(** What the [.catch] handler of a request writes when its promise rejects. *)
Definition rejection_line (r : SinkRequest) (err : Exn) : LogLine :=
  match r with
  | AddMessage _ who _ => FailedToSaveMessage who err
  | EndCall _ => FailedToEndCall err
  end.

(** One step of the history: the same, or one more entry at its end. *)
Inductive grows_by_at_most_one (h : list ConversationMessage)
  : list ConversationMessage -> Prop :=
| grows_same : grows_by_at_most_one h h
| grows_one (m : ConversationMessage) : grows_by_at_most_one h (h ++ [m]).

(** The handler of the transcript events of each role. *)
Definition handleTranscript (checkForGoodbye : string -> bool) (onEndCall : M unit)
    (r : Role) : Value -> M unit :=
  match r with
  | user => handleTranscriptionCompleted checkForGoodbye onEndCall
  | assistant => handleAudioTranscriptDone checkForGoodbye onEndCall
  end.

(** A call of alice with two lines, stored through the persistence service. *)
Definition alice_call : Call.t :=
  Call.mk "c1" "CA1" "alice" "+15550001" "+15550002" (Some "book a table")
    "in_progress" 1000 None.

(** The users alice and bob are stored; mallory is not. *)
Definition stored_users : list User.t :=
  [User.mk "alice" "alice@example.com" "$2b$12$a" None 1 1;
   User.mk "bob" "bob@example.com" "$2b$12$b" (Some "Bob") 2 2].

Definition alice_db : Prisma.DB :=
  let db1 :=
    CallPersistenceService.database
      (CallPersistenceService.startCall "c1" 1000 "alice" "CA1" "+15550001" "+15550002"
         (Some "book a table") (Prisma.mkDB stored_users [] [])) in
  let db2 :=
    CallPersistenceService.database
      (CallPersistenceService.addMessage "m1" 1001 "CA1" user "hello" db1) in
  CallPersistenceService.database
    (CallPersistenceService.addMessage "m2" 1002 "CA1" assistant "hi there" db2).

(** A call in progress: stream ["MZ1"], carrier clock at [now], a response
    that started at [started] for item [item]. *)
Definition call_at (now : Z) (started : option Z) (item : option string) : World :=
  mkWorld
    (mkCallState "CA1" "MZ1" "+15550001" "+15550002" "book a table" []
       now started item [] in_progress)
    [] [] [] [] true false.

Definition never_goodbye (text : string) : bool := false.

(** The policy used in the examples: the line is exactly ["goodbye"]. *)
Definition says_goodbye (text : string) : bool := String.eqb text "goodbye".

(** Transcript events of either role, a message that does not parse and an
    event of a kind the processor has no case for. *)
Definition user_says (text : string) : WebSocketData :=
  mkData "{type: conversation.item.input_audio_transcription.completed}"
    (ParsedValue (mkEvent (Some transcription_completed) (Some text) None None)).

Definition assistant_says (text : string) : WebSocketData :=
  mkData "{type: response.audio_transcript.done}"
    (ParsedValue (mkEvent (Some audio_transcript_done) (Some text) None None)).

Definition malformed : WebSocketData :=
  mkData "{type: " (ParseThrows (SyntaxError "Unexpected end of JSON input")).

Definition session_created : WebSocketData :=
  mkData "{type: session.created}" (ParsedValue (mkEvent (Some "session.created") None None None)).

(** An audio delta of item ["abc"], and one that names no item. *)
Definition delta_abc : WebSocketData :=
  mkData "{delta abc}" (ParsedValue (mkEvent (Some audio_delta) None (Some "AAAA") (Some "abc"))).

Definition delta_without_item : WebSocketData :=
  mkData "{delta}" (ParsedValue (mkEvent (Some audio_delta) None (Some "AAAA") None)).

Definition speech_started_event : WebSocketData :=
  mkData "{speech_started}" (ParsedValue (mkEvent (Some speech_started) None None None)).

(** The scenario of the specification.

    Carrier frames at 0, 20 and 40 with no response in flight; an audio
    delta for item ["abc"]; carrier frames up to 260; the caller starts to
    speak. *)

Definition scenario (checkForGoodbye : string -> bool) : World * World * World :=
  let frames ts w :=
    fold_left (fun w t => final (CallSession.onMediaFrame "AAAA" t w)) ts w in
  let w1 := frames [0; 20; 40] (call_at 0 None None) in
  let w2 := final (CallSession.onModelMessage checkForGoodbye delta_abc w1) in
  let w3 := frames [60; 160; 260] w2 in
  let w4 := final (CallSession.onModelMessage checkForGoodbye speech_started_event w3) in
  (w1, w2, w4).

(** The truncate instructions among those sent to the model. *)
Definition truncations (sent : list ModelInstruction) : list ModelInstruction :=
  List.filter (fun i => match i with Truncate _ _ => true | _ => false end) sent.

(** ** What a sequence of messages leaves behind *)

(** The line a transcript event adds to the history: none when the event is
    of another kind or its transcript is missing or empty. *)
Definition event_line (ev : Event) : list ConversationMessage :=
  if strict_eq (type ev) transcription_completed then
    if truthy (transcript ev) then [mkMessage user (default "" (transcript ev))] else []
  else if strict_eq (type ev) audio_transcript_done then
    if truthy (transcript ev) then [mkMessage assistant (default "" (transcript ev))] else []
  else [].

Definition transcript_line (d : WebSocketData) : list ConversationMessage :=
  match parsed d with
  | ParsedValue ev => event_line ev
  | _ => []
  end.

Definition transcript_lines (ds : list WebSocketData) : list ConversationMessage :=
  flat_map transcript_line ds.

(** The [addMessage] requests among those in flight. *)
Definition is_write (r : SinkRequest) : bool :=
  match r with
  | AddMessage _ _ _ => true
  | EndCall _ => false
  end.

Definition writes (w : World) : list SinkRequest := List.filter is_write (inFlight w).

(** The write that stores a line for the call [sid]. *)
Definition write_of (sid : string) (m : ConversationMessage) : SinkRequest :=
  AddMessage sid (role m) (content m).

(** A callback that changes neither the history, nor the call SID, nor the
    writes in flight. *)
Definition leaves_transcript_alone (m : M unit) : Prop :=
  forall w,
    conversationHistory (callState (final (m w))) = conversationHistory (callState w) /\
    callSid (callState (final (m w))) = callSid (callState w) /\
    writes (final (m w)) = writes w.

(** A callback that leaves the start timestamp of the response as it is. *)
Definition keeps_stamp (m : M unit) : Prop :=
  forall w,
    responseStartTimestampTwilio (callState (final (m w)))
    = responseStartTimestampTwilio (callState w).

(** The message is a [speech_started] event. *)
Definition is_speech_started (d : WebSocketData) : bool :=
  match parsed d with
  | ParsedValue ev => strict_eq (type ev) speech_started
  | _ => false
  end.

(** A transcript event without a line, or an audio delta without a payload. *)
Definition carries_nothing (ev : Event) : Prop :=
  ((type ev = Some transcription_completed \/ type ev = Some audio_transcript_done) /\
   truthy (transcript ev) = false) \/
  (type ev = Some audio_delta /\ truthy (delta ev) = false).

(** A caller line with an empty transcript and an audio delta with an empty
    payload. *)
Definition user_says_nothing : WebSocketData :=
  mkData "{type: conversation.item.input_audio_transcription.completed, transcript: }"
    (ParsedValue (mkEvent (Some transcription_completed) (Some "") None None)).

Definition empty_delta : WebSocketData :=
  mkData "{type: response.audio.delta}"
    (ParsedValue (mkEvent (Some audio_delta) None None (Some "abc"))).

(** ** Sequences of store operations *)

Module TranscriptStoreOps.
Import TranscriptStoreService.

(** Among [os] the call [id] is not started again. *)
Definition no_restart (id : string) (os : list Op) : Prop :=
  Forall (fun o => match o with OpStart callSid _ _ _ _ => callSid <> id | _ => True end) os.

(** No operation of [os] is on the call [id]. *)
Definition leaves_alone (id : string) (os : list Op) : Prop :=
  Forall (fun o => target o <> id) os.

(** The call started last among [os]. *)
Definition last_started (os : list Op) : option string :=
  foldl (fun acc o => match o with OpStart callSid _ _ _ _ => Some callSid | _ => acc end)
    None os.

(** Two calls side by side: CA1 is started, spoken on and ended while CA2
    is started and spoken on. *)
Definition two_calls : list Op :=
  [OpAdd "CA1" user "hello"; OpStart "CA2" "+1" "+3" "" 2; OpAdd "CA2" user "hi";
   OpAdd "CA1" assistant "goodbye"; OpEnd "CA1" 9; OpAdd "CA1" user "still there?"].

(** A call started under the empty call SID after CA1, and spoken on. *)
Definition unnamed_call : list Op :=
  [OpStart "CA1" "+1" "+2" "book" 1; OpStart "" "+1" "+3" "" 2; OpAdd "" user "hi"].

End TranscriptStoreOps.

(** ** CallPersistenceService: the other queries *)

Module CallPersistenceQueries.
Import Prisma CallPersistenceService.

Fixpoint insert_by_startedAt (c : Call.t) (l : list Call.t) : list Call.t :=
  match l with
  | [] => [c]
  | x :: l' =>
      if (Call.startedAt x <=? Call.startedAt c)%Z then c :: l
      else x :: insert_by_startedAt c l'
  end.

(** [orderBy: { startedAt: 'desc' }]; rows with equal start times keep
    their order of insertion. *)
Definition orderBy_startedAt_desc (l : list Call.t) : list Call.t :=
  foldr insert_by_startedAt [] l.

(** [where: { userId }, orderBy: { startedAt: 'desc' }] *)
Definition calls_of (userId : string) (db : DB) : list Call.t :=
  orderBy_startedAt_desc
    (List.filter (fun c => String.eqb (Call.userId c) userId) (calls db)).

Definition with_messages (db : DB) (call : Call.t) : CallTranscript :=
  callToTranscript call (include_messages call db).

(** [getLatestTranscript(userId)]: [findFirst] is the first row of the
    ordering. *)
Definition getLatestTranscript (userId : string) (db : DB) : option CallTranscript :=
  match calls_of userId db with
  | [] => None
  | call :: _ => Some (with_messages db call)
  end.

(** [getRecentCalls(userId, limit = 10)], for a limit that is a whole
    number and not negative; [None] is a call without the argument. *)
Definition getRecentCalls (userId : string) (limit : option nat) (db : DB)
    : list CallTranscript :=
  map (with_messages db) (take (default 10%nat limit) (calls_of userId db)).

(** [findCall(callSid)] *)
Definition findCall (callSid : string) (db : DB) : option Call.t :=
  call_findUnique callSid db.

(** [updateCallStatus(callSid, status)]: as [endCall], the update rejects
    when no row has the call SID and [.catch(() => null)] makes that
    [null]. *)
Definition updateCallStatus (callSid status : string) (db : DB) : Reply (option Call.t) :=
  match call_findUnique callSid db with
  | None => mkReply None [] db
  | Some call =>
      let call' :=
        Call.mk (Call.id call) (Call.callSid call) (Call.userId call) (Call.fromNumber call)
          (Call.toNumber call) (Call.callContext call) status (Call.startedAt call)
          (Call.endedAt call) in
      mkReply (Some call') []
        (mkDB (users db)
              (map (fun c => if String.eqb (Call.callSid c) callSid then call' else c) (calls db))
              (callMessages db))
  end.

(** The rows after [endCall] or [updateCallStatus]: the row of the call SID
    is replaced by [call']. *)
Definition replace_call (callSid : string) (call' : Call.t) (l : list Call.t) : list Call.t :=
  map (fun c => if String.eqb (Call.callSid c) callSid then call' else c) l.

(** Later start times first. *)
Definition latest_first (a b : CallTranscript) : Prop := (startTime b <= startTime a)%Z.

(** A second call of alice and a call of bob beside [alice_db]. *)
Definition three_calls_db : DB :=
  let db1 :=
    database (startCall "c2" 3000 "alice" "CA2" "+15550001" "+15550003" None alice_db) in
  let db2 :=
    database (startCall "c3" 2000 "bob" "CA3" "+15550009" "+15550002" (Some "") db1) in
  database (addMessage "m3" 3001 "CA2" user "good morning" db2).

End CallPersistenceQueries.

(** ** The tables of the login application

    [users] and [sessions] with all their columns; of [oauth_tokens] and
    [oauth_authorization_codes] the key and the columns that the cleanup
    reads. [users.email] carries a unique index, [sessions.user_id] refers to
    [users.id]. *)

Module Session.
Record t : Type := mk {
  id : string;
  userId : string;
  createdAt : Z;
  lastAccess : Z;
  expiresAt : Z
}.
End Session.

Module OauthToken.
Record t : Type := mk {
  accessToken : string;
  accessTokenExpiresAt : Z;
  userId : string;
  createdAt : Z
}.
End OauthToken.

Module OauthAuthorizationCode.
Record t : Type := mk {
  authorizationCode : string;
  expiresAt : Z;
  userId : string;
  createdAt : Z
}.
End OauthAuthorizationCode.

Module AuthTables.

Record DB : Type := mkDB {
  users : list User.t;
  sessions : list Session.t;
  oauthTokens : list OauthToken.t;
  oauthAuthorizationCodes : list OauthAuthorizationCode.t
}.

Definition set_users (us : list User.t) (db : DB) : DB :=
  mkDB us (sessions db) (oauthTokens db) (oauthAuthorizationCodes db).

Definition set_sessions (ss : list Session.t) (db : DB) : DB :=
  mkDB (users db) ss (oauthTokens db) (oauthAuthorizationCodes db).

(** The primary key of [sessions]. *)
Definition unique_session_id (db : DB) : Prop := NoDup (map Session.id (sessions db)).

(** [prisma.user.findUnique({ where: { email } })] *)
Definition user_findUnique_email (email : string) (db : DB) : option User.t :=
  find (fun u => String.eqb (User.email u) email) (users db).

(** [prisma.user.findUnique({ where: { id } })] *)
Definition user_findUnique_id (id : string) (db : DB) : option User.t :=
  find (fun u => String.eqb (User.id u) id) (users db).

(** [prisma.session.findUnique({ where: { id } })] *)
Definition session_findUnique (id : string) (db : DB) : option Session.t :=
  find (fun s => String.eqb (Session.id s) id) (sessions db).

(** [prisma.user.create]: refused when the id or the email is taken. *)
Definition user_create (u : User.t) (db : DB) : Completion User.t * DB :=
  match user_findUnique_id (User.id u) db, user_findUnique_email (User.email u) db with
  | None, None => (Normal u, set_users (users db ++ [u]) db)
  | _, _ => (Throw (Error "Unique constraint failed"), db)
  end.

(** [prisma.session.create]: refused when the id is taken or the user does
    not exist. *)
Definition session_create (s : Session.t) (db : DB) : Completion Session.t * DB :=
  match session_findUnique (Session.id s) db, user_findUnique_id (Session.userId s) db with
  | None, Some _ => (Normal s, set_sessions (sessions db ++ [s]) db)
  | Some _, _ => (Throw (Error "Unique constraint failed"), db)
  | None, None => (Throw (Error "Foreign key constraint failed"), db)
  end.

(** [prisma.session.delete({ where: { id } })] on a stored session, and
    [deleteMany]: the rows that stay. *)
Definition session_delete (id : string) (db : DB) : DB :=
  set_sessions (List.filter (fun s => negb (String.eqb (Session.id s) id)) (sessions db)) db.

(** [prisma.session.update({ where: { id }, data: { lastAccess } })] *)
Definition session_touch (id : string) (lastAccess : Z) (db : DB) : DB :=
  set_sessions
    (map (fun s =>
            if String.eqb (Session.id s) id
            then Session.mk (Session.id s) (Session.userId s) (Session.createdAt s)
                   lastAccess (Session.expiresAt s)
            else s) (sessions db)) db.

End AuthTables.

(** ** The authentication service (services/auth.service.ts)

    [String.prototype.toLowerCase] and bcrypt are the runtime's and a
    library's: they are parameters. The salt that [bcrypt.hash] draws, the
    ids that the database generates and the clock readings are passed in. *)

Record AuthUser : Type := mkAuthUser {
  auth_id : string;
  auth_email : string;
  auth_name : option string
}.

Definition SALT_ROUNDS : nat := 12.
Definition SESSION_DURATION_MS : Z := 24 * 60 * 60 * 1000.

Section AuthService.
Import AuthTables.

Variable toLowerCase : string -> string.
Variable bcrypt_hash : string -> nat -> string -> string.
Variable bcrypt_compare : string -> string -> bool.

Definition authUser (u : User.t) : AuthUser :=
  mkAuthUser (User.id u) (User.email u) (User.name u).

Definition registerUser (newId : string) (now : Z) (salt : string)
    (email password : string) (name : Value) (db : DB) : Completion AuthUser * DB :=
  match user_findUnique_email (toLowerCase email) db with
  | Some _ => (Throw (Error "User with this email already exists"), db)
  | None =>
      let passwordHash := bcrypt_hash password SALT_ROUNDS salt in
      match user_create
              (User.mk newId (toLowerCase email) passwordHash
                 (if truthy name then name else None) now now) db with
      | (Normal usr, db') => (Normal (authUser usr), db')
      | (Throw e, db') => (Throw e, db')
      end
  end.

Definition authenticateUser (email password : string) (db : DB) : option AuthUser :=
  match user_findUnique_email (toLowerCase email) db with
  | None => None
  | Some usr =>
      if bcrypt_compare password (User.passwordHash usr) then Some (authUser usr)
      else None
  end.

Definition createSession (newId : string) (now : Z) (userId : string) (db : DB)
    : Completion Session.t * DB :=
  let expiresAt := (now + SESSION_DURATION_MS)%Z in
  session_create (Session.mk newId userId now now expiresAt) db.

(** [validateSession]: [now] is the clock at the expiry check, [later] the
    clock at the update of the last access. *)
Definition validateSession (now later : Z) (sessionId : string) (db : DB)
    : Completion (option AuthUser) * DB :=
  match session_findUnique sessionId db with
  | None => (Normal None, db)
  | Some session =>
      match user_findUnique_id (Session.userId session) db with
      | None => (Throw (Error "Inconsistent query result: field user is required"), db)
      | Some usr =>
          if (Session.expiresAt session <? now)%Z then
            (Normal None, session_delete sessionId db)
          else
            (Normal (Some (authUser usr)), session_touch sessionId later db)
      end
  end.

(** [deleteSession]: a missing session makes [delete] reject, which
    [.catch] swallows. *)
Definition deleteSession (sessionId : string) (db : DB) : DB :=
  match session_findUnique sessionId db with
  | None => db
  | Some _ => session_delete sessionId db
  end.

Definition getUserById (userId : string) (db : DB) : option AuthUser :=
  match user_findUnique_id userId db with
  | None => None
  | Some usr => Some (authUser usr)
  end.

Definition deleteAllUserSessions (userId : string) (db : DB) : DB :=
  set_sessions (List.filter (fun s => negb (String.eqb (Session.userId s) userId)) (sessions db))
    db.

End AuthService.

(** ** The periodic cleanup (services/db.service.ts) *)

Module DbService.
Import AuthTables.

Definition cleanupExpiredData (now : Z) (db : DB) : list string * DB :=
  let keptSessions := List.filter (fun s => negb (Session.expiresAt s <? now)%Z) (sessions db) in
  let keptTokens :=
    List.filter (fun t => negb (OauthToken.accessTokenExpiresAt t <? now)%Z) (oauthTokens db) in
  let codeExpiry := (now - 10 * 60 * 1000)%Z in
  let keptCodes :=
    List.filter (fun c => negb (OauthAuthorizationCode.createdAt c <? codeExpiry)%Z)
      (oauthAuthorizationCodes db) in
  let deletedSessions := (length (sessions db) - length keptSessions)%nat in
  let deletedTokens := (length (oauthTokens db) - length keptTokens)%nat in
  let deletedCodes := (length (oauthAuthorizationCodes db) - length keptCodes)%nat in
  (if (0 <? deletedSessions)%nat || (0 <? deletedTokens)%nat || (0 <? deletedCodes)%nat then
     ["Cleanup: " +:+ pretty deletedSessions +:+ " sessions, " +:+ pretty deletedTokens
        +:+ " tokens, " +:+ pretty deletedCodes +:+ " auth codes"]
   else [],
   mkDB (users db) keptSessions keptTokens keptCodes).

End DbService.

(** ** The login and registration endpoints (servers/web.server.ts)

    [POST /api/login] and [POST /api/register]: the response is its status,
    its JSON body and the session cookie it sets, if any. The email and the
    password of the request are strings. *)

Inductive Json : Type :=
| JsonError (error : string)
| JsonRedirect (redirect : string).

Record Response : Type := mkResponse {
  res_status : nat;
  res_json : Json;
  res_cookie : option string
}.

(** [error.message] *)
Definition message (e : Exn) : string :=
  match e with
  | SyntaxError m => m
  | TypeError m => m
  | Error m => m
  end.

(** [callbackUrl || '/'] *)
Definition redirect_to (callbackUrl : Value) : string :=
  if truthy callbackUrl then default "" callbackUrl else "/".

Section WebServer.
Import AuthTables.

Variable toLowerCase : string -> string.
Variable bcrypt_hash : string -> nat -> string -> string.
Variable bcrypt_compare : string -> string -> bool.

(** [POST /api/login]: [sessionId] is the id the database gives the new
    session, [now] the clock when it is created. *)
Definition api_login (sessionId : string) (now : Z)
    (email password : string) (callbackUrl : Value) (db : DB) : Response * DB :=
  match authenticateUser toLowerCase bcrypt_compare email password db with
  | None => (mkResponse 401 (JsonError "Invalid email or password") None, db)
  | Some usr =>
      match createSession sessionId now (auth_id usr) db with
      | (Throw error, db') => (mkResponse 500 (JsonError (message error)) None, db')
      | (Normal session, db') =>
          (mkResponse 200 (JsonRedirect (redirect_to callbackUrl)) (Some (Session.id session)),
           db')
      end
  end.

(** [POST /api/register]: [userId] and [sessionId] are the ids the database
    gives the new rows, [now] and [later] the clock at the two inserts,
    [salt] the salt bcrypt draws. *)
Definition api_register (userId sessionId : string) (now later : Z) (salt : string)
    (email password : string) (name callbackUrl : Value) (db : DB) : Response * DB :=
  if negb (truthy_string password) || (String.length password <? 8)%nat then
    (mkResponse 400 (JsonError "Password must be at least 8 characters") None, db)
  else
    match registerUser toLowerCase bcrypt_hash userId now salt email password name db with
    | (Throw error, db') => (mkResponse 400 (JsonError (message error)) None, db')
    | (Normal usr, db') =>
        match createSession sessionId later (auth_id usr) db' with
        | (Throw error, db'') => (mkResponse 400 (JsonError (message error)) None, db'')
        | (Normal session, db'') =>
            (mkResponse 200 (JsonRedirect (redirect_to callbackUrl))
               (Some (Session.id session)),
             db'')
        end
    end.

End WebServer.

(** ** Sample data for the login application *)

(** Lower case of the letters A to Z, and a stand-in for bcrypt that keeps
    the password readable; the statements hold for any such functions. *)
Definition ascii_lower (c : Ascii.ascii) : Ascii.ascii :=
  let n := Ascii.nat_of_ascii c in
  if ((65 <=? n) && (n <=? 90))%nat then Ascii.ascii_of_nat (n + 32) else c.

Fixpoint ascii_toLowerCase (s : string) : string :=
  match s with
  | EmptyString => EmptyString
  | String c s' => String (ascii_lower c) (ascii_toLowerCase s')
  end.

Definition toy_hash (password : string) (rounds : nat) (salt : string) : string :=
  salt +:+ "$" +:+ password.

Definition toy_compare (password hash : string) : bool :=
  match index 0 "$" hash with
  | Some i => String.eqb (substring (S i) (String.length hash - S i) hash) password
  | None => false
  end.

Definition ann : User.t := User.mk "u1" "ann@example.com" "s1$correct horse" (Some "Ann") 10 10.

(** Ann with a session from time 1000, a session of hers that expired at
    500, and an expired token. *)
Definition login_db : AuthTables.DB :=
  AuthTables.mkDB [ann]
    [Session.mk "s1" "u1" 1000 1000 (1000 + SESSION_DURATION_MS);
     Session.mk "s0" "u1" 100 200 500]
    [OauthToken.mk "t0" 700 "u1" 600]
    [].

(** Bob registers on [login_db]. *)
Definition bob_registered : Completion AuthUser * AuthTables.DB :=
  registerUser ascii_toLowerCase toy_hash "u2" 2000 "s2" "Bob@Example.com" "hunter22"
    (Some "Bob") login_db.

Definition bob : AuthUser := mkAuthUser "u2" "bob@example.com" (Some "Bob").

(** ** TwilioCallService (services/twilio/call.service.ts)

    The Twilio client is a library: a method that sends it a request is
    given the client's answer. [RECORD_CALLS] and [DYNAMIC_API_SECRET] come
    from config/constants.ts, which is not among the sources, and
    [encodeURIComponent] is the runtime's: they are parameters. *)

Module Twilio.

Record CallInstance : Type := mkCallInstance {
  sid : string;
  status : string
}.

Inductive Request : Type :=
| CallsCreate (to from url : string)
| CallUpdate (callSid status : string)
| RecordingsCreate (callSid : string).

(** What a method of the service did: the value or the thrown error, the
    requests it sent to Twilio, and what it wrote with [console.error], a
    text and, where the error object is passed along, that object. *)
Record Did (A : Type) : Type := mkDid {
  result : Completion A;
  sent : list Request;
  logged : list (string * option Exn)
}.
Arguments mkDid {A} result sent logged.
Arguments result {A} d.
Arguments sent {A} d.
Arguments logged {A} d.

End Twilio.

(** [String(error)] for an [Error] object: its name, a colon, its message. *)
Definition error_to_string (e : Exn) : string :=
  match e with
  | SyntaxError m => "SyntaxError: " +:+ m
  | TypeError m => "TypeError: " +:+ m
  | Error m => "Error: " +:+ m
  end.

Section TwilioCallService.
Import Twilio.

Variable RECORD_CALLS : bool.
Variable DYNAMIC_API_SECRET : string.
Variable encodeURIComponent : string -> string.

Record TwilioCallService : Type := mkTwilioCallService {
  callbackUrl : string;
  twilio_fromNumber : string
}.

(** [new TwilioCallService(twilioClient, fromNumber)] *)
Definition newTwilioCallService (fromNumber : string) : TwilioCallService :=
  mkTwilioCallService "" fromNumber.

Definition setCallbackUrl (url : string) (svc : TwilioCallService) : TwilioCallService :=
  mkTwilioCallService url (twilio_fromNumber svc).

Definition getCallbackUrl (svc : TwilioCallService) : string := callbackUrl svc.

Definition getFromNumber (svc : TwilioCallService) : string := twilio_fromNumber svc.

(** [startRecording(callSid)]; [answer] is what
    [calls(callSid).recordings.create()] settles to. *)
Definition startRecording (svc : TwilioCallService) (callSid : string)
    (answer : Completion unit) : Did unit :=
  if negb RECORD_CALLS || negb (truthy_string callSid) then mkDid (Normal tt) [] []
  else
    match answer with
    | Normal _ => mkDid (Normal tt) [RecordingsCreate callSid] []
    | Throw error =>
        mkDid (Normal tt) [RecordingsCreate callSid]
          [("Failed to start recording for call " +:+ callSid +:+ ":", Some error)]
    end.

(** [endCall(callSid)]; [answer] is what
    [calls(callSid).update({ status: 'completed' })] settles to. *)
Definition twilio_endCall (svc : TwilioCallService) (callSid : string)
    (answer : Completion CallInstance) : Did unit :=
  if negb (truthy_string callSid) then mkDid (Normal tt) [] []
  else
    match answer with
    | Normal _ => mkDid (Normal tt) [CallUpdate callSid "completed"] []
    | Throw error =>
        mkDid (Normal tt) [CallUpdate callSid "completed"]
          [("Failed to end call " +:+ callSid +:+ ":", Some error)]
    end.

(** The webhook URL given to Twilio for an outgoing call. *)
Definition outgoing_url (svc : TwilioCallService) (callContext : string) : string :=
  callbackUrl svc +:+ "/call/outgoing?apiSecret=" +:+ DYNAMIC_API_SECRET
    +:+ "&callType=outgoing&callContext=" +:+ encodeURIComponent callContext.

(** [makeCall(toNumber, callContext = '')]; [answer] is what
    [calls.create(...)] settles to. *)
Definition makeCall (svc : TwilioCallService) (toNumber : string) (callContext : Value)
    (answer : Completion CallInstance) : Did CallInstance :=
  if negb (truthy_string (callbackUrl svc)) then
    mkDid (Throw (Error "Callback URL not set")) [] []
  else
    let context := default "" callContext in
    let request := CallsCreate toNumber (twilio_fromNumber svc) (outgoing_url svc context) in
    match answer with
    | Normal call => mkDid (Normal call) [request] []
    | Throw error =>
        mkDid (Throw error) [request]
          [("Error making call: " +:+ error_to_string error, None)]
    end.

End TwilioCallService.

(** ** The tools of a user's MCP server (servers/web.server.ts)

    [createMcpServerForUser(user)] registers three tools. A tool's answer
    is the object it passes to [JSON.stringify] and whether it is marked as
    an error. *)

Inductive ToolText : Type :=
| TextError (error : string)
| TextTriggered (callSid to status : string)
| TextTranscript (transcript : CallPersistenceService.CallTranscript)
| TextCalls (count : nat) (calls : list CallPersistenceService.CallTranscript).

Record ToolResult : Type := mkToolResult {
  tool_text : ToolText;
  isError : bool
}.

Section McpTools.
Import Prisma CallPersistenceService CallPersistenceQueries.

Variable DYNAMIC_API_SECRET : string.
Variable encodeURIComponent : string -> string.

(** The user for whom [POST /mcp] builds the tools. [userId] is the id
    that the OAuth session gives, [''] if it gives none. A user that is not
    found in the database is kept, with an empty address. *)
Definition mcp_session_user (userId : string) (db : DB) : AuthUser :=
  if truthy_string userId then
    match user_byId userId db with
    | Some dbUser => mkAuthUser (User.id dbUser) (User.email dbUser) (User.name dbUser)
    | None => mkAuthUser userId "" None
    end
  else mkAuthUser "" "" None.

(** The [trigger-call] tool. [twilioCallService] is the module's variable,
    unset until the web server has started; [answer] is what Twilio answers
    if it is asked; [newId] and [now] are the id and the start time the
    database gives the stored call. The tool's answer comes with the
    requests sent to Twilio and the rows afterwards. *)
Definition trigger_call (user : AuthUser) (twilioCallService : option TwilioCallService)
    (toNumber callContext : string) (answer : Completion Twilio.CallInstance)
    (newId : string) (now : Z) (db : DB) : ToolResult * list Twilio.Request * DB :=
  match twilioCallService with
  | None => (mkToolResult (TextError "Voice server not ready yet") true, [], db)
  | Some svc =>
      let did := makeCall DYNAMIC_API_SECRET encodeURIComponent svc toNumber
                   (Some callContext) answer in
      match Twilio.result did with
      | Throw error => (mkToolResult (TextError (message error)) true, Twilio.sent did, db)
      | Normal call =>
          let reply :=
            startCall newId now (auth_id user) (Twilio.sid call) (getFromNumber svc)
              toNumber (Some callContext) db in
          match value reply with
          | Throw error =>
              (mkToolResult (TextError (message error)) true, Twilio.sent did,
               database reply)
          | Normal _ =>
              (mkToolResult (TextTriggered (Twilio.sid call) toNumber (Twilio.status call))
                 false,
               Twilio.sent did, database reply)
          end
      end
  end.

(** The [get-transcript] tool. *)
Definition get_transcript (user : AuthUser) (callSid : Value) (db : DB) : ToolResult :=
  let transcript :=
    if truthy callSid then fst (getTranscript (default "" callSid) (auth_id user) db)
    else getLatestTranscript (auth_id user) db in
  match transcript with
  | None => mkToolResult (TextError "No transcript found") true
  | Some t => mkToolResult (TextTranscript t) false
  end.

(** [limit || 10] *)
Definition limit_or_10 (limit : option nat) : nat :=
  match limit with
  | None => 10
  | Some 0 => 10
  | Some n => n
  end%nat.

(** The [list-calls] tool, for a limit that is a whole number and not
    negative. *)
Definition list_calls (user : AuthUser) (limit : option nat) (db : DB) : ToolResult :=
  let calls := getRecentCalls (auth_id user) (Some (limit_or_10 limit)) db in
  mkToolResult (TextCalls (length calls) calls) false.

End McpTools.

(** [encodeURIComponent] on text made of letters, digits and [-_.!~*'()],
    which it leaves as it is. *)
Definition encode_unreserved (s : string) : string := s.

Definition alice : AuthUser := mkAuthUser "alice" "alice@example.com" None.
Definition mallory : AuthUser := mkAuthUser "mallory" "mallory@example.com" None.

(** The call service once the voice server has announced its URL. *)
Definition ready_service : TwilioCallService :=
  setCallbackUrl "https://voice.example.com/call" (newTwilioCallService "+15550001").

(** ** Start-up checks (index.ts and the stdio entry point)

    [process.env] is a map from names to strings; [process.exit(1)] ends the
    start-up. *)

Inductive Startup : Type :=
| Continue
| Exit (code : nat) (logged : list string).

(** [names.join(', ')] *)
Definition join_names (names : list string) : string := String.concat ", " names.

(** [!process.env[envVar]] *)
Definition unset (env : gmap string string) (envVar : string) : bool :=
  match env !! envVar with
  | Some s => negb (truthy_string s)
  | None => true
  end.

Module WebMain.

Definition REQUIRED_ENV_VARS : list string :=
  ["TWILIO_ACCOUNT_SID"; "TWILIO_AUTH_TOKEN"; "OPENAI_API_KEY"; "TWILIO_NUMBER";
   "DATABASE_URL"].

Definition validateEnvironmentVariables (env : gmap string string) : Startup :=
  let missing := List.filter (unset env) REQUIRED_ENV_VARS in
  if (0 <? length missing)%nat then
    Exit 1 ["Error: Missing required environment variables: " +:+ join_names missing]
  else Continue.

End WebMain.

Module StdioMain.

Definition REQUIRED_ENV_VARS : list string :=
  ["TWILIO_ACCOUNT_SID"; "TWILIO_AUTH_TOKEN"; "OPENAI_API_KEY"; "TWILIO_NUMBER"].

(** The loop exits at the first variable that is not set. *)
Fixpoint check (env : gmap string string) (vars : list string) : Startup :=
  match vars with
  | [] => Continue
  | envVar :: vars' =>
      if unset env envVar then
        Exit 1 ["Error: " +:+ envVar +:+ " environment variable is required"]
      else check env vars'
  end.

Definition validateEnvironmentVariables (env : gmap string string) : Startup :=
  check env REQUIRED_ENV_VARS.

End StdioMain.

(** An environment in which only the database URL is missing and the
    OpenAI key is empty. *)
Definition sample_env : gmap string string :=
  <["TWILIO_ACCOUNT_SID" := "AC1"]>
    (<["TWILIO_AUTH_TOKEN" := "token"]>
       (<["OPENAI_API_KEY" := ""]> (<["TWILIO_NUMBER" := "+15550001"]> ∅))).

(** ** The session cookie (servers/web.server.ts)

    [authenticateUser] of the OAuth configuration reads the session id from
    the [Cookie] header by hand. The header is text of code units below 256,
    as Node hands it over. *)

Module Cookie.

(** [s.split(sep)] for a separator of one character. *)
Fixpoint split (sep : Ascii.ascii) (s : string) : list string :=
  match s with
  | EmptyString => [EmptyString]
  | String c s' =>
      if Ascii.eqb c sep then EmptyString :: split sep s'
      else
        match split sep s' with
        | h :: t => String c h :: t
        | [] => [String c EmptyString]
        end
  end.

(** White space and line terminators of JavaScript below 256: tab, line
    feed, vertical tab, form feed, carriage return, space, no-break space. *)
Definition is_white (c : Ascii.ascii) : bool :=
  let n := Ascii.nat_of_ascii c in
  ((n =? 9) || (n =? 10) || (n =? 11) || (n =? 12) || (n =? 13) || (n =? 32) || (n =? 160))%nat.

Fixpoint trimStart (s : string) : string :=
  match s with
  | EmptyString => EmptyString
  | String c s' => if is_white c then trimStart s' else s
  end.

Fixpoint trimEnd (s : string) : string :=
  match s with
  | EmptyString => EmptyString
  | String c s' =>
      match trimEnd s' with
      | EmptyString => if is_white c then EmptyString else String c EmptyString
      | t => String c t
      end
  end.

(** [s.trim()] *)
Definition trim (s : string) : string := trimEnd (trimStart s).

Definition SESSION_COOKIE_NAME : string := "voice_call_session_id".

(** The step of the [reduce]: [const [key, value] = cookie.trim().split('=')]
    and [if (key && value) acc[key] = value]. *)
Definition parse_cookie (acc : gmap string string) (cookie : string) : gmap string string :=
  match split "="%char (trim cookie) with
  | key :: value :: _ =>
      if truthy_string key && truthy_string value then <[key := value]> acc else acc
  | _ => acc
  end.

(** The session id that [authenticateUser] finds in the header
    [request.headers?.cookie]; [None] is [null]. Only the session cookie's
    name is looked up in the object that the [reduce] fills. *)
Definition session_cookie (cookieHeader : Value) : option string :=
  if truthy cookieHeader then
    let cookies := foldl parse_cookie ∅ (split ";"%char (default "" cookieHeader)) in
    match cookies !! SESSION_COOKIE_NAME with
    | Some v => if truthy_string v then Some v else None
    | None => None
    end
  else None.

(** Text that can stand as the name or the value of a cookie: not empty,
    and free of [;], [=] and white space. *)
Fixpoint plain_chars (s : string) : bool :=
  match s with
  | EmptyString => true
  | String c s' =>
      negb (Ascii.eqb c ";") && negb (Ascii.eqb c "=") && negb (is_white c) && plain_chars s'
  end.

Definition plain (s : string) : bool := truthy_string s && plain_chars s.

(** The text has no character [sep], and no white space. *)
Fixpoint lacks (sep : Ascii.ascii) (s : string) : bool :=
  match s with
  | EmptyString => true
  | String c s' => negb (Ascii.eqb c sep) && lacks sep s'
  end.

Fixpoint no_white (s : string) : bool :=
  match s with
  | EmptyString => true
  | String c s' => negb (is_white c) && no_white s'
  end.

(** The header a browser sends for a list of cookies: [name=value] joined
    by a semicolon and a space. *)
Definition pair_text (p : string * string) : string := fst p +:+ "=" +:+ snd p.

Definition header_of (cookies : list (string * string)) : string :=
  String.concat "; " (map pair_text cookies).

(** The value of the last cookie of the given name. *)
Definition last_value (name : string) (cookies : list (string * string)) : option string :=
  foldl (fun acc p => if String.eqb (fst p) name then Some (snd p) else acc) None cookies.

End Cookie.

Section OAuthAuthenticate.
Import AuthTables.

(** The user that the OAuth configuration reports. *)
Record OAuthUser : Type := mkOAuthUser {
  oauth_id : string;
  oauth_email : string;
  oauth_name : string
}.

(** [authenticateUser(request)]: [user.name || user.email]. *)
Definition oauth_authenticateUser (cookieHeader : Value) (now later : Z) (db : DB)
    : Completion (option OAuthUser) * DB :=
  match Cookie.session_cookie cookieHeader with
  | None => (Normal None, db)
  | Some sessionId =>
      match validateSession now later sessionId db with
      | (Throw e, db') => (Throw e, db')
      | (Normal None, db') => (Normal None, db')
      | (Normal (Some usr), db') =>
          (Normal (Some (mkOAuthUser (auth_id usr) (auth_email usr)
                           (if truthy (auth_name usr) then default "" (auth_name usr)
                            else auth_email usr))),
           db')
      end
  end.

End OAuthAuthenticate.

(** * Properties *)

(** Unfolds a statement down to the function on worlds it denotes. *)
Ltac unfold_stmt :=
  unfold CallSession.onModelMessage, CallSession.onMediaFrame,
    processMessage, processEvent, try_catch, JSON_parse, properties,
    handleTranscriptionCompleted, handleAudioTranscriptDone, handleAudioDelta,
    push_conversationHistory,
    CallSession.truncateActiveResponse, CallSession.endCall, CallSession.sendAudio,
    CallSession.send_toModel, CallSession.send_toCarrier,
    when, skip, dispatch, console_error, update_callState, read_callState,
    read_world, update_world, throw, mbind, M_bind, mret, M_ret, bind, ret,
    final, completion.

(** ** Barge-in *)

Section BargeIn.

Variable checkForGoodbye : string -> bool.

(** C1. With [responseStartTimestamp = T] and [activeResponseItemId = I],
    a [speech_started] event at [latestMediaTimestamp = T + 220] sends
    exactly one truncate instruction, for [I] with [elapsed = 220], and
    leaves both fields unset; a second [speech_started] right after sends
    nothing more. *)
Theorem barge_in_truncates_once (w : World) (T : Z) (I raw : string) (ev : Event) :
  responseStartTimestampTwilio (callState w) = Some T ->
  lastAssistantItemId (callState w) = Some I ->
  latestMediaTimestamp (callState w) = T + 220 ->
  type ev = Some speech_started ->
  let r := CallSession.onModelMessage checkForGoodbye (mkData raw (ParsedValue ev)) w in
  completion r = Normal tt /\
  toModel (final r) = toModel w ++ [Truncate I 220] /\
  responseStartTimestampTwilio (callState (final r)) = None /\
  lastAssistantItemId (callState (final r)) = None /\
  toModel (final (CallSession.onModelMessage checkForGoodbye
                    (mkData raw (ParsedValue ev)) (final r))) = toModel (final r).
Proof.
  intros Hstart Hitem Hnow Hty.
  unfold_stmt. simpl. rewrite Hty. simpl.
  rewrite Hitem, Hstart, Hnow. simpl.
  replace (T + 220 - T) with 220 by lia.
  repeat split; reflexivity.
Qed.

(** C4. With no response active, a [speech_started] event sends no
    truncate instruction and changes nothing. *)
Theorem speech_started_idle_is_noop (w : World) (raw : string) (ev : Event) :
  responseStartTimestampTwilio (callState w) = None ->
  lastAssistantItemId (callState w) = None ->
  type ev = Some speech_started ->
  CallSession.onModelMessage checkForGoodbye (mkData raw (ParsedValue ev)) w = (Normal tt, w).
Proof.
  intros _ Hitem Hty.
  unfold_stmt. simpl. rewrite Hty. simpl.
  now rewrite Hitem.
Qed.

End BargeIn.

Lemma barge_in_truncates_once_witness :
  toModel (final (CallSession.onModelMessage never_goodbye
             (mkData "{}" (ParsedValue (mkEvent (Some speech_started) None None None)))
             (call_at 260 (Some 40) (Some "abc"))))
  = [Truncate "abc" 220].
Proof.
  apply (barge_in_truncates_once never_goodbye (call_at 260 (Some 40) (Some "abc")) 40 "abc");
    reflexivity.
Defined.

Lemma speech_started_idle_is_noop_witness :
  CallSession.onModelMessage never_goodbye
    (mkData "{}" (ParsedValue (mkEvent (Some speech_started) None None None)))
    (call_at 40 None None)
  = (Normal tt, call_at 40 None None).
Proof.
  apply (speech_started_idle_is_noop never_goodbye (call_at 40 None None)); reflexivity.
Defined.

(** ** Audio deltas *)

Section AudioDelta.

Variable checkForGoodbye : string -> bool.

(** The first chunk of a response: relayed to the carrier, stamped with
    the carrier clock, and the item recorded. *)
Lemma audio_delta_relays_and_stamps (w : World) (raw payload item : string) (ev : Event) :
  type ev = Some audio_delta ->
  delta ev = Some payload -> payload <> "" ->
  item_id ev = Some item -> item <> "" ->
  responseStartTimestampTwilio (callState w) = None ->
  let w' := final (CallSession.onModelMessage checkForGoodbye (mkData raw (ParsedValue ev)) w) in
  toCarrier w' = toCarrier w ++ [MediaFrame (streamId (callState w)) payload] /\
  responseStartTimestampTwilio (callState w') = Some (latestMediaTimestamp (callState w)) /\
  lastAssistantItemId (callState w') = Some item.
Proof.
  intros Hty Hd Hp Hi Hi' Hstart.
  apply String.eqb_neq in Hp, Hi'.
  unfold_stmt. simpl. rewrite Hty, Hd, Hi. simpl. rewrite Hp, Hi'. simpl.
  rewrite Hstart. simpl. auto.
Qed.

(** A later chunk leaves a start timestamp other than 0 alone. *)
Lemma audio_delta_keeps_nonzero_stamp (w : World) (raw : string) (ev : Event) (t : Z) :
  type ev = Some audio_delta ->
  responseStartTimestampTwilio (callState w) = Some t -> t <> 0 ->
  responseStartTimestampTwilio
    (callState (final (CallSession.onModelMessage checkForGoodbye (mkData raw (ParsedValue ev)) w)))
  = Some t.
Proof.
  intros Hty Hstart Ht. apply Z.eqb_neq in Ht.
  unfold_stmt. simpl. rewrite Hty. simpl.
  destruct (truthy (delta ev)); simpl; [|exact Hstart].
  rewrite Hstart. simpl. rewrite Ht. simpl.
  destruct (truthy (item_id ev)); simpl; exact Hstart.
Qed.

(** C2. A response whose first chunk is relayed while the carrier clock
    reads 0 is stamped 0, which [handleAudioDelta] takes for unset: the
    second chunk of the same response, relayed at 20, stamps it again. *)
Theorem second_delta_restamps_after_zero :
  let w1 := final (CallSession.onModelMessage checkForGoodbye delta_abc (call_at 0 None None)) in
  let w2 := final (CallSession.onMediaFrame "BBBB" 20 w1) in
  let w3 := final (CallSession.onModelMessage checkForGoodbye delta_abc w2) in
  responseStartTimestampTwilio (callState w1) = Some 0 /\
  lastAssistantItemId (callState w1) = Some "abc" /\
  lastAssistantItemId (callState w3) = Some "abc" /\
  responseStartTimestampTwilio (callState w3) = Some 20.
Proof. repeat split; reflexivity. Qed.

End AudioDelta.

(** ** The start timestamp and the item *)

(** C3, as stated, fails: with neither field set, an audio delta that names
    no item sets the start timestamp and leaves the item unset. *)
Lemma set_together_broken_by_delta_without_item :
  set_together (callState (call_at 40 None None)) /\
  ~ set_together
      (callState (final (CallSession.onModelMessage never_goodbye delta_without_item
                           (call_at 40 None None)))).
Proof.
  split.
  - split; intros [x Hx]; discriminate Hx.
  - intros [Hto _].
    destruct Hto as [x Hx]; [eexists; reflexivity | discriminate Hx].
Qed.

Section StartedInvariant.

Variable checkForGoodbye : string -> bool.
Variables (onEndCall : M unit) (onSendAudioToTwilio : string -> M unit)
          (onTruncateResponse : M unit).

Hypothesis endCall_ok : preserves item_only_while_started onEndCall.
Hypothesis sendAudio_ok : forall p, preserves item_only_while_started (onSendAudioToTwilio p).
Hypothesis truncate_ok : preserves item_only_while_started onTruncateResponse.

Lemma handleTranscript_started (r : Role) (v : Value) :
  preserves item_only_while_started (handleTranscript checkForGoodbye onEndCall r v).
Proof.
  intros w Hw. destruct r; unfold handleTranscript; unfold_stmt;
    (destruct (truthy v); simpl; [|exact Hw]);
    destruct (truthy_string (callSid (callState w))); simpl;
    (destruct (checkForGoodbye (default "" v)); simpl; [|exact Hw]);
    match goal with
    | |- context [onEndCall ?w1] =>
        specialize (endCall_ok w1 Hw); unfold final in endCall_ok;
        destruct (onEndCall w1) as [[[]|e] w']; exact endCall_ok
    end.
Qed.

Lemma handleAudioDelta_started (ev : Event) :
  preserves item_only_while_started (handleAudioDelta onSendAudioToTwilio ev).
Proof.
  intros w Hw. unfold_stmt.
  specialize (sendAudio_ok (default "" (delta ev)) w Hw). unfold final in sendAudio_ok.
  destruct (onSendAudioToTwilio (default "" (delta ev)) w) as [[[]|e] w1]; simpl in *;
    [|exact sendAudio_ok].
  unfold item_only_while_started in *.
  destruct (responseStartTimestampTwilio (callState w1)) as [t|] eqn:Hstart; simpl.
  - destruct (Z.eqb t 0); simpl; destruct (truthy (item_id ev)); simpl;
      intros _; try rewrite Hstart; eexists; reflexivity.
  - destruct (truthy (item_id ev)); simpl; intros _; eexists; reflexivity.
Qed.

Lemma processEvent_started (response : option Event) :
  preserves item_only_while_started
    (processEvent checkForGoodbye onEndCall onSendAudioToTwilio onTruncateResponse response).
Proof.
  intros w Hw. destruct response as [ev|]; [|exact Hw].
  unfold processEvent, properties, mbind, M_bind, bind, ret. simpl.
  destruct (strict_eq (type ev) _); [exact (handleTranscript_started user _ w Hw)|].
  destruct (strict_eq (type ev) _); [exact (handleTranscript_started assistant _ w Hw)|].
  destruct (strict_eq (type ev) _).
  { unfold when. destruct (truthy (delta ev)); [|exact Hw].
    exact (handleAudioDelta_started ev w Hw). }
  destruct (strict_eq (type ev) _); [exact (truncate_ok w Hw)|exact Hw].
Qed.

Hypothesis endCall_tog : preserves set_together onEndCall.
Hypothesis sendAudio_tog : forall p, preserves set_together (onSendAudioToTwilio p).
Hypothesis truncate_tog : preserves set_together onTruncateResponse.

Lemma handleTranscript_together (r : Role) (v : Value) :
  preserves set_together (handleTranscript checkForGoodbye onEndCall r v).
Proof.
  intros w Hw. destruct r; unfold handleTranscript; unfold_stmt;
    (destruct (truthy v); simpl; [|exact Hw]);
    destruct (truthy_string (callSid (callState w))); simpl;
    (destruct (checkForGoodbye (default "" v)); simpl; [|exact Hw]);
    match goal with
    | |- context [onEndCall ?w1] =>
        specialize (endCall_tog w1 Hw); unfold final in endCall_tog;
        destruct (onEndCall w1) as [[[]|e] w']; exact endCall_tog
    end.
Qed.

(** A delta that names an item leaves both fields set. *)
Lemma handleAudioDelta_together (ev : Event) :
  truthy (item_id ev) = true ->
  preserves set_together (handleAudioDelta onSendAudioToTwilio ev).
Proof.
  intros Hitem w Hw. unfold_stmt.
  specialize (sendAudio_tog (default "" (delta ev)) w Hw). unfold final in sendAudio_tog.
  destruct (onSendAudioToTwilio (default "" (delta ev)) w) as [[[]|e] w1]; simpl in *;
    [|exact sendAudio_tog].
  rewrite Hitem. destruct (item_id ev) as [i|]; [|discriminate Hitem].
  unfold set_together.
  destruct (responseStartTimestampTwilio (callState w1)) as [t|] eqn:Hstart; simpl;
    [destruct (Z.eqb t 0); simpl|];
    split; intros _; try rewrite Hstart; eexists; reflexivity.
Qed.

Lemma processEvent_together (ev : Event) :
  delta_with_no_item ev = false ->
  preserves set_together
    (processEvent checkForGoodbye onEndCall onSendAudioToTwilio onTruncateResponse (Some ev)).
Proof.
  intros Hev w Hw.
  unfold processEvent, properties, mbind, M_bind, bind, ret. simpl.
  destruct (strict_eq (type ev) "conversation.item.input_audio_transcription.completed");
    [exact (handleTranscript_together user _ w Hw)|].
  destruct (strict_eq (type ev) "response.audio_transcript.done");
    [exact (handleTranscript_together assistant _ w Hw)|].
  destruct (strict_eq (type ev) "response.audio.delta") eqn:Hdelta.
  { unfold when. destruct (truthy (delta ev)) eqn:Hpayload; [|exact Hw].
    apply handleAudioDelta_together; [|exact Hw].
    unfold delta_with_no_item, audio_delta in Hev. rewrite Hdelta, Hpayload in Hev.
    simpl in Hev. now apply negb_false_iff in Hev. }
  destruct (strict_eq (type ev) "input_audio_buffer.speech_started");
    [exact (truncate_tog w Hw)|exact Hw].
Qed.

(** What a relayed delta that names no item does to the two fields. *)
Lemma processMessage_delta_with_no_item (raw : string) (ev : Event) (w w1 : World) :
  delta_with_no_item ev = true ->
  onSendAudioToTwilio (default "" (delta ev)) w = (Normal tt, w1) ->
  let cs :=
    callState
      (final (processMessage checkForGoodbye onEndCall onSendAudioToTwilio
                onTruncateResponse (mkData raw (ParsedValue ev)) w)) in
  lastAssistantItemId cs = lastAssistantItemId (callState w1) /\
  responseStartTimestampTwilio cs
  = (if not_number (responseStartTimestampTwilio (callState w1))
     then Some (latestMediaTimestamp (callState w1))
     else responseStartTimestampTwilio (callState w1)) /\
  is_Some (responseStartTimestampTwilio cs).
Proof.
  intros Hev Hsend. cbv zeta.
  unfold delta_with_no_item, audio_delta in Hev.
  apply andb_true_iff in Hev as [[Htype Hpayload]%andb_true_iff Hitem].
  apply negb_true_iff in Hitem.
  destruct (type ev) as [t|] eqn:Ht; [|discriminate Htype].
  simpl in Htype. apply String.eqb_eq in Htype. subst t.
  unfold_stmt. simpl. rewrite Ht. simpl. rewrite Hpayload, Hsend, Hitem. simpl.
  destruct (responseStartTimestampTwilio (callState w1)) as [t|] eqn:Hstart; simpl;
    [destruct (Z.eqb t 0); simpl|];
    repeat split; try rewrite Hstart; try reflexivity; eexists; reflexivity.
Qed.

(** C3, amended. [responseStartTimestamp] and [activeResponseItemId] are
    set together and cleared together by every message but one: an audio
    delta that carries a payload and names no item, once the payload is
    relayed, leaves [responseStartTimestamp] set and [activeResponseItemId]
    as it was, so with no item set before it the two are no longer set
    together. After every message, and every
    sequence of messages, [activeResponseItemId] is set only while
    [responseStartTimestamp] is set. All this holds when the session's
    three callbacks keep the two properties. *)
Theorem item_only_while_response_started :
  (forall data,
     preserves item_only_while_started
       (processMessage checkForGoodbye onEndCall onSendAudioToTwilio onTruncateResponse data)) /\
  (forall ds w,
     item_only_while_started (callState w) ->
     item_only_while_started
       (callState (processMessages checkForGoodbye onEndCall onSendAudioToTwilio
                     onTruncateResponse ds w))) /\
  (forall data,
     (forall ev, parsed data = ParsedValue ev -> delta_with_no_item ev = false) ->
     preserves set_together
       (processMessage checkForGoodbye onEndCall onSendAudioToTwilio onTruncateResponse data)) /\
  (forall raw ev w w1,
     delta_with_no_item ev = true ->
     onSendAudioToTwilio (default "" (delta ev)) w = (Normal tt, w1) ->
     let cs :=
       callState
         (final (processMessage checkForGoodbye onEndCall onSendAudioToTwilio
                   onTruncateResponse (mkData raw (ParsedValue ev)) w)) in
     is_Some (responseStartTimestampTwilio cs) /\
     lastAssistantItemId cs = lastAssistantItemId (callState w1) /\
     (lastAssistantItemId (callState w1) = None -> ~ set_together cs)).
Proof.
  assert (Hone : forall data,
     preserves item_only_while_started
       (processMessage checkForGoodbye onEndCall onSendAudioToTwilio onTruncateResponse data)).
  { intros data w Hw.
    unfold processMessage, try_catch, JSON_parse, mbind, M_bind, bind, final.
    destruct (parsed data) as [e| |ev]; simpl; try exact Hw.
    pose proof (processEvent_started (Some ev) w Hw) as Hev. unfold final in Hev.
    destruct (processEvent _ _ _ _ (Some ev) w) as [[[]|e] w']; exact Hev. }
  split; [exact Hone|]. split; [|split].
  - induction ds as [|d ds IH]; intros w Hw; simpl; [exact Hw|].
    apply IH, Hone, Hw.
  - intros data Hdata w Hw.
    unfold processMessage, try_catch, JSON_parse, mbind, M_bind, bind, final.
    destruct (parsed data) as [e| |ev] eqn:Hparsed; simpl; try exact Hw.
    pose proof (processEvent_together ev (Hdata ev eq_refl) w Hw) as Hev.
    unfold final in Hev.
    destruct (processEvent _ _ _ _ (Some ev) w) as [[[]|e] w']; exact Hev.
  - intros raw ev w w1 Hev Hsend. cbv zeta.
    destruct (processMessage_delta_with_no_item raw ev w w1 Hev Hsend)
      as (Hitem & _ & Hstamp).
    split; [exact Hstamp|]. split; [exact Hitem|].
    intros Hnone [Hto _]. destruct (Hto Hstamp) as [i Hi].
    rewrite Hitem, Hnone in Hi. discriminate Hi.
Qed.

End StartedInvariant.

(** ** The transcript store *)

Module TranscriptStoreFacts.
Import TranscriptStoreService.

Lemma getTranscript_startCall id from to ctx now s :
  getTranscript id (startCall id from to ctx now s)
  = Some (mkCallTranscript id from to ctx now None [] in_progress).
Proof. unfold getTranscript, startCall. simpl. apply lookup_insert_eq. Qed.

Lemma getTranscript_addMessage id role content s tr :
  getTranscript id s = Some tr ->
  getTranscript id (addMessage id role content s)
  = Some (with_messages (messages tr ++ [mkMessage role content]) tr).
Proof.
  unfold getTranscript, addMessage. intros Htr. rewrite Htr. simpl.
  apply lookup_insert_eq.
Qed.

Lemma getTranscript_addMessages id lines : forall s tr,
  getTranscript id s = Some tr ->
  getTranscript id (addMessages id lines s)
  = Some (with_messages (messages tr ++ map line_message lines) tr).
Proof.
  induction lines as [|[role content] lines IH]; intros s tr Htr.
  - simpl. rewrite app_nil_r. destruct tr; exact Htr.
  - change (addMessages id ((role, content) :: lines) s)
      with (addMessages id lines (addMessage id role content s)).
    rewrite (IH _ _ (getTranscript_addMessage id role content s tr Htr)).
    simpl. now rewrite <- app_assoc.
Qed.

Lemma getTranscript_endCall id now s tr :
  getTranscript id s = Some tr ->
  getTranscript id (endCall id now s)
  = Some (mkCallTranscript (callSid tr) (fromNumber tr) (toNumber tr) (callContext tr)
            (startTime tr) (Some now) (messages tr) completed).
Proof.
  unfold getTranscript, endCall. intros Htr. rewrite Htr. simpl.
  apply lookup_insert_eq.
Qed.

(** C5. [startCall(id, ...)], then one [addMessage(id, role, content)] per
    line, then [endCall(id)]: the transcript of [id] holds exactly those
    lines, in the order of the calls, and its status is [completed]. *)
Theorem transcript_round_trip (id from to ctx : string) (t0 t1 : Z)
    (lines : list (Role * string)) (s : t) :
  getTranscript id (endCall id t1 (addMessages id lines (startCall id from to ctx t0 s)))
  = Some (mkCallTranscript id from to ctx t0 (Some t1) (map line_message lines) completed).
Proof.
  erewrite getTranscript_endCall;
    [|erewrite getTranscript_addMessages; [reflexivity|apply getTranscript_startCall]].
  reflexivity.
Qed.

(** Other calls do not get in the way: a step that does not start or end
    the call [id] adds to its transcript the lines it adds to [id], and
    nothing else. *)
Lemma getTranscript_run id o s tr :
  match o with OpAdd _ _ _ => True | _ => target o <> id end ->
  getTranscript id s = Some tr ->
  getTranscript id (run o s) = Some (with_messages (messages tr ++ lines_for id [o]) tr).
Proof.
  intros Ho Htr.
  assert (Hsame : Some tr = Some (with_messages (messages tr ++ []) tr)).
  { rewrite app_nil_r. now destruct tr. }
  destruct o as [sid from to ctx now|sid role content|sid now]; simpl in *.
  - unfold getTranscript, startCall. simpl.
    rewrite lookup_insert_ne by exact Ho. now rewrite <- Hsame.
  - unfold lines_for. simpl. destruct (String.eqb_spec sid id) as [->|Hne].
    + now apply getTranscript_addMessage.
    + simpl. rewrite <- Hsame. unfold getTranscript, addMessage in *.
      destruct (transcripts s !! sid); simpl; [|exact Htr].
      now rewrite lookup_insert_ne.
  - rewrite <- Hsame. unfold getTranscript, endCall in *.
    destruct (transcripts s !! sid); simpl; [|exact Htr].
    now rewrite lookup_insert_ne.
Qed.

Lemma lines_for_cons id o os : lines_for id (o :: os) = lines_for id [o] ++ lines_for id os.
Proof. unfold lines_for. simpl. now rewrite app_nil_r. Qed.

Lemma getTranscript_runs id os : forall s tr,
  only_adds_to id os ->
  getTranscript id s = Some tr ->
  getTranscript id (runs os s) = Some (with_messages (messages tr ++ lines_for id os) tr).
Proof.
  induction os as [|o os IH]; intros s tr Hos Htr.
  - simpl. rewrite app_nil_r. now destruct tr.
  - inversion Hos as [|o' os' Ho Hos']; subst.
    change (runs (o :: os) s) with (runs os (run o s)).
    rewrite (IH _ _ Hos' (getTranscript_run id o s tr Ho Htr)).
    rewrite (lines_for_cons id o os), app_assoc. reflexivity.
Qed.

(** The round trip with the calls of other sessions in between. *)
Lemma interleaved_round_trip (id from to ctx : string) (t0 t1 : Z)
    (os : list Op) (s : t) :
  only_adds_to id os ->
  getTranscript id (endCall id t1 (runs os (startCall id from to ctx t0 s)))
  = Some (mkCallTranscript id from to ctx t0 (Some t1) (lines_for id os) completed).
Proof.
  intros Hos.
  erewrite getTranscript_endCall;
    [|erewrite getTranscript_runs; [reflexivity|exact Hos|apply getTranscript_startCall]].
  reflexivity.
Qed.

Example two_calls_interleaved :
  getTranscript "CA1"
    (endCall "CA1" 9
       (runs [OpAdd "CA1" user "hello"; OpStart "CA2" "+1" "+3" "" 2;
              OpAdd "CA2" user "hi"; OpAdd "CA1" assistant "goodbye"; OpEnd "CA2" 5]
          (startCall "CA1" "+1" "+2" "book" 1 empty)))
  = Some (mkCallTranscript "CA1" "+1" "+2" "book" 1 (Some 9)
            [mkMessage user "hello"; mkMessage assistant "goodbye"] completed).
Proof.
  apply interleaved_round_trip.
  repeat constructor; discriminate.
Qed.

End TranscriptStoreFacts.

(** ** Ownership of stored transcripts *)

Module CallPersistenceFacts.
Import Prisma CallPersistenceService.

Lemma call_findUnique_Some callSid db call :
  call_findUnique callSid db = Some call ->
  In call (calls db) /\ Call.callSid call = callSid.
Proof.
  unfold call_findUnique. intros H. apply find_some in H as [Hin Heq].
  split; [exact Hin|]. now apply String.eqb_eq.
Qed.

Lemma call_findUnique_None callSid db :
  (forall c, In c (calls db) -> Call.callSid c <> callSid) ->
  call_findUnique callSid db = None.
Proof.
  unfold call_findUnique. intros H.
  destruct (find _ (calls db)) as [c|] eqn:Hfind; [|reflexivity].
  apply find_some in Hfind as [Hin Heq]. apply String.eqb_eq in Heq.
  now destruct (H c Hin).
Qed.

(** Under the unique index, the row found by call SID is the stored row. *)
Lemma call_findUnique_stored db call :
  unique_callSid db -> In call (calls db) ->
  call_findUnique (Call.callSid call) db = Some call.
Proof.
  unfold unique_callSid, call_findUnique.
  induction (calls db) as [|c cs IH]; intros Hnd Hin; [destruct Hin|].
  simpl in *. inversion Hnd as [|x xs Hnotin Hnd']; subst.
  destruct Hin as [->|Hin].
  - now rewrite String.eqb_refl.
  - destruct (String.eqb_spec (Call.callSid c) (Call.callSid call)) as [Heq|_].
    + exfalso. apply Hnotin. rewrite Heq. apply list_elem_of_In, in_map, Hin.
    + apply IH; assumption.
Qed.

(** C10. For a stored call and a requesting user, [getTranscript] resolves
    to a transcript only when the call's owner is the requester, and then
    to the call's own transcript; for any other user it resolves to [null],
    as it does for a call SID that is not stored. *)
Theorem transcript_isolation (db : DB) (call : Call.t) (userId : string) :
  unique_callSid db ->
  In call (calls db) ->
  (fst (getTranscript (Call.callSid call) userId db) <> None -> Call.userId call = userId) /\
  (Call.userId call = userId ->
   fst (getTranscript (Call.callSid call) userId db)
   = Some (callToTranscript call (include_messages call db))) /\
  (Call.userId call <> userId ->
   fst (getTranscript (Call.callSid call) userId db) = None) /\
  (forall absent,
     (forall c, In c (calls db) -> Call.callSid c <> absent) ->
     fst (getTranscript absent userId db) = None).
Proof.
  intros Hunique Hin.
  unfold getTranscript. rewrite (call_findUnique_stored db call Hunique Hin).
  destruct (String.eqb_spec (Call.userId call) userId) as [Heq|Hne]; simpl.
  - repeat split; try congruence.
    intros absent Habsent. now rewrite (call_findUnique_None absent db Habsent).
  - repeat split; try congruence.
    intros absent Habsent. now rewrite (call_findUnique_None absent db Habsent).
Qed.

(** Without any assumption on the rows: a transcript handed out belongs
    to a stored call of the requester. *)
Lemma getTranscript_owner callSid userId db tr :
  fst (getTranscript callSid userId db) = Some tr ->
  exists call,
    In call (calls db) /\ Call.callSid call = callSid /\ Call.userId call = userId /\
    tr = callToTranscript call (include_messages call db).
Proof.
  unfold getTranscript.
  destruct (call_findUnique callSid db) as [call|] eqn:Hfind; [|discriminate].
  apply call_findUnique_Some in Hfind as [Hin Hsid].
  destruct (String.eqb_spec (Call.userId call) userId) as [Heq|Hne]; simpl; [|discriminate].
  intros [= <-]. exists call. auto.
Qed.

(** The refusal is logged on the server and nowhere else. *)
Lemma getTranscript_refusal_logged db call userId :
  unique_callSid db -> In call (calls db) -> Call.userId call <> userId ->
  getTranscript (Call.callSid call) userId db
  = (None, [access_denied_line userId (Call.callSid call) (Call.userId call)]).
Proof.
  intros Hunique Hin Hne. unfold getTranscript.
  rewrite (call_findUnique_stored db call Hunique Hin).
  now destruct (String.eqb_spec (Call.userId call) userId).
Qed.

Example alice_reads_her_call :
  fst (getTranscript "CA1" "alice" alice_db)
  = Some (mkCallTranscript "CA1" "+15550001" "+15550002" (Some "book a table") 1000 None
            "in_progress"
            [mkTranscriptMessage "user" "hello" 1001;
             mkTranscriptMessage "assistant" "hi there" 1002]).
Proof. reflexivity. Qed.

End CallPersistenceFacts.

(** ** The event processor, whatever its callbacks *)

Lemma strict_eq_true (v : Value) (k : string) : strict_eq v k = true <-> v = Some k.
Proof.
  destruct v as [s|]; simpl; [|split; discriminate].
  rewrite String.eqb_eq. split; congruence.
Qed.

Lemma strict_eq_false (v : Value) (k : string) : strict_eq v k = false <-> v <> Some k.
Proof.
  rewrite <- strict_eq_true. destruct (strict_eq v k); split; congruence.
Qed.

Lemma truthy_Some (s : string) : s <> "" -> truthy (Some s) = true.
Proof. intros H. simpl. now apply negb_true_iff, String.eqb_neq. Qed.

Section EventProcessor.

Variable checkForGoodbye : string -> bool.
Variables (onEndCall : M unit) (onSendAudioToTwilio : string -> M unit)
          (onTruncateResponse : M unit).

Local Abbreviation processEvent' :=
  (processEvent checkForGoodbye onEndCall onSendAudioToTwilio onTruncateResponse).
Local Abbreviation processMessage' :=
  (processMessage checkForGoodbye onEndCall onSendAudioToTwilio onTruncateResponse).
Local Abbreviation processMessages' :=
  (processMessages checkForGoodbye onEndCall onSendAudioToTwilio onTruncateResponse).

(** [processEvent] on an event of a transcript kind is the handler of
    that role. *)
Lemma processEvent_transcript (r : Role) (ev : Event) (w : World) :
  type ev = Some (transcript_kind r) ->
  processEvent' (Some ev) w
  = handleTranscript checkForGoodbye onEndCall r (transcript ev) w.
Proof.
  intros Hty. unfold processEvent, properties, mbind, M_bind, bind, ret.
  rewrite Hty. destruct r; reflexivity.
Qed.

(** A transcript event with a non-empty line: the line is appended, the
    write is dispatched if the call has a SID, and then the line is
    checked; on a match [onEndCall] runs. *)
Lemma transcript_event_runs (r : Role) (ev : Event) (text : string) (w : World) :
  type ev = Some (transcript_kind r) ->
  transcript ev = Some text ->
  text <> "" ->
  let sid := callSid (callState w) in
  let w0 :=
    set_callState
      (set_conversationHistory
         (conversationHistory (callState w) ++ [mkMessage r text]) (callState w)) w in
  let w1 :=
    if truthy_string sid then set_inFlight (inFlight w ++ [AddMessage sid r text]) w0
    else w0 in
  processEvent' (Some ev) w = (if checkForGoodbye text then onEndCall w1 else (Normal tt, w1)).
Proof.
  intros Hty Htr Htext. simpl.
  rewrite (processEvent_transcript r ev w Hty), Htr.
  destruct r; unfold handleTranscript; unfold_stmt; rewrite (truthy_Some text Htext); simpl;
    destruct (truthy_string (callSid (callState w))); simpl;
    destruct (checkForGoodbye text); reflexivity.
Qed.

(** C6. Processing a message never throws to the caller. A message that
    fails to decode, or decodes to [null], is logged and nothing else
    changes; an event of a kind the processor does not know changes nothing
    at all: no callback runs, so no socket is closed and the call state is
    as it was. *)
Theorem processMessage_never_throws (data : WebSocketData) (w : World) :
  completion (processMessage' data w) = Normal tt /\
  (forall e, parsed data = ParseThrows e ->
     final (processMessage' data w)
     = set_console (console w ++ [ErrorProcessingMessage e (toString data)]) w) /\
  (parsed data = ParsedNull ->
     final (processMessage' data w)
     = set_console
         (console w ++
          [ErrorProcessingMessage (TypeError "Cannot read properties of null") (toString data)])
         w) /\
  (forall ev, parsed data = ParsedValue ev -> unknown_kind (type ev) ->
     final (processMessage' data w) = w).
Proof.
  split; [|split; [|split]].
  - unfold processMessage, try_catch, completion.
    match goal with
    | |- context [match ?body w with (_, _) => _ end] =>
        destruct (body w) as [[[]|e] w']; reflexivity
    end.
  - intros e He. unfold_stmt. now rewrite He.
  - intros Hnull. unfold_stmt. now rewrite Hnull.
  - intros ev Hev (H1 & H2 & H3 & H4).
    apply strict_eq_false in H1, H2, H3, H4.
    unfold transcription_completed, audio_transcript_done, audio_delta, speech_started in *.
    unfold_stmt. rewrite Hev. simpl. now rewrite H1, H2, H3, H4.
Qed.

(** A message changes the call state as its event does, and a message
    without an event does not change it. *)
Lemma processMessage_callState (data : WebSocketData) (w : World) :
  callState (final (processMessage' data w))
  = match parsed data with
    | ParsedValue ev => callState (final (processEvent' (Some ev) w))
    | _ => callState w
    end.
Proof.
  unfold processMessage, try_catch, JSON_parse, mbind, M_bind, bind, final.
  destruct (parsed data) as [e| |ev]; simpl; try reflexivity.
  destruct (processEvent _ _ _ _ (Some ev) w) as [[[]|e] w']; reflexivity.
Qed.

(** C8. A transcript event of either role with a non-empty line appends
    the line to the conversation history and then checks it against the
    termination-phrase policy: on a match the end-call callback runs, and
    otherwise it does not. *)
Theorem transcript_lines_checked_for_goodbye
    (r : Role) (ev : Event) (text : string) (w : World) :
  type ev = Some (transcript_kind r) ->
  transcript ev = Some text ->
  text <> "" ->
  exists w1,
    conversationHistory (callState w1)
    = conversationHistory (callState w) ++ [mkMessage r text] /\
    processEvent' (Some ev) w
    = (if checkForGoodbye text then onEndCall w1 else (Normal tt, w1)).
Proof.
  intros Hty Htr Htext.
  pose proof (transcript_event_runs r ev text w Hty Htr Htext) as Hrun. simpl in Hrun.
  eexists. split; [|exact Hrun].
  destruct (truthy_string (callSid (callState w))); reflexivity.
Qed.

(** C9. A transcript append dispatches its persistence write and goes on
    without the outcome: when the line is checked for goodbye the line is
    in the history, the write is in flight and nothing has been logged.
    When the write settles later, resolved or rejected, the settling never
    throws and touches neither the call state nor the sockets; a rejection
    adds one line to the console and nothing else. *)
Theorem persistence_is_fire_and_forget
    (r : Role) (ev : Event) (text : string) (w : World) :
  type ev = Some (transcript_kind r) ->
  transcript ev = Some text ->
  text <> "" ->
  (exists w1,
     conversationHistory (callState w1)
     = conversationHistory (callState w) ++ [mkMessage r text] /\
     inFlight w1
     = inFlight w ++
       (if truthy_string (callSid (callState w))
        then [AddMessage (callSid (callState w)) r text] else []) /\
     console w1 = console w /\
     processEvent' (Some ev) w
     = (if checkForGoodbye text then onEndCall w1 else (Normal tt, w1))) /\
  (forall (i : nat) (outcome : option Exn) (w' : World),
     let res := settle i outcome w' in
     completion res = Normal tt /\
     callState (final res) = callState w' /\
     toModel (final res) = toModel w' /\
     toCarrier (final res) = toCarrier w' /\
     socketsOpen (final res) = socketsOpen w' /\
     ended (final res) = ended w' /\
     console (final res)
     = console w' ++
       match inFlight w' !! i, outcome with
       | Some req, Some err => [rejection_line req err]
       | _, _ => []
       end).
Proof.
  intros Hty Htr Htext. split.
  - pose proof (transcript_event_runs r ev text w Hty Htr Htext) as Hrun. simpl in Hrun.
    eexists. split; [|split; [|split; [|exact Hrun]]];
      destruct (truthy_string (callSid (callState w))); simpl;
      try reflexivity; now rewrite app_nil_r.
  - intros i outcome w'. unfold settle, on_rejected, console_error, completion, final.
    destruct (inFlight w' !! i) as [req|]; simpl.
    + destruct outcome as [err|]; simpl; [destruct req|]; simpl;
        rewrite ?app_nil_r; repeat split; reflexivity.
    + rewrite app_nil_r. repeat split; reflexivity.
Qed.

End EventProcessor.

(** ** The conversation history only grows *)

Section HistoryAppendOnly.

Variable checkForGoodbye : string -> bool.
Variables (onEndCall : M unit) (onSendAudioToTwilio : string -> M unit)
          (onTruncateResponse : M unit).

Hypothesis endCall_keeps : keeps_history onEndCall.
Hypothesis sendAudio_keeps : forall p, keeps_history (onSendAudioToTwilio p).
Hypothesis truncate_keeps : keeps_history onTruncateResponse.

Local Abbreviation history w := (conversationHistory (callState w)).

Lemma handleTranscript_history (r : Role) (v : Value) (w : World) :
  grows_by_at_most_one (history w)
    (history (final (handleTranscript checkForGoodbye onEndCall r v w))).
Proof.
  destruct r; unfold handleTranscript; unfold_stmt;
    (destruct (truthy v); simpl; [|constructor]);
    destruct (truthy_string (callSid (callState w))); simpl;
    (destruct (checkForGoodbye (default "" v)); simpl; [|constructor]);
    match goal with
    | |- context [onEndCall ?w1] =>
        pose proof (endCall_keeps w1) as Hk; unfold final in Hk;
        destruct (onEndCall w1) as [[[]|e] w']; simpl in *; rewrite Hk; constructor
    end.
Qed.

Lemma handleAudioDelta_history (ev : Event) (w : World) :
  history (final (handleAudioDelta onSendAudioToTwilio ev w)) = history w.
Proof.
  unfold_stmt.
  pose proof (sendAudio_keeps (default "" (delta ev)) w) as Hk. unfold final in Hk.
  destruct (onSendAudioToTwilio (default "" (delta ev)) w) as [[[]|e] w1]; simpl in *;
    [|exact Hk].
  destruct (not_number (responseStartTimestampTwilio (callState w1)));
    destruct (truthy (item_id ev)); simpl; exact Hk.
Qed.

Lemma processEvent_history (response : option Event) (w : World) :
  grows_by_at_most_one (history w)
    (history (final (processEvent checkForGoodbye onEndCall onSendAudioToTwilio
                       onTruncateResponse response w))).
Proof.
  destruct response as [ev|]; [|constructor].
  unfold processEvent, properties, mbind, M_bind, bind, ret. simpl.
  destruct (strict_eq (type ev) _); [apply (handleTranscript_history user)|].
  destruct (strict_eq (type ev) _); [apply (handleTranscript_history assistant)|].
  destruct (strict_eq (type ev) _).
  { unfold when. destruct (truthy (delta ev)); [|constructor].
    rewrite handleAudioDelta_history. constructor. }
  destruct (strict_eq (type ev) _); [rewrite truncate_keeps|]; constructor.
Qed.

(** C7. The conversation history is append-only: a message leaves it as
    it was or adds one entry at its end, and after any sequence of
    messages the earlier history is a prefix of the later one; this holds
    when the session's three callbacks leave the history alone. *)
Theorem conversationHistory_append_only :
  (forall data w,
     let h := history w in
     let h' := history (final (processMessage checkForGoodbye onEndCall
                                 onSendAudioToTwilio onTruncateResponse data w)) in
     h' = h \/ exists m, h' = h ++ [m]) /\
  (forall ds w,
     exists added,
       history (processMessages checkForGoodbye onEndCall onSendAudioToTwilio
                  onTruncateResponse ds w)
       = history w ++ added).
Proof.
  assert (Hone : forall data w,
    grows_by_at_most_one (history w)
      (history (final (processMessage checkForGoodbye onEndCall
                         onSendAudioToTwilio onTruncateResponse data w)))).
  { intros data w. rewrite processMessage_callState.
    destruct (parsed data) as [e| |ev]; try constructor.
    apply processEvent_history. }
  split.
  - intros data w. simpl. destruct (Hone data w) as [|m]; [left|right; exists m]; reflexivity.
  - induction ds as [|d ds IH]; intros w; simpl.
    + exists []. now rewrite app_nil_r.
    + destruct (IH (final (processMessage checkForGoodbye onEndCall
                             onSendAudioToTwilio onTruncateResponse d w))) as [added Hadded].
      rewrite Hadded.
      pose proof (Hone d w) as Hg. inversion Hg as [Hsame|m Hm].
      * exists added. reflexivity.
      * exists (m :: added). now rewrite <- app_assoc.
Qed.

End HistoryAppendOnly.

(** ** The session's callbacks meet what the event processor asks of them *)

Module CallSessionFacts.
Import CallSession.

Lemma endCall_keeps_history : keeps_history endCall.
Proof. intros w. unfold_stmt. now destruct (ended w). Qed.

Lemma sendAudio_keeps_history (p : string) : keeps_history (sendAudio p).
Proof. intros w. reflexivity. Qed.

Lemma truncateActiveResponse_keeps_history : keeps_history truncateActiveResponse.
Proof. intros w. unfold_stmt. now destruct (lastAssistantItemId (callState w)). Qed.

Lemma endCall_started : preserves item_only_while_started endCall.
Proof. intros w Hw. unfold_stmt. now destruct (ended w). Qed.

Lemma sendAudio_started (p : string) : preserves item_only_while_started (sendAudio p).
Proof. intros w Hw. exact Hw. Qed.

Lemma truncateActiveResponse_started :
  preserves item_only_while_started truncateActiveResponse.
Proof.
  intros w Hw. unfold_stmt.
  destruct (lastAssistantItemId (callState w)) eqn:Hitem; simpl; [|exact Hw].
  intros [x Hx]. discriminate Hx.
Qed.

Lemma endCall_set_together : preserves set_together endCall.
Proof. intros w Hw. unfold_stmt. now destruct (ended w). Qed.

Lemma sendAudio_set_together (p : string) : preserves set_together (sendAudio p).
Proof. intros w Hw. exact Hw. Qed.

Lemma truncateActiveResponse_set_together : preserves set_together truncateActiveResponse.
Proof.
  intros w Hw. unfold_stmt.
  destruct (lastAssistantItemId (callState w)) eqn:Hitem; simpl; [|exact Hw].
  split; intros [x Hx]; discriminate Hx.
Qed.

End CallSessionFacts.

(** ** The statements at sample calls *)

Lemma item_only_while_response_started_witness :
  let w :=
    processMessages says_goodbye CallSession.endCall CallSession.sendAudio
      CallSession.truncateActiveResponse
      [delta_abc; assistant_says "hello"; delta_without_item] (call_at 40 None None) in
  (lastAssistantItemId (callState w) = Some "abc" /\
   item_only_while_started (callState w) /\
   responseStartTimestampTwilio (callState w) = Some 40) /\
  set_together
    (callState (final (CallSession.onModelMessage says_goodbye delta_abc
                         (call_at 40 None None)))) /\
  ~ set_together
      (callState (final (CallSession.onModelMessage says_goodbye delta_without_item
                           (call_at 40 None None)))).
Proof.
  pose proof (item_only_while_response_started says_goodbye
                CallSession.endCall CallSession.sendAudio CallSession.truncateActiveResponse
                CallSessionFacts.endCall_started CallSessionFacts.sendAudio_started
                CallSessionFacts.truncateActiveResponse_started
                CallSessionFacts.endCall_set_together
                CallSessionFacts.sendAudio_set_together
                CallSessionFacts.truncateActiveResponse_set_together)
    as (_ & Hseq & Htogether & Hwithout).
  cbv zeta. split; [split; [reflexivity|split; [|reflexivity]]|split].
  - apply Hseq. intros [x Hx]. discriminate Hx.
  - apply (Htogether delta_abc).
    + intros ev [= <-]. reflexivity.
    + split; intros [x Hx]; discriminate Hx.
  - apply (Hwithout "{delta}" (mkEvent (Some audio_delta) None (Some "AAAA") None)
             (call_at 40 None None)
             (final (CallSession.sendAudio "AAAA" (call_at 40 None None))));
      reflexivity.
Defined.

Lemma processMessage_never_throws_witness :
  final (CallSession.onModelMessage says_goodbye malformed (call_at 40 (Some 20) (Some "abc")))
  = set_console
      [ErrorProcessingMessage (SyntaxError "Unexpected end of JSON input") "{type: "]
      (call_at 40 (Some 20) (Some "abc"))
  /\ final (CallSession.onModelMessage says_goodbye session_created
              (call_at 40 (Some 20) (Some "abc")))
     = call_at 40 (Some 20) (Some "abc").
Proof.
  pose proof (processMessage_never_throws says_goodbye
                CallSession.endCall CallSession.sendAudio CallSession.truncateActiveResponse)
    as H.
  split.
  - exact (proj1 (proj2 (H malformed (call_at 40 (Some 20) (Some "abc")))) _ eq_refl).
  - apply (proj2 (proj2 (proj2 (H session_created (call_at 40 (Some 20) (Some "abc"))))) _ eq_refl).
    repeat split; discriminate.
Defined.

Lemma conversationHistory_append_only_witness :
  exists added,
    conversationHistory
      (callState (processMessages says_goodbye
                    CallSession.endCall CallSession.sendAudio CallSession.truncateActiveResponse
                    [user_says "hello"; delta_abc; malformed; assistant_says "goodbye"]
                    (call_at 0 None None)))
    = conversationHistory (callState (call_at 0 None None)) ++ added.
Proof.
  apply (proj2 (conversationHistory_append_only says_goodbye
                  CallSession.endCall CallSession.sendAudio CallSession.truncateActiveResponse
                  CallSessionFacts.endCall_keeps_history
                  CallSessionFacts.sendAudio_keeps_history
                  CallSessionFacts.truncateActiveResponse_keeps_history)).
Defined.

Lemma transcript_lines_checked_for_goodbye_witness :
  exists w1,
    conversationHistory (callState w1) = [mkMessage assistant "goodbye"] /\
    processEvent says_goodbye
      CallSession.endCall CallSession.sendAudio CallSession.truncateActiveResponse
      (Some (mkEvent (Some audio_transcript_done) (Some "goodbye") None None))
      (call_at 40 None None)
    = CallSession.endCall w1.
Proof.
  apply (transcript_lines_checked_for_goodbye says_goodbye
           CallSession.endCall CallSession.sendAudio CallSession.truncateActiveResponse
           assistant (mkEvent (Some audio_transcript_done) (Some "goodbye") None None)
           "goodbye" (call_at 40 None None)); [reflexivity|reflexivity|discriminate].
Defined.

Lemma persistence_is_fire_and_forget_witness :
  let w := final (CallSession.onModelMessage says_goodbye (user_says "hello")
                    (call_at 40 None None)) in
  let res := settle 0 (Some (Error "connection lost")) w in
  completion res = Normal tt /\
  callState (final res) = callState w /\
  toModel (final res) = toModel w /\
  toCarrier (final res) = toCarrier w /\
  socketsOpen (final res) = socketsOpen w /\
  ended (final res) = ended w /\
  console (final res) = [FailedToSaveMessage user (Error "connection lost")].
Proof.
  exact (proj2 (persistence_is_fire_and_forget says_goodbye
                  CallSession.endCall CallSession.sendAudio CallSession.truncateActiveResponse
                  user (mkEvent (Some transcription_completed) (Some "hello") None None)
                  "hello" (call_at 40 None None) eq_refl eq_refl ltac:(discriminate))
           0%nat (Some (Error "connection lost"))
           (final (CallSession.onModelMessage says_goodbye (user_says "hello")
                     (call_at 40 None None)))).
Defined.

Lemma transcript_isolation_witness :
  fst (CallPersistenceService.getTranscript "CA1" "mallory" alice_db) = None /\
  fst (CallPersistenceService.getTranscript "CA9" "mallory" alice_db) = None.
Proof.
  assert (Hunique : Prisma.unique_callSid alice_db).
  { unfold Prisma.unique_callSid. simpl. constructor; [apply not_elem_of_nil|constructor]. }
  assert (Hin : In alice_call (Prisma.calls alice_db)) by (left; reflexivity).
  pose proof (CallPersistenceFacts.transcript_isolation alice_db alice_call "mallory"
                Hunique Hin) as (_ & _ & Hother & Habsent).
  split.
  - apply Hother. discriminate.
  - apply Habsent. intros c [<-|[]]. discriminate.
Defined.

(** ** The scenario of the specification *)

Example scenario_barge_in (checkForGoodbye : string -> bool) :
  let '(w1, w2, w4) := scenario checkForGoodbye in
  responseStartTimestampTwilio (callState w1) = None /\
  responseStartTimestampTwilio (callState w2) = Some 40 /\
  lastAssistantItemId (callState w2) = Some "abc" /\
  truncations (toModel w4) = [Truncate "abc" 220] /\
  toCarrier w4 = [MediaFrame "MZ1" "AAAA"; ClearFrame "MZ1"] /\
  responseStartTimestampTwilio (callState w4) = None /\
  lastAssistantItemId (callState w4) = None.
Proof. repeat split; reflexivity. Qed.

(** ** A goodbye whose write fails

    The caller says goodbye; the line is stored in the history, the write
    and the end-of-call notice are in flight and the call has ended before
    either settles. The write then rejects: one line on the console, and
    the call is as it was. *)

Example goodbye_with_failing_write :
  let w1 := final (CallSession.onModelMessage says_goodbye (user_says "goodbye")
                     (call_at 40 None None)) in
  let w2 := final (settle 0 (Some (Error "connection lost")) w1) in
  conversationHistory (callState w1) = [mkMessage user "goodbye"] /\
  inFlight w1 = [AddMessage "CA1" user "goodbye"; EndCall "CA1"] /\
  ended w1 = true /\ socketsOpen w1 = false /\ console w1 = [] /\
  callState w2 = callState w1 /\ ended w2 = true /\
  inFlight w2 = [EndCall "CA1"] /\
  console w2 = [FailedToSaveMessage user (Error "connection lost")].
Proof. repeat split; reflexivity. Qed.

(** * Further properties of the event processor *)

Lemma truthy_true (v : Value) : truthy v = true -> exists s, v = Some s /\ s <> "".
Proof.
  destruct v as [s|]; simpl; [|discriminate].
  intros H. exists s. split; [reflexivity|].
  now apply String.eqb_neq, negb_true_iff.
Qed.

Section MessageSequences.

Variable checkForGoodbye : string -> bool.
Variables (onEndCall : M unit) (onSendAudioToTwilio : string -> M unit)
          (onTruncateResponse : M unit).

Local Abbreviation processEvent' :=
  (processEvent checkForGoodbye onEndCall onSendAudioToTwilio onTruncateResponse).
Local Abbreviation processMessage' :=
  (processMessage checkForGoodbye onEndCall onSendAudioToTwilio onTruncateResponse).
Local Abbreviation processMessages' :=
  (processMessages checkForGoodbye onEndCall onSendAudioToTwilio onTruncateResponse).

(** A message leaves the world as its event does, up to the console. *)
Lemma processMessage_final (data : WebSocketData) (w : World) :
  exists logged,
    final (processMessage' data w)
    = let w0 := match parsed data with
                | ParsedValue ev => final (processEvent' (Some ev) w)
                | _ => w
                end in
      set_console (console w0 ++ logged) w0.
Proof.
  unfold processMessage, try_catch, JSON_parse, mbind, M_bind, bind, final.
  destruct (parsed data) as [e| |ev]; simpl.
  - eexists. reflexivity.
  - eexists. reflexivity.
  - destruct (processEvent _ _ _ _ (Some ev) w) as [[[]|e] w']; simpl.
    + exists []. rewrite app_nil_r. now destruct w'.
    + eexists. reflexivity.
Qed.

(** X1. A transcript event whose transcript is missing or empty, and an
    audio delta whose payload is missing or empty, are dropped whole: no
    callback runs and nothing changes. *)
Theorem empty_events_are_dropped (data : WebSocketData) (ev : Event) (w : World) :
  parsed data = ParsedValue ev ->
  carries_nothing ev ->
  processMessage' data w = (Normal tt, w).
Proof.
  intros Hev Hnothing.
  unfold processMessage, processEvent, try_catch, JSON_parse, properties,
    mbind, M_bind, bind, ret.
  rewrite Hev. simpl.
  destruct Hnothing as [[[Hty|Hty] Hempty]|[Hty Hempty]]; rewrite Hty; simpl.
  - unfold handleTranscriptionCompleted. now rewrite Hempty.
  - unfold handleAudioTranscriptDone. now rewrite Hempty.
  - now rewrite Hempty.
Qed.

Section History.

Hypothesis endCall_keeps : keeps_history onEndCall.
Hypothesis sendAudio_keeps : forall p, keeps_history (onSendAudioToTwilio p).
Hypothesis truncate_keeps : keeps_history onTruncateResponse.

Local Abbreviation history w := (conversationHistory (callState w)).

Lemma processEvent_line (ev : Event) (w : World) :
  history (final (processEvent' (Some ev) w)) = history w ++ event_line ev.
Proof.
  assert (Hline : forall r,
    history (final (handleTranscript checkForGoodbye onEndCall r (transcript ev) w))
    = history w ++
      (if truthy (transcript ev) then [mkMessage r (default "" (transcript ev))] else [])).
  { intros r. destruct r; unfold handleTranscript; unfold_stmt;
      (destruct (truthy (transcript ev)); simpl; [|now rewrite app_nil_r]);
      destruct (truthy_string (callSid (callState w))); simpl;
      (destruct (checkForGoodbye _); simpl; [|reflexivity]);
      match goal with
      | |- context [onEndCall ?w1] =>
          pose proof (endCall_keeps w1) as Hk; unfold final in Hk;
          destruct (onEndCall w1) as [[[]|e] w']; simpl in *; exact Hk
      end. }
  unfold event_line, transcription_completed, audio_transcript_done.
  unfold processEvent, properties, mbind, M_bind, bind, ret. simpl.
  destruct (strict_eq (type ev) "conversation.item.input_audio_transcription.completed");
    [exact (Hline user)|].
  destruct (strict_eq (type ev) "response.audio_transcript.done");
    [exact (Hline assistant)|].
  rewrite app_nil_r.
  destruct (strict_eq (type ev) "response.audio.delta").
  { unfold when. destruct (truthy (delta ev)); [|reflexivity].
    apply (handleAudioDelta_history onSendAudioToTwilio sendAudio_keeps). }
  destruct (strict_eq (type ev) "input_audio_buffer.speech_started");
    [apply truncate_keeps|reflexivity].
Qed.

(** X2. After any sequence of messages the conversation history is the
    earlier history followed by the non-empty transcript lines of the
    sequence, caller and assistant lines alike, in the order of arrival;
    this holds when the callbacks leave the history alone. *)
Theorem history_is_the_lines_in_order (ds : list WebSocketData) (w : World) :
  history (processMessages' ds w) = history w ++ transcript_lines ds.
Proof.
  revert w. induction ds as [|d ds IH]; intros w; simpl.
  - now rewrite app_nil_r.
  - rewrite IH. destruct (processMessage_final d w) as [logged ->]. simpl.
    unfold transcript_lines. simpl. fold (transcript_lines ds).
    rewrite app_assoc. f_equal.
    unfold transcript_line. destruct (parsed d) as [e| |ev]; simpl;
      rewrite ?app_nil_r; try reflexivity.
    apply processEvent_line.
Qed.

End History.

Section Writes.

Hypothesis endCall_alone : leaves_transcript_alone onEndCall.
Hypothesis sendAudio_alone : forall p, leaves_transcript_alone (onSendAudioToTwilio p).
Hypothesis truncate_alone : leaves_transcript_alone onTruncateResponse.

(** The writes a list of lines asks for, when the call has a SID. *)
Local Abbreviation writes_for sid lines :=
  (if truthy_string sid then map (write_of sid) lines else []).

Lemma writes_dispatch (r : SinkRequest) (w : World) :
  writes (set_inFlight (inFlight w ++ [r]) w) = writes w ++ (if is_write r then [r] else []).
Proof. unfold writes. simpl. now rewrite List.filter_app. Qed.

Lemma handleTranscript_writes (r : Role) (v : Value) (w : World) :
  let w' := final (handleTranscript checkForGoodbye onEndCall r v w) in
  callSid (callState w') = callSid (callState w) /\
  writes w'
  = writes w ++
    writes_for (callSid (callState w))
      (if truthy v then [mkMessage r (default "" v)] else []).
Proof.
  cbv zeta.
  assert (Hend : forall w1 : World,
    callSid (callState (final (when (checkForGoodbye (default "" v)) onEndCall w1)))
    = callSid (callState w1) /\
    writes (final (when (checkForGoodbye (default "" v)) onEndCall w1)) = writes w1).
  { intros w1. unfold when. destruct (checkForGoodbye _); [|now split].
    destruct (endCall_alone w1) as (_ & Hsid & Hw). now split. }
  destruct r; unfold handleTranscript, handleTranscriptionCompleted, handleAudioTranscriptDone.
  all: destruct (truthy v); simpl;
    [|split; [reflexivity|destruct (truthy_string _); now rewrite app_nil_r]].
  all: unfold push_conversationHistory, update_callState, read_callState, dispatch,
         mbind, M_bind, bind; simpl.
  all: unfold when at 1.
  all: destruct (truthy_string (callSid (callState w))); simpl.
  all: match goal with
       | |- context [when _ onEndCall ?w1] =>
           destruct (Hend w1) as [Hsid Hw]; unfold final in Hsid, Hw |- *;
           destruct (when _ onEndCall w1) as [c w']; simpl in *;
           rewrite Hsid, Hw; split; [reflexivity|];
           unfold writes; simpl; rewrite ?List.filter_app, ?app_nil_r; reflexivity
       end.
Qed.

Lemma processEvent_writes (ev : Event) (w : World) :
  let w' := final (processEvent' (Some ev) w) in
  callSid (callState w') = callSid (callState w) /\
  writes w' = writes w ++ writes_for (callSid (callState w)) (event_line ev).
Proof.
  assert (Hnone : forall w', callSid (callState w') = callSid (callState w) ->
            writes w' = writes w ->
            callSid (callState w') = callSid (callState w) /\
            writes w' = writes w ++ writes_for (callSid (callState w)) []).
  { intros w' Hsid Hw. split; [exact Hsid|].
    rewrite Hw. destruct (truthy_string _); now rewrite app_nil_r. }
  unfold event_line, transcription_completed, audio_transcript_done.
  unfold processEvent, properties, mbind, M_bind, bind, ret. simpl.
  destruct (strict_eq (type ev) "conversation.item.input_audio_transcription.completed");
    [exact (handleTranscript_writes user (transcript ev) w)|].
  destruct (strict_eq (type ev) "response.audio_transcript.done");
    [exact (handleTranscript_writes assistant (transcript ev) w)|].
  destruct (strict_eq (type ev) "response.audio.delta").
  { unfold when. destruct (truthy (delta ev)); [|apply Hnone; reflexivity].
    unfold_stmt.
    destruct (sendAudio_alone (default "" (delta ev)) w) as (_ & Hsid & Hw).
    unfold final in Hsid, Hw.
    destruct (onSendAudioToTwilio (default "" (delta ev)) w) as [[[]|e] w1]; simpl in *;
      [|apply Hnone; assumption].
    destruct (not_number (responseStartTimestampTwilio (callState w1)));
      destruct (truthy (item_id ev)); simpl;
      match goal with
      | |- _ /\ writes ?X = _ => apply (Hnone X); [exact Hsid|exact Hw]
      end. }
  destruct (strict_eq (type ev) "input_audio_buffer.speech_started");
    [|apply Hnone; reflexivity].
  destruct (truncate_alone w) as (_ & Hsid & Hw). apply Hnone; assumption.
Qed.

(** X3. One write per line: over any sequence of messages, the
    [addMessage] requests dispatched are the non-empty transcript lines of
    the sequence, in the order of arrival, each for the call's SID; a call
    without a SID dispatches none. This holds when the callbacks leave
    history, SID and writes alone. *)
Theorem writes_mirror_the_lines (ds : list WebSocketData) (w : World) :
  callSid (callState (processMessages' ds w)) = callSid (callState w) /\
  writes (processMessages' ds w)
  = writes w ++ writes_for (callSid (callState w)) (transcript_lines ds).
Proof.
  assert (Hstep : forall d w,
    callSid (callState (final (processMessage' d w))) = callSid (callState w) /\
    writes (final (processMessage' d w))
    = writes w ++ writes_for (callSid (callState w)) (transcript_line d)).
  { intros d w0. destruct (processMessage_final d w0) as [logged ->].
    unfold transcript_line. destruct (parsed d) as [e| |ev].
    - split; [reflexivity|]. unfold writes. simpl.
      destruct (truthy_string _); now rewrite app_nil_r.
    - split; [reflexivity|]. unfold writes. simpl.
      destruct (truthy_string _); now rewrite app_nil_r.
    - exact (processEvent_writes ev w0). }
  revert w. induction ds as [|d ds IH]; intros w; simpl.
  - split; [reflexivity|]. destruct (truthy_string _); now rewrite app_nil_r.
  - destruct (IH (final (processMessage' d w))) as [Hsid Hw].
    destruct (Hstep d w) as [Hsid1 Hw1].
    rewrite Hsid, Hw, Hsid1, Hw1. split; [reflexivity|].
    unfold transcript_lines. simpl. fold (transcript_lines ds).
    destruct (truthy_string (callSid (callState w)));
      now rewrite ?map_app, ?app_nil_r, ?app_assoc.
Qed.

End Writes.

Section Stamp.

Hypothesis endCall_keeps_stamp : keeps_stamp onEndCall.
Hypothesis sendAudio_keeps_stamp : forall p, keeps_stamp (onSendAudioToTwilio p).

Local Abbreviation stamp w := (responseStartTimestampTwilio (callState w)).

Lemma processMessage_keeps_nonzero_stamp (d : WebSocketData) (w : World) (t : Z) :
  is_speech_started d = false ->
  stamp w = Some t -> t <> 0 ->
  stamp (final (processMessage' d w)) = Some t.
Proof.
  intros Hd Hstamp Ht. apply Z.eqb_neq in Ht.
  destruct (processMessage_final d w) as [logged ->]. simpl.
  unfold is_speech_started, speech_started in Hd.
  destruct (parsed d) as [e| |ev]; simpl; try exact Hstamp.
  assert (Hline : forall r,
    stamp (final (handleTranscript checkForGoodbye onEndCall r (transcript ev) w)) = Some t).
  { intros r. destruct r; unfold handleTranscript; unfold_stmt;
      (destruct (truthy (transcript ev)); simpl; [|exact Hstamp]);
      destruct (truthy_string (callSid (callState w))); simpl;
      (destruct (checkForGoodbye _); simpl; [|exact Hstamp]);
      match goal with
      | |- context [onEndCall ?w1] =>
          pose proof (endCall_keeps_stamp w1) as Hk; unfold final in Hk;
          destruct (onEndCall w1) as [[[]|e] w']; simpl in *; now rewrite Hk
      end. }
  unfold processEvent, properties, mbind, M_bind, bind, ret. simpl.
  destruct (strict_eq (type ev) "conversation.item.input_audio_transcription.completed");
    [exact (Hline user)|].
  destruct (strict_eq (type ev) "response.audio_transcript.done");
    [exact (Hline assistant)|].
  destruct (strict_eq (type ev) "response.audio.delta").
  { unfold when. destruct (truthy (delta ev)); [|exact Hstamp].
    unfold_stmt.
    pose proof (sendAudio_keeps_stamp (default "" (delta ev)) w) as Hk. unfold final in Hk.
    destruct (onSendAudioToTwilio (default "" (delta ev)) w) as [[[]|e] w1]; simpl in *;
      rewrite Hstamp in Hk; [|exact Hk].
    rewrite Hk. simpl. rewrite Ht. simpl.
    destruct (truthy (item_id ev)); simpl; exact Hk. }
  rewrite Hd. exact Hstamp.
Qed.

(** X4. Once a response carries a start timestamp other than 0, no
    message changes it until the caller starts to speak: transcripts,
    further audio deltas, unknown and malformed messages all leave it as it
    is, when the end-call and send-audio callbacks do. *)
Theorem nonzero_stamp_lasts_until_speech (ds : list WebSocketData) (w : World) (t : Z) :
  Forall (fun d => is_speech_started d = false) ds ->
  stamp w = Some t -> t <> 0 ->
  stamp (processMessages' ds w) = Some t.
Proof.
  intros Hds. revert w. induction Hds as [|d ds Hd Hds IH]; intros w Hstamp Ht; simpl.
  - exact Hstamp.
  - apply IH; [|exact Ht]. now apply processMessage_keeps_nonzero_stamp.
Qed.

End Stamp.

End MessageSequences.

Module CallSessionFrames.
Import CallSession.

Lemma endCall_alone : leaves_transcript_alone endCall.
Proof.
  intros w. unfold_stmt. destruct (ended w); repeat split; try reflexivity.
  unfold writes. simpl. now rewrite List.filter_app, app_nil_r.
Qed.

Lemma sendAudio_alone (p : string) : leaves_transcript_alone (sendAudio p).
Proof. intros w. repeat split; reflexivity. Qed.

Lemma truncateActiveResponse_alone : leaves_transcript_alone truncateActiveResponse.
Proof.
  intros w. unfold_stmt.
  destruct (lastAssistantItemId (callState w)); repeat split; reflexivity.
Qed.

Lemma endCall_keeps_stamp : keeps_stamp endCall.
Proof. intros w. unfold_stmt. now destruct (ended w). Qed.

Lemma sendAudio_keeps_stamp (p : string) : keeps_stamp (sendAudio p).
Proof. intros w. reflexivity. Qed.

End CallSessionFrames.

Lemma empty_events_are_dropped_witness :
  CallSession.onModelMessage says_goodbye user_says_nothing (call_at 40 (Some 20) (Some "abc"))
  = (Normal tt, call_at 40 (Some 20) (Some "abc")) /\
  CallSession.onModelMessage says_goodbye empty_delta (call_at 40 None None)
  = (Normal tt, call_at 40 None None).
Proof.
  split.
  - apply (empty_events_are_dropped says_goodbye
             CallSession.endCall CallSession.sendAudio CallSession.truncateActiveResponse
             user_says_nothing _ _ eq_refl).
    left. split; [left|]; reflexivity.
  - apply (empty_events_are_dropped says_goodbye
             CallSession.endCall CallSession.sendAudio CallSession.truncateActiveResponse
             empty_delta _ _ eq_refl).
    right. split; reflexivity.
Defined.

Lemma history_is_the_lines_in_order_witness :
  conversationHistory
    (callState (processMessages says_goodbye
                  CallSession.endCall CallSession.sendAudio CallSession.truncateActiveResponse
                  [user_says "hello"; delta_abc; user_says_nothing; malformed;
                   assistant_says "goodbye"]
                  (call_at 0 None None)))
  = [mkMessage user "hello"; mkMessage assistant "goodbye"].
Proof.
  exact (history_is_the_lines_in_order says_goodbye
           CallSession.endCall CallSession.sendAudio CallSession.truncateActiveResponse
           CallSessionFacts.endCall_keeps_history
           CallSessionFacts.sendAudio_keeps_history
           CallSessionFacts.truncateActiveResponse_keeps_history
           [user_says "hello"; delta_abc; user_says_nothing; malformed;
            assistant_says "goodbye"]
           (call_at 0 None None)).
Defined.

Lemma writes_mirror_the_lines_witness :
  writes (processMessages says_goodbye
            CallSession.endCall CallSession.sendAudio CallSession.truncateActiveResponse
            [user_says "hello"; delta_abc; speech_started_event; assistant_says "goodbye"]
            (call_at 0 None None))
  = [AddMessage "CA1" user "hello"; AddMessage "CA1" assistant "goodbye"].
Proof.
  exact (proj2 (writes_mirror_the_lines says_goodbye
                  CallSession.endCall CallSession.sendAudio CallSession.truncateActiveResponse
                  CallSessionFrames.endCall_alone
                  CallSessionFrames.sendAudio_alone
                  CallSessionFrames.truncateActiveResponse_alone
                  [user_says "hello"; delta_abc; speech_started_event;
                   assistant_says "goodbye"]
                  (call_at 0 None None))).
Defined.

Lemma nonzero_stamp_lasts_until_speech_witness :
  responseStartTimestampTwilio
    (callState (processMessages says_goodbye
                  CallSession.endCall CallSession.sendAudio CallSession.truncateActiveResponse
                  [delta_abc; user_says "hello"; delta_without_item; malformed]
                  (call_at 60 (Some 40) (Some "abc"))))
  = Some 40.
Proof.
  apply (nonzero_stamp_lasts_until_speech says_goodbye
           CallSession.endCall CallSession.sendAudio CallSession.truncateActiveResponse
           CallSessionFrames.endCall_keeps_stamp CallSessionFrames.sendAudio_keeps_stamp).
  - repeat constructor.
  - reflexivity.
  - discriminate.
Defined.

(** * Further properties of the transcript store *)

Module TranscriptStoreMore.
Import TranscriptStoreService TranscriptStoreOps TranscriptStoreFacts.

Lemma runs_snoc (os : list Op) (o : Op) (s : t) : runs (os ++ [o]) s = run o (runs os s).
Proof. unfold runs. now rewrite foldl_app. Qed.

Lemma getTranscript_run_other (id : string) (o : Op) (s : t) :
  target o <> id -> getTranscript id (run o s) = getTranscript id s.
Proof.
  intros Ho. destruct o as [sid from to ctx now|sid role content|sid now]; simpl in *.
  - unfold getTranscript, startCall. simpl. now rewrite lookup_insert_ne.
  - unfold getTranscript, addMessage.
    destruct (transcripts s !! sid); simpl; [|reflexivity].
    now rewrite lookup_insert_ne.
  - unfold getTranscript, endCall.
    destruct (transcripts s !! sid); simpl; [|reflexivity].
    now rewrite lookup_insert_ne.
Qed.

(** X5. Calls do not disturb one another: whatever is started, added or
    ended on other call SIDs, the transcript of a call is what it was. *)
Theorem other_calls_leave_transcript_alone (id : string) (os : list Op) (s : t) :
  leaves_alone id os ->
  getTranscript id (runs os s) = getTranscript id s.
Proof.
  intros Hos. revert s. induction Hos as [|o os Ho Hos IH]; intros s; [reflexivity|].
  change (runs (o :: os) s) with (runs os (run o s)).
  rewrite IH. now apply getTranscript_run_other.
Qed.

(** One step on a stored transcript that does not start the call again. *)
Lemma getTranscript_step (id : string) (o : Op) (s : t) (tr : CallTranscript) :
  match o with OpStart callSid _ _ _ _ => callSid <> id | _ => True end ->
  getTranscript id s = Some tr ->
  exists tr',
    getTranscript id (run o s) = Some tr' /\
    messages tr' = messages tr ++ lines_for id [o] /\
    (callSid tr', fromNumber tr', toNumber tr', callContext tr', startTime tr')
    = (callSid tr, fromNumber tr, toNumber tr, callContext tr, startTime tr) /\
    (status tr = completed -> status tr' = completed).
Proof.
  intros Ho Htr.
  destruct (decide (target o = id)) as [Hid|Hid].
  - destruct o as [sid from to ctx now|sid role content|sid now]; simpl in Hid; subst sid.
    + now destruct Ho.
    + eexists. split; [simpl; apply getTranscript_addMessage; exact Htr|].
      unfold lines_for. simpl. rewrite String.eqb_refl. simpl. auto.
    + eexists. split; [simpl; apply getTranscript_endCall; exact Htr|].
      simpl. rewrite app_nil_r. auto.
  - exists tr. rewrite (getTranscript_run_other id o s Hid). split; [exact Htr|].
    split; [|auto].
    destruct o as [sid from to ctx now|sid role content|sid now]; simpl in *;
      unfold lines_for; simpl; rewrite ?app_nil_r; try reflexivity.
    destruct (String.eqb_spec sid id); [contradiction|]. simpl. now rewrite app_nil_r.
Qed.

(** X6. A transcript is an append-only log: as long as the call is not
    started again, any sequence of operations on any calls leaves its
    earlier messages in place and adds exactly the lines added to this call,
    in order; caller, numbers, context and start time stay, and a completed
    transcript stays completed. Lines added after the end are still
    recorded. *)
Theorem transcript_is_append_only (id : string) (os : list Op) (s : t) (tr : CallTranscript) :
  no_restart id os ->
  getTranscript id s = Some tr ->
  exists tr',
    getTranscript id (runs os s) = Some tr' /\
    messages tr' = messages tr ++ lines_for id os /\
    (callSid tr', fromNumber tr', toNumber tr', callContext tr', startTime tr')
    = (callSid tr, fromNumber tr, toNumber tr, callContext tr, startTime tr) /\
    (status tr = completed -> status tr' = completed).
Proof.
  intros Hos. revert s tr. induction Hos as [|o os Ho Hos IH]; intros s tr Htr.
  - exists tr. simpl. rewrite app_nil_r. auto.
  - destruct (getTranscript_step id o s tr Ho Htr) as (tr1 & Htr1 & Hm1 & Hh1 & Hs1).
    destruct (IH (run o s) tr1 Htr1) as (tr2 & Htr2 & Hm2 & Hh2 & Hs2).
    exists tr2. change (runs (o :: os) s) with (runs os (run o s)).
    split; [exact Htr2|]. split; [|split].
    + rewrite Hm2, Hm1, (lines_for_cons id o os). now rewrite app_assoc.
    + now rewrite Hh2.
    + auto.
Qed.

Lemma last_started_snoc (os : list Op) (o : Op) :
  last_started (os ++ [o])
  = match o with OpStart callSid _ _ _ _ => Some callSid | _ => last_started os end.
Proof. unfold last_started. now rewrite foldl_app. Qed.

(** X7. [getLatestTranscript] follows the call started last: after any
    sequence of operations in which some call was started, the transcript
    of the call started last is stored, whatever was added or ended since,
    on that call or on others, and [getLatestTranscript] returns it when the
    call SID is not empty. For a call started last under the empty call
    SID it returns [undefined], although [getTranscript] finds the
    transcript. *)
Theorem latest_is_the_call_started_last (id : string) (os : list Op) (s : t) :
  last_started os = Some id ->
  exists tr,
    getTranscript id (runs os s) = Some tr /\
    callSid tr = id /\
    (id <> "" -> getLatestTranscript (runs os s) = Some tr) /\
    (id = "" -> getLatestTranscript (runs os s) = None).
Proof.
  assert (H : last_started os = Some id ->
              latestCallSid (runs os s) = Some id /\
              exists tr, getTranscript id (runs os s) = Some tr /\ callSid tr = id).
  { revert id. induction os as [|o os IH] using rev_ind; intros id Hlast; [discriminate|].
    rewrite last_started_snoc in Hlast. rewrite runs_snoc.
    destruct o as [sid from to ctx now|sid role content|sid now].
    - injection Hlast as ->. split; [reflexivity|].
      eexists. split; [apply getTranscript_startCall|reflexivity].
    - destruct (IH id Hlast) as (Hl & tr & Htr & Hsid). split.
      + simpl. unfold addMessage. now destruct (transcripts (runs os s) !! sid).
      + destruct (getTranscript_step id (OpAdd sid role content) _ tr I Htr)
          as (tr' & Htr' & _ & Hh & _).
        exists tr'. split; [exact Htr'|]. injection Hh as -> _ _ _ _. exact Hsid.
    - destruct (IH id Hlast) as (Hl & tr & Htr & Hsid). split.
      + simpl. unfold endCall. now destruct (transcripts (runs os s) !! sid).
      + destruct (getTranscript_step id (OpEnd sid now) _ tr I Htr)
          as (tr' & Htr' & _ & Hh & _).
        exists tr'. split; [exact Htr'|]. injection Hh as -> _ _ _ _. exact Hsid. }
  intros Hlast. destruct (H Hlast) as (Hl & tr & Htr & Hsid).
  exists tr. split; [exact Htr|]. split; [exact Hsid|].
  unfold getLatestTranscript. rewrite Hl. split.
  - intros Hid. rewrite (truthy_Some id Hid). exact Htr.
  - intros ->. reflexivity.
Qed.

End TranscriptStoreMore.

Lemma other_calls_leave_transcript_alone_witness :
  TranscriptStoreService.getTranscript "CA7"
    (TranscriptStoreService.runs TranscriptStoreOps.two_calls
       (TranscriptStoreService.startCall "CA7" "+1" "+9" "" 1 TranscriptStoreService.empty))
  = TranscriptStoreService.getTranscript "CA7"
      (TranscriptStoreService.startCall "CA7" "+1" "+9" "" 1 TranscriptStoreService.empty).
Proof.
  apply TranscriptStoreMore.other_calls_leave_transcript_alone.
  repeat constructor; discriminate.
Defined.

Lemma transcript_is_append_only_witness :
  exists tr',
    TranscriptStoreService.getTranscript "CA1"
      (TranscriptStoreService.runs TranscriptStoreOps.two_calls
         (TranscriptStoreService.startCall "CA1" "+1" "+2" "book" 1
            TranscriptStoreService.empty))
    = Some tr' /\
    TranscriptStoreService.messages tr'
    = [mkMessage user "hello"; mkMessage assistant "goodbye"; mkMessage user "still there?"].
Proof.
  destruct (TranscriptStoreMore.transcript_is_append_only "CA1" TranscriptStoreOps.two_calls
              (TranscriptStoreService.startCall "CA1" "+1" "+2" "book" 1
                 TranscriptStoreService.empty)
              (TranscriptStoreService.mkCallTranscript "CA1" "+1" "+2" "book" 1 None []
                 TranscriptStoreService.in_progress))
    as (tr' & Htr' & Hm & _).
  - repeat constructor; discriminate.
  - reflexivity.
  - exists tr'. split; [exact Htr'|exact Hm].
Defined.

Lemma latest_is_the_call_started_last_witness :
  (exists tr,
     TranscriptStoreService.getLatestTranscript
       (TranscriptStoreService.runs TranscriptStoreOps.two_calls TranscriptStoreService.empty)
     = Some tr /\
     TranscriptStoreService.callSid tr = "CA2") /\
  TranscriptStoreService.getLatestTranscript
    (TranscriptStoreService.runs TranscriptStoreOps.unnamed_call TranscriptStoreService.empty)
  = None.
Proof.
  split.
  - destruct (TranscriptStoreMore.latest_is_the_call_started_last "CA2"
                TranscriptStoreOps.two_calls TranscriptStoreService.empty eq_refl)
      as (tr & _ & Hsid & Hlatest & _).
    exists tr. split; [apply Hlatest; discriminate|exact Hsid].
  - destruct (TranscriptStoreMore.latest_is_the_call_started_last ""
                TranscriptStoreOps.unnamed_call TranscriptStoreService.empty eq_refl)
      as (tr & _ & _ & _ & Hnone).
    now apply Hnone.
Defined.

(** * Further properties of the persistence service *)

Module CallPersistenceMore.
Import Prisma CallPersistenceService CallPersistenceQueries CallPersistenceFacts.

Lemma replace_call_callSids callSid call' l :
  Call.callSid call' = callSid ->
  map Call.callSid (replace_call callSid call' l) = map Call.callSid l.
Proof.
  intros Hsid. induction l as [|c l IH]; simpl; [reflexivity|].
  rewrite IH. f_equal.
  destruct (String.eqb_spec (Call.callSid c) callSid); congruence.
Qed.

Lemma find_replace_same callSid call' l call :
  Call.callSid call' = callSid ->
  find (fun c => String.eqb (Call.callSid c) callSid) l = Some call ->
  find (fun c => String.eqb (Call.callSid c) callSid) (replace_call callSid call' l)
  = Some call'.
Proof.
  intros Hsid. induction l as [|c l IH]; simpl; [discriminate|].
  destruct (String.eqb_spec (Call.callSid c) callSid) as [Heq|Hne].
  - intros _. now rewrite Hsid, String.eqb_refl.
  - intros Hfind. destruct (String.eqb_spec (Call.callSid c) callSid); [contradiction|].
    now apply IH.
Qed.

Lemma find_replace_other callSid call' l other :
  Call.callSid call' = callSid -> other <> callSid ->
  find (fun c => String.eqb (Call.callSid c) other) (replace_call callSid call' l)
  = find (fun c => String.eqb (Call.callSid c) other) l.
Proof.
  intros Hsid Hother. induction l as [|c l IH]; simpl; [reflexivity|].
  destruct (String.eqb_spec (Call.callSid c) callSid) as [Heq|Hne].
  - rewrite Hsid, Heq.
    destruct (String.eqb_spec callSid other); [congruence|exact IH].
  - now rewrite IH.
Qed.

Lemma call_findUnique_None_fresh callSid db :
  call_findUnique callSid db = None -> callSid ∉ map Call.callSid (calls db).
Proof.
  unfold call_findUnique. intros Hnone Hin.
  apply list_elem_of_In, in_map_iff in Hin as (c & Hsid & Hc).
  apply (find_none _ _ Hnone) in Hc. rewrite Hsid, String.eqb_refl in Hc. discriminate.
Qed.

(** The two ways [startCall] can go: the row is added, or the insert is
    refused and the rows stay. *)
Lemma startCall_cases newId now userId callSid from to ctx db :
  let call :=
    Call.mk newId callSid userId from to (if truthy ctx then ctx else None)
      "in_progress" now None in
  (call_byId newId db = None /\ call_findUnique callSid db = None /\
   user_byId userId db <> None /\
   startCall newId now userId callSid from to ctx db
   = mkReply (Normal call) ["Call started: " +:+ callSid +:+ " for user " +:+ userId]
       (mkDB (users db) (calls db ++ [call]) (callMessages db))) \/
  ((call_byId newId db <> None \/ call_findUnique callSid db <> None \/
    user_byId userId db = None) /\
   exists e, startCall newId now userId callSid from to ctx db = mkReply (Throw e) [] db).
Proof.
  cbv zeta. unfold startCall, call_create. simpl.
  destruct (call_byId newId db) eqn:Hid;
    [right; split; [left; discriminate|eexists; reflexivity]|].
  destruct (call_findUnique callSid db) eqn:Hsid;
    [right; split; [right; left; discriminate|eexists; reflexivity]|].
  destruct (user_byId userId db) eqn:Huser.
  - left. split; [reflexivity|]. split; [reflexivity|]. split; [discriminate|reflexivity].
  - right. split; [right; right; reflexivity|eexists; reflexivity].
Qed.

(** X8. The unique index on the call SID is never broken: [startCall],
    [addMessage], [endCall] and [updateCallStatus] each leave at most one
    row per call SID, so the ownership check of [getTranscript] always
    looks at the one stored call. *)
Theorem unique_callSid_is_kept (db : DB) :
  unique_callSid db ->
  (forall newId now userId callSid from to ctx,
      unique_callSid (database (startCall newId now userId callSid from to ctx db))) /\
  (forall newId now callSid role content,
      unique_callSid (database (addMessage newId now callSid role content db))) /\
  (forall now callSid, unique_callSid (database (endCall now callSid db))) /\
  (forall callSid status, unique_callSid (database (updateCallStatus callSid status db))).
Proof.
  intros Hdb. unfold unique_callSid in *. repeat split.
  - intros newId now userId sid from to ctx.
    destruct (startCall_cases newId now userId sid from to ctx db)
      as [(_ & Hfind & _ & ->)|(_ & e & ->)]; simpl; [|exact Hdb].
    rewrite map_app. apply NoDup_app. split; [exact Hdb|]. split.
    + intros x Hx Hx'. apply list_elem_of_singleton in Hx'. subst x.
      now apply (call_findUnique_None_fresh sid db Hfind).
    + apply NoDup_singleton.
  - intros newId now sid role content. unfold addMessage.
    now destruct (call_findUnique sid db).
  - intros now sid. unfold endCall.
    destruct (call_findUnique sid db) as [call|] eqn:Hfind; simpl; [|exact Hdb].
    apply call_findUnique_Some in Hfind as [_ Hsid].
    fold (replace_call sid
            (Call.mk (Call.id call) (Call.callSid call) (Call.userId call)
               (Call.fromNumber call) (Call.toNumber call) (Call.callContext call)
               "completed" (Call.startedAt call) (Some now)) (calls db)).
    now rewrite replace_call_callSids.
  - intros sid status. unfold updateCallStatus.
    destruct (call_findUnique sid db) as [call|] eqn:Hfind; simpl; [|exact Hdb].
    apply call_findUnique_Some in Hfind as [_ Hsid].
    fold (replace_call sid
            (Call.mk (Call.id call) (Call.callSid call) (Call.userId call)
               (Call.fromNumber call) (Call.toNumber call) (Call.callContext call)
               status (Call.startedAt call) (Call.endedAt call)) (calls db)).
    now rewrite replace_call_callSids.
Qed.

Lemma find_app_None {A} (f : A -> bool) (l : list A) (x : A) :
  find f l = None -> find f (l ++ [x]) = if f x then Some x else None.
Proof.
  induction l as [|y l IH]; simpl; [reflexivity|].
  destruct (f y); [discriminate|exact IH].
Qed.

Lemma find_app_Some {A} (f : A -> bool) (l k : list A) (y : A) :
  find f l = Some y -> find f (l ++ k) = Some y.
Proof.
  induction l as [|z l IH]; simpl; [discriminate|].
  destruct (f z); [trivial|exact IH].
Qed.

Lemma filter_none {A} (P : A -> Prop) `{forall x, Decision (P x)} (l : list A) :
  (forall x, In x l -> ~ P x) -> filter P l = [].
Proof.
  induction l as [|x l IH]; intros Hl; [reflexivity|].
  rewrite filter_cons. destruct (decide (P x)) as [HP|_].
  - destruct (Hl x (or_introl eq_refl) HP).
  - apply IH. intros y Hy. apply Hl. now right.
Qed.

(** Under the foreign key of the messages, no message belongs to a call
    id that is not stored. *)
Lemma no_message_of_fresh_call newId db :
  messages_refer_to_calls db -> call_byId newId db = None ->
  forall m, In m (callMessages db) -> CallMessage.callId m <> newId.
Proof.
  intros Hfk Hfresh m Hm Hid. destruct (Hfk m Hm) as (c & Hc & Hcid).
  unfold call_byId in Hfresh. apply (find_none _ _ Hfresh) in Hc.
  rewrite Hcid, Hid, String.eqb_refl in Hc. discriminate.
Qed.

(** X9. Starting a call stores it for the user when the user is stored
    and neither the call SID nor the row's id is taken: the owner then
    reads a transcript in progress, with the numbers given, the context
    ([null] when empty) and no message. Under a call SID or an id already
    stored, and for a user that is not stored, the insert is refused: the
    promise rejects, nothing is logged and no row changes. *)
Theorem startCall_then_getTranscript (db : DB) (newId : string) (now : Z)
    (userId callSid from to : string) (ctx : Value) :
  messages_refer_to_calls db ->
  let r := startCall newId now userId callSid from to ctx db in
  (call_findUnique callSid db = None -> call_byId newId db = None ->
   user_byId userId db <> None ->
   (exists call, value r = Normal call /\ Call.userId call = userId) /\
   fst (getTranscript callSid userId (database r))
   = Some (mkCallTranscript callSid from to (if truthy ctx then ctx else None)
             now None "in_progress" [])) /\
  (call_findUnique callSid db <> None \/ call_byId newId db <> None \/
   user_byId userId db = None ->
   database r = db /\ (exists e, value r = Throw e) /\ logged r = []).
Proof.
  intros Hfk. cbv zeta.
  destruct (startCall_cases newId now userId callSid from to ctx db)
    as [(Hid & Hsid & Huser & ->)|([Hid|[Hsid|Huser]] & e & ->)]; simpl.
  - split; [|intros [H|[H|H]]; contradiction].
    intros _ _ _. split; [eexists; split; reflexivity|].
    unfold getTranscript, call_findUnique in *. simpl.
    rewrite (find_app_None _ _ _ Hsid). simpl. rewrite !String.eqb_refl. simpl.
    unfold callToTranscript, include_messages. simpl.
    now rewrite (filter_none _ _ (no_message_of_fresh_call newId db Hfk Hid)).
  - split; [intros _ H; contradiction|]. intros _. split; [reflexivity|].
    split; [eexists|]; reflexivity.
  - split; [intros H; contradiction|]. intros _. split; [reflexivity|].
    split; [eexists|]; reflexivity.
  - split; [intros _ _ H; contradiction|]. intros _. split; [reflexivity|].
    split; [eexists|]; reflexivity.
Qed.

Lemma insert_by_timestamp_last (x m : CallMessage.t) (l : list CallMessage.t) :
  (CallMessage.timestamp x <= CallMessage.timestamp m)%Z ->
  insert_by_timestamp x (l ++ [m]) = insert_by_timestamp x l ++ [m].
Proof.
  intros Hx. induction l as [|y l IH]; simpl.
  - now rewrite (proj2 (Z.leb_le _ _) Hx).
  - destruct (CallMessage.timestamp x <=? CallMessage.timestamp y)%Z; [reflexivity|].
    now rewrite IH.
Qed.

Lemma insert_by_timestamp_In (x y : CallMessage.t) (l : list CallMessage.t) :
  In y (insert_by_timestamp x l) <-> y = x \/ In y l.
Proof.
  induction l as [|z l IH]; simpl; [intuition congruence|].
  destruct (CallMessage.timestamp x <=? CallMessage.timestamp z)%Z; simpl.
  - intuition congruence.
  - rewrite IH. intuition congruence.
Qed.

Lemma orderBy_timestamp_asc_last (l : list CallMessage.t) (m : CallMessage.t) :
  (forall x, In x l -> (CallMessage.timestamp x <= CallMessage.timestamp m)%Z) ->
  orderBy_timestamp_asc (l ++ [m]) = orderBy_timestamp_asc l ++ [m].
Proof.
  unfold orderBy_timestamp_asc. induction l as [|x l IH]; intros Hl; [reflexivity|].
  simpl. rewrite IH by (intros y Hy; apply Hl; now right).
  apply insert_by_timestamp_last, Hl. now left.
Qed.

(** X10. A message added to a stored call with a timestamp later than
    those of the call's earlier messages is read back last: the owner's
    transcript is the earlier transcript with the new message, under its
    role and timestamp, at the end. The messages of every other call are
    as they were. *)
Theorem addMessage_then_getTranscript (db : DB) (call : Call.t) (newId : string) (now : Z)
    (callSid : string) (role : Role) (content : string) :
  call_findUnique callSid db = Some call ->
  (forall m, In m (callMessages db) -> CallMessage.callId m = Call.id call ->
             (CallMessage.timestamp m < now)%Z) ->
  let db' := database (addMessage newId now callSid role content db) in
  fst (getTranscript callSid (Call.userId call) db')
  = Some (callToTranscript call
            (include_messages call db ++
             [CallMessage.mk newId (Call.id call) (role_name role) content now])) /\
  (forall other, Call.id other <> Call.id call ->
     include_messages other db' = include_messages other db).
Proof.
  intros Hfind Hlater. cbv zeta. unfold addMessage. rewrite Hfind. simpl. split.
  - unfold getTranscript. unfold call_findUnique in *. simpl. rewrite Hfind.
    rewrite String.eqb_refl. simpl. f_equal. f_equal.
    unfold include_messages. simpl. rewrite filter_app, filter_cons_True by reflexivity.
    rewrite filter_nil. apply orderBy_timestamp_asc_last.
    intros x Hx. apply list_elem_of_In, list_elem_of_filter in Hx as [Hid Hx].
    simpl. apply Z.lt_le_incl, Hlater; [now apply list_elem_of_In|exact Hid].
  - intros other Hother. unfold include_messages. simpl.
    rewrite filter_app, filter_cons_False, filter_nil, app_nil_r; [reflexivity|].
    simpl. congruence.
Qed.

(** X11. Ending a stored call marks it completed and stamps its end; the
    owner reads the same messages as before, and every other call SID reads
    as before. Ending a call SID that is not stored resolves to [null] and
    changes no row. *)
Theorem endCall_then_getTranscript (db : DB) (now : Z) (callSid : string) :
  let r := endCall now callSid db in
  (forall call, call_findUnique callSid db = Some call ->
     fst (getTranscript callSid (Call.userId call) (database r))
     = Some (mkCallTranscript callSid (Call.fromNumber call) (Call.toNumber call)
               (Call.callContext call) (Call.startedAt call) (Some now) "completed"
               (messages (callToTranscript call (include_messages call db))))) /\
  (forall other userId, other <> callSid ->
     getTranscript other userId (database r) = getTranscript other userId db) /\
  (call_findUnique callSid db = None -> value r = None /\ database r = db).
Proof.
  cbv zeta. unfold endCall. split; [|split].
  - intros call Hfind. rewrite Hfind. simpl.
    pose proof (call_findUnique_Some _ _ _ Hfind) as [_ Hsid].
    set (call' := Call.mk (Call.id call) (Call.callSid call) (Call.userId call)
                    (Call.fromNumber call) (Call.toNumber call) (Call.callContext call)
                    "completed" (Call.startedAt call) (Some now)).
    assert (Hsid' : Call.callSid call' = callSid) by exact Hsid.
    unfold getTranscript, call_findUnique in *. simpl.
    change (map _ (calls db)) with (replace_call callSid call' (calls db)).
    rewrite (find_replace_same callSid call' (calls db) call Hsid' Hfind).
    subst call'. simpl. rewrite String.eqb_refl. simpl.
    unfold callToTranscript, include_messages. simpl. now rewrite Hsid.
  - intros other userId Hother.
    destruct (call_findUnique callSid db) as [call|] eqn:Hfind; [|reflexivity].
    pose proof (call_findUnique_Some _ _ _ Hfind) as [_ Hsid].
    set (call' := Call.mk (Call.id call) (Call.callSid call) (Call.userId call)
                    (Call.fromNumber call) (Call.toNumber call) (Call.callContext call)
                    "completed" (Call.startedAt call) (Some now)).
    assert (Hsid' : Call.callSid call' = callSid) by exact Hsid.
    unfold getTranscript, call_findUnique. simpl.
    change (map _ (calls db)) with (replace_call callSid call' (calls db)).
    now rewrite (find_replace_other callSid call' (calls db) other Hsid' Hother).
  - intros Hnone. now rewrite Hnone.
Qed.

Lemma insert_by_startedAt_In (c y : Call.t) (l : list Call.t) :
  In y (insert_by_startedAt c l) <-> y = c \/ In y l.
Proof.
  induction l as [|z l IH]; simpl; [intuition congruence|].
  destruct (Call.startedAt z <=? Call.startedAt c)%Z; simpl.
  - intuition congruence.
  - rewrite IH. intuition congruence.
Qed.

Lemma orderBy_startedAt_desc_In (y : Call.t) (l : list Call.t) :
  In y (orderBy_startedAt_desc l) <-> In y l.
Proof.
  unfold orderBy_startedAt_desc. induction l as [|c l IH]; simpl; [reflexivity|].
  rewrite insert_by_startedAt_In, IH. intuition congruence.
Qed.

Lemma insert_by_startedAt_length (c : Call.t) (l : list Call.t) :
  length (insert_by_startedAt c l) = S (length l).
Proof.
  induction l as [|z l IH]; simpl; [reflexivity|].
  destruct (Call.startedAt z <=? Call.startedAt c)%Z; simpl; [reflexivity|].
  now rewrite IH.
Qed.

Lemma orderBy_startedAt_desc_length (l : list Call.t) :
  length (orderBy_startedAt_desc l) = length l.
Proof.
  unfold orderBy_startedAt_desc. induction l as [|c l IH]; simpl; [reflexivity|].
  now rewrite insert_by_startedAt_length, IH.
Qed.

(** Rows in the order of [startedAt], latest first. *)
Local Abbreviation started_not_before a b := (Call.startedAt b <= Call.startedAt a)%Z.

Lemma insert_by_startedAt_sorted (c : Call.t) (l : list Call.t) :
  StronglySorted (fun a b => started_not_before a b) l ->
  StronglySorted (fun a b => started_not_before a b) (insert_by_startedAt c l).
Proof.
  induction 1 as [|z l Hl IH Hz]; simpl.
  - repeat constructor.
  - destruct (Call.startedAt z <=? Call.startedAt c)%Z eqn:Hle.
    + apply Z.leb_le in Hle. constructor; [now constructor|].
      constructor; [exact Hle|].
      eapply Forall_impl; [exact Hz|]. simpl. intros y Hy. lia.
    + apply Z.leb_gt in Hle. constructor; [exact IH|].
      apply Forall_forall. intros y Hy.
      apply list_elem_of_In, insert_by_startedAt_In in Hy as [->|Hy]; [lia|].
      rewrite Forall_forall in Hz. apply Hz. now apply list_elem_of_In.
Qed.

Lemma orderBy_startedAt_desc_sorted (l : list Call.t) :
  StronglySorted (fun a b => started_not_before a b) (orderBy_startedAt_desc l).
Proof.
  unfold orderBy_startedAt_desc. induction l as [|c l IH]; simpl; [constructor|].
  now apply insert_by_startedAt_sorted.
Qed.

Lemma calls_of_In (userId : string) (db : DB) (call : Call.t) :
  In call (calls_of userId db) <-> In call (calls db) /\ Call.userId call = userId.
Proof.
  unfold calls_of. rewrite orderBy_startedAt_desc_In, List.filter_In.
  now rewrite String.eqb_eq.
Qed.

Lemma insert_by_startedAt_Permutation (c : Call.t) (l : list Call.t) :
  Permutation (insert_by_startedAt c l) (c :: l).
Proof.
  induction l as [|z l IH]; simpl; [reflexivity|].
  destruct (Call.startedAt z <=? Call.startedAt c)%Z; [reflexivity|].
  rewrite IH. apply perm_swap.
Qed.

Lemma orderBy_startedAt_desc_Permutation (l : list Call.t) :
  Permutation (orderBy_startedAt_desc l) l.
Proof.
  unfold orderBy_startedAt_desc. induction l as [|c l IH]; simpl; [reflexivity|].
  rewrite insert_by_startedAt_Permutation. now rewrite IH.
Qed.

Lemma In_drop {A} (n : nat) (l : list A) (x : A) : In x (drop n l) -> In x l.
Proof.
  revert n. induction l as [|y l IH]; intros [|n]; simpl; auto.
  intros Hx. right. exact (IH n Hx).
Qed.

Lemma sorted_take_before_drop (n : nat) (l : list Call.t) :
  StronglySorted (fun a b => started_not_before a b) l ->
  forall c r, In c (take n l) -> In r (drop n l) -> started_not_before c r.
Proof.
  intros Hs. revert n. induction Hs as [|x l Hl IH Hx]; intros n c r Hc Hr.
  - destruct n; destruct Hc.
  - destruct n as [|n]; [destruct Hc|]. simpl in Hc, Hr. destruct Hc as [<-|Hc].
    + rewrite Forall_forall in Hx. apply Hx.
      apply list_elem_of_In. exact (In_drop n l r Hr).
    + exact (IH n c r Hc Hr).
Qed.

(** X12. [getRecentCalls] hands a user the latest of the user's own calls:
    every transcript returned is that of a stored call owned by the user.
    It returns the user's calls up to the limit (10 when the limit is left
    out), as many as there are if fewer, the latest started first: the
    calls returned and the calls left out are together the user's stored
    calls, each once, and no call left out started after a call returned.
    Its first entry is what [getLatestTranscript] returns. *)
Theorem getRecentCalls_of_user (userId : string) (limit : option nat) (db : DB) :
  let result := getRecentCalls userId limit db in
  (forall tr, In tr result ->
     exists call, In call (calls db) /\ Call.userId call = userId /\
                  tr = with_messages db call) /\
  length result
  = Nat.min (default 10%nat limit)
            (length (List.filter (fun c => String.eqb (Call.userId c) userId) (calls db))) /\
  StronglySorted latest_first result /\
  (default 10%nat limit <> 0%nat -> head result = getLatestTranscript userId db) /\
  (exists returned left_out,
     result = map (with_messages db) returned /\
     Permutation (returned ++ left_out)
       (List.filter (fun c => String.eqb (Call.userId c) userId) (calls db)) /\
     forall c r, In c returned -> In r left_out ->
       (Call.startedAt r <= Call.startedAt c)%Z).
Proof.
  cbv zeta. unfold getRecentCalls.
  split; [|split; [|split; [|split]]].
  - intros tr Htr. apply in_map_iff in Htr as (call & <- & Hcall).
    apply list_elem_of_In, elem_of_take in Hcall as (i & Hcall & _).
    apply list_elem_of_lookup_2, list_elem_of_In, calls_of_In in Hcall as [Hin Huser].
    exists call. auto.
  - rewrite length_map, length_take. unfold calls_of.
    now rewrite orderBy_startedAt_desc_length.
  - assert (Hsorted : StronglySorted (fun a b => started_not_before a b)
                        (take (default 10%nat limit) (calls_of userId db))).
    { pose proof (orderBy_startedAt_desc_sorted
                    (List.filter (fun c => String.eqb (Call.userId c) userId) (calls db)))
        as Hs.
      fold (calls_of userId db) in Hs. revert Hs.
      generalize (calls_of userId db) as l. generalize (default 10%nat limit) as n.
      induction n as [|n IH]; intros l Hs; [constructor|].
      destruct Hs as [|c l Hl Hc]; simpl; [constructor|].
      constructor; [now apply IH|].
      apply Forall_forall. intros y Hy. apply elem_of_take in Hy as (i & Hy & _).
      rewrite Forall_forall in Hc. apply Hc. eapply list_elem_of_lookup_2, Hy. }
    induction Hsorted as [|c l Hl IH Hc]; simpl; constructor; [exact IH|].
    apply Forall_forall. intros tr Htr.
    apply list_elem_of_In, in_map_iff in Htr as (y & <- & Hy).
    rewrite Forall_forall in Hc. apply Hc. now apply list_elem_of_In.
  - intros Hlimit. unfold getLatestTranscript.
    destruct (default 10%nat limit) as [|n]; [contradiction|].
    now destruct (calls_of userId db).
  - exists (take (default 10%nat limit) (calls_of userId db)),
           (drop (default 10%nat limit) (calls_of userId db)).
    split; [reflexivity|]. split.
    + rewrite take_drop. apply orderBy_startedAt_desc_Permutation.
    + apply sorted_take_before_drop, orderBy_startedAt_desc_sorted.
Qed.

(** X13. [getLatestTranscript] resolves to [null] exactly when the user
    owns no stored call; otherwise to the transcript of one of the user's
    own calls, and none of the user's calls started later than it. *)
Theorem getLatestTranscript_of_user (userId : string) (db : DB) :
  (getLatestTranscript userId db = None <->
   forall c, In c (calls db) -> Call.userId c <> userId) /\
  (forall tr, getLatestTranscript userId db = Some tr ->
     exists call,
       In call (calls db) /\ Call.userId call = userId /\ tr = with_messages db call /\
       forall c, In c (calls db) -> Call.userId c = userId ->
                 (Call.startedAt c <= Call.startedAt call)%Z).
Proof.
  unfold getLatestTranscript.
  pose proof (calls_of_In userId db) as Hin.
  pose proof (orderBy_startedAt_desc_sorted
                (List.filter (fun c => String.eqb (Call.userId c) userId) (calls db)))
    as Hsorted.
  fold (calls_of userId db) in Hsorted.
  destruct (calls_of userId db) as [|call rest]; split.
  - split; [|reflexivity]. intros _ c Hc Huser.
    now apply (proj2 (Hin c) (conj Hc Huser)).
  - discriminate.
  - split; [discriminate|]. intros Hnone.
    destruct (proj1 (Hin call) (or_introl eq_refl)) as [Hc Huser].
    destruct (Hnone call Hc Huser).
  - intros tr [= <-]. exists call.
    destruct (proj1 (Hin call) (or_introl eq_refl)) as [Hc Huser].
    repeat split; try assumption.
    intros c Hc' Huser'.
    destruct (proj2 (Hin c) (conj Hc' Huser')) as [<-|Hrest]; [lia|].
    inversion Hsorted as [|x l Hl Hx]; subst.
    rewrite Forall_forall in Hx. apply Hx. now apply list_elem_of_In.
Qed.

End CallPersistenceMore.

Lemma unique_callSid_is_kept_witness :
  Prisma.unique_callSid
    (CallPersistenceService.database
       (CallPersistenceService.startCall "c9" 5000 "bob" "CA1" "+15550009" "+15550002" None
          alice_db)) /\
  Prisma.unique_callSid
    (CallPersistenceService.database (CallPersistenceService.endCall 5000 "CA1" alice_db)).
Proof.
  assert (Hunique : Prisma.unique_callSid alice_db).
  { unfold Prisma.unique_callSid. simpl. constructor; [apply not_elem_of_nil|constructor]. }
  destruct (CallPersistenceMore.unique_callSid_is_kept alice_db Hunique)
    as (Hstart & _ & Hend & _).
  split; [apply Hstart|apply Hend].
Defined.

Lemma alice_db_refers_to_calls : Prisma.messages_refer_to_calls alice_db.
Proof.
  intros m [<-|[<-|[]]]; exists alice_call; (split; [left|]; reflexivity).
Qed.

Lemma startCall_then_getTranscript_witness :
  fst (CallPersistenceService.getTranscript "CA2" "alice"
         (CallPersistenceService.database
            (CallPersistenceService.startCall "c2" 3000 "alice" "CA2" "+15550001" "+15550003"
               (Some "") alice_db)))
  = Some (CallPersistenceService.mkCallTranscript "CA2" "+15550001" "+15550003" None
            3000 None "in_progress" []) /\
  CallPersistenceService.database
    (CallPersistenceService.startCall "c4" 4000 "mallory" "CA4" "+15550001" "+15550003"
       None alice_db)
  = alice_db.
Proof.
  split.
  - apply (CallPersistenceMore.startCall_then_getTranscript alice_db "c2" 3000 "alice" "CA2"
             "+15550001" "+15550003" (Some "") alice_db_refers_to_calls);
      [reflexivity|reflexivity|discriminate].
  - apply (CallPersistenceMore.startCall_then_getTranscript alice_db "c4" 4000 "mallory"
             "CA4" "+15550001" "+15550003" None alice_db_refers_to_calls).
    right. right. reflexivity.
Defined.

Lemma addMessage_then_getTranscript_witness :
  fst (CallPersistenceService.getTranscript "CA1" "alice"
         (CallPersistenceService.database
            (CallPersistenceService.addMessage "m3" 1003 "CA1" user "a table for two"
               alice_db)))
  = Some (CallPersistenceService.mkCallTranscript "CA1" "+15550001" "+15550002"
            (Some "book a table") 1000 None "in_progress"
            [CallPersistenceService.mkTranscriptMessage "user" "hello" 1001;
             CallPersistenceService.mkTranscriptMessage "assistant" "hi there" 1002;
             CallPersistenceService.mkTranscriptMessage "user" "a table for two" 1003]).
Proof.
  apply (CallPersistenceMore.addMessage_then_getTranscript alice_db alice_call "m3" 1003
           "CA1" user "a table for two").
  - reflexivity.
  - intros m [<-|[<-|[]]] _; reflexivity.
Defined.

Example recent_calls_of_alice :
  map CallPersistenceService.callSid
    (CallPersistenceQueries.getRecentCalls "alice" None CallPersistenceQueries.three_calls_db)
  = ["CA2"; "CA1"] /\
  map CallPersistenceService.callSid
    (CallPersistenceQueries.getRecentCalls "alice" (Some 1%nat)
       CallPersistenceQueries.three_calls_db)
  = ["CA2"] /\
  map CallPersistenceService.callSid
    (CallPersistenceQueries.getRecentCalls "carol" None CallPersistenceQueries.three_calls_db)
  = [].
Proof. repeat split; reflexivity. Qed.

(** * Properties of the login application *)

Lemma find_all_false {A} (f : A -> bool) (l : list A) :
  (forall x, In x l -> f x = false) -> find f l = None.
Proof.
  induction l as [|a l IH]; intros H; [reflexivity|]. simpl.
  rewrite (H a (or_introl eq_refl)). apply IH. intros x Hx. apply H. now right.
Qed.

Lemma find_last {A} (f : A -> bool) (l : list A) (x : A) :
  find f l = None -> find f (l ++ [x]) = if f x then Some x else None.
Proof.
  induction l as [|y l IH]; simpl; [reflexivity|].
  destruct (f y); [discriminate|exact IH].
Qed.

Lemma find_key_filter_other {A} (key : A -> string) (P : A -> bool) (k : string) (l : list A) :
  (forall x, In x l -> P x = false -> key x <> k) ->
  find (fun x => String.eqb (key x) k) (List.filter P l)
  = find (fun x => String.eqb (key x) k) l.
Proof.
  induction l as [|a l IH]; intros H; [reflexivity|]. simpl.
  assert (IH' := IH (fun x Hx => H x (or_intror Hx))).
  destruct (P a) eqn:HP; simpl.
  - destruct (String.eqb (key a) k); [reflexivity|exact IH'].
  - destruct (String.eqb_spec (key a) k) as [Hk|_]; [|exact IH'].
    destruct (H a (or_introl eq_refl) HP Hk).
Qed.

Lemma find_key_filter_unique {A} (key : A -> string) (P : A -> bool) (k : string)
    (l : list A) :
  NoDup (map key l) ->
  find (fun x => String.eqb (key x) k) (List.filter P l)
  = match find (fun x => String.eqb (key x) k) l with
    | Some x => if P x then Some x else None
    | None => None
    end.
Proof.
  induction l as [|a l IH]; intros Hnd; [reflexivity|].
  simpl in Hnd. apply NoDup_cons in Hnd as [Hnotin Hnd]. simpl.
  destruct (P a) eqn:HP; simpl; destruct (String.eqb_spec (key a) k) as [Hk|Hk].
  - now rewrite HP.
  - now apply IH.
  - rewrite HP. apply find_all_false. intros x Hx.
    apply List.filter_In in Hx as [Hx _]. apply String.eqb_neq. intros Hkx.
    apply Hnotin. rewrite Hk, <- Hkx. now apply list_elem_of_In, in_map.
  - now apply IH.
Qed.

Lemma find_key_unique_In {A} (key : A -> string) (l : list A) (x : A) :
  NoDup (map key l) -> In x l ->
  find (fun y => String.eqb (key y) (key x)) l = Some x.
Proof.
  induction l as [|a l IH]; intros Hnd Hin; [destruct Hin|].
  simpl in Hnd. apply NoDup_cons in Hnd as [Hnotin Hnd]. simpl.
  destruct Hin as [->|Hin]; [now rewrite String.eqb_refl|].
  destruct (String.eqb_spec (key a) (key x)) as [Hk|_]; [|now apply IH].
  destruct Hnotin. rewrite Hk. now apply list_elem_of_In, in_map.
Qed.

Lemma filter_twice {A} (f : A -> bool) (l : list A) :
  List.filter f (List.filter f l) = List.filter f l.
Proof.
  induction l as [|a l IH]; [reflexivity|]. simpl.
  destruct (f a) eqn:Hf; simpl; [rewrite Hf; now f_equal|exact IH].
Qed.

Section AuthFacts.
Import AuthTables.

Variable toLowerCase : string -> string.
Variable bcrypt_hash : string -> nat -> string -> string.
Variable bcrypt_compare : string -> string -> bool.

Local Abbreviation registerUser' := (registerUser toLowerCase bcrypt_hash).
Local Abbreviation authenticateUser' := (authenticateUser toLowerCase bcrypt_compare).

(** What a successful registration has stored. *)
Lemma registerUser_Normal newId now salt email password name db a db1 :
  registerUser' newId now salt email password name db = (Normal a, db1) ->
  let u := User.mk newId (toLowerCase email) (bcrypt_hash password SALT_ROUNDS salt)
             (if truthy name then name else None) now now in
  user_findUnique_email (toLowerCase email) db = None /\
  user_findUnique_id newId db = None /\
  a = authUser u /\
  db1 = set_users (users db ++ [u]) db.
Proof.
  unfold registerUser, user_create. simpl.
  destruct (user_findUnique_email (toLowerCase email) db) eqn:Hemail; [discriminate|].
  destruct (user_findUnique_id newId db) eqn:Hid; [discriminate|].
  intros [= <- <-]. auto.
Qed.

(** X14. An email address registers once, whatever its letter case: after
    a registration has succeeded, registering an address with the same
    lower-case form is refused with "User with this email already exists"
    and stores nothing. *)
Theorem registerUser_rejects_duplicates newId now salt email password name db a db1
    newId' now' salt' email' password' name' :
  registerUser toLowerCase bcrypt_hash newId now salt email password name db
  = (Normal a, db1) ->
  toLowerCase email' = toLowerCase email ->
  registerUser toLowerCase bcrypt_hash newId' now' salt' email' password' name' db1
  = (Throw (Error "User with this email already exists"), db1).
Proof.
  intros Hreg Hsame.
  destruct (registerUser_Normal _ _ _ _ _ _ _ _ _ Hreg) as (Hemail & _ & _ & ->).
  unfold registerUser, user_findUnique_email in *. simpl.
  rewrite Hsame, (find_last _ _ _ Hemail). simpl. now rewrite String.eqb_refl.
Qed.

(** X15. Registration and login fit together: after a registration has
    succeeded, logging in with an address of the same lower-case form
    returns the registered user exactly when bcrypt accepts the password
    against the hash stored at registration, and nothing otherwise. The
    user carries the lower-case address and [null] for an empty name. *)
Theorem register_then_authenticate newId now salt email password name db a db1
    email' attempt :
  registerUser' newId now salt email password name db = (Normal a, db1) ->
  toLowerCase email' = toLowerCase email ->
  a = mkAuthUser newId (toLowerCase email) (if truthy name then name else None) /\
  authenticateUser' email' attempt db1
  = if bcrypt_compare attempt (bcrypt_hash password SALT_ROUNDS salt) then Some a else None.
Proof.
  intros Hreg Hsame.
  destruct (registerUser_Normal _ _ _ _ _ _ _ _ _ Hreg) as (Hemail & _ & -> & ->).
  split; [reflexivity|].
  unfold authenticateUser, user_findUnique_email in *. simpl.
  rewrite Hsame, (find_last _ _ _ Hemail). simpl. now rewrite String.eqb_refl.
Qed.

Lemma session_findUnique_delete sid db :
  session_findUnique sid (session_delete sid db) = None.
Proof.
  unfold session_findUnique, session_delete. simpl. apply find_all_false.
  intros s Hs. apply List.filter_In in Hs as [_ Hs]. now apply negb_true_iff in Hs.
Qed.

Lemma session_findUnique_delete_other sid other db :
  other <> sid ->
  session_findUnique other (session_delete sid db) = session_findUnique other db.
Proof.
  intros Hother. unfold session_findUnique, session_delete. simpl.
  apply (find_key_filter_other Session.id). intros s _ Hs.
  apply negb_false_iff, String.eqb_eq in Hs. congruence.
Qed.

Lemma session_findUnique_touch sid later other db :
  session_findUnique other (session_touch sid later db)
  = match session_findUnique other db with
    | Some s =>
        Some (if String.eqb (Session.id s) sid
              then Session.mk (Session.id s) (Session.userId s) (Session.createdAt s)
                     later (Session.expiresAt s)
              else s)
    | None => None
    end.
Proof.
  unfold session_findUnique, session_touch. simpl.
  induction (sessions db) as [|s l IH]; simpl; [reflexivity|].
  destruct (String.eqb (Session.id s) sid) eqn:Hs; simpl.
  - destruct (String.eqb (Session.id s) other); [now rewrite Hs|exact IH].
  - destruct (String.eqb (Session.id s) other); [now rewrite Hs|exact IH].
Qed.

Lemma createSession_then_validate newId now userId db u :
  user_findUnique_id userId db = Some u ->
  session_findUnique newId db = None ->
  exists db1,
    createSession newId now userId db
    = (Normal (Session.mk newId userId now now (now + 86400000)), db1) /\
    users db1 = users db /\
    forall t later,
      fst (validateSession t later newId db1)
      = Normal (if (now + 86400000 <? t)%Z then None else Some (authUser u)).
Proof.
  intros Huser Hfresh. unfold createSession, session_create. simpl.
  rewrite Hfresh, Huser. eexists. split; [reflexivity|]. split; [reflexivity|].
  intros t later. unfold validateSession, session_findUnique in *. simpl.
  rewrite (find_last _ _ _ Hfresh). simpl. rewrite String.eqb_refl.
  unfold user_findUnique_id in *. simpl. rewrite Huser.
  change (now + SESSION_DURATION_MS)%Z with (now + 86400000)%Z.
  now destruct (now + 86400000 <? t)%Z.
Qed.

(** X16. A session lasts 24 hours and not a millisecond more: a session
    created at [now] for a stored user validates to that user at every time
    up to and including [now + 86 400 000], and to [null] at every later
    time. Creating it for a user that is not stored, or under an id that is
    taken, is refused. *)
Theorem session_lasts_a_day newId now userId db :
  (forall u, user_findUnique_id userId db = Some u ->
     session_findUnique newId db = None ->
     exists db1,
       createSession newId now userId db
       = (Normal (Session.mk newId userId now now (now + 86400000)), db1) /\
       forall t later,
         fst (validateSession t later newId db1)
         = Normal (if (now + 86400000 <? t)%Z then None else Some (authUser u))) /\
  (user_findUnique_id userId db = None \/ session_findUnique newId db <> None ->
   exists e, createSession newId now userId db = (Throw e, db)).
Proof.
  split.
  - intros u Huser Hfresh.
    destruct (createSession_then_validate newId now userId db u Huser Hfresh)
      as (db1 & Hcreate & _ & Hvalid).
    exists db1. now split.
  - unfold createSession, session_create. simpl. intros [Hnone|Htaken].
    + rewrite Hnone. destruct (session_findUnique newId db); eexists; reflexivity.
    + destruct (session_findUnique newId db); [|contradiction]. eexists. reflexivity.
Qed.

(** X17. Validation never extends a session. Validating a session that
    has not expired moves only its last access and leaves its expiry, its
    user and every other session as they were; validating an expired
    session deletes that session and no other. *)
Theorem validateSession_keeps_expiry t later sid db s u :
  session_findUnique sid db = Some s ->
  user_findUnique_id (Session.userId s) db = Some u ->
  let db' := snd (validateSession t later sid db) in
  users db' = users db /\
  (forall other, other <> sid -> session_findUnique other db' = session_findUnique other db) /\
  ((Session.expiresAt s < t)%Z -> session_findUnique sid db' = None) /\
  ((t <= Session.expiresAt s)%Z ->
   session_findUnique sid db'
   = Some (Session.mk (Session.id s) (Session.userId s) (Session.createdAt s) later
             (Session.expiresAt s))).
Proof.
  intros Hs Hu. cbv zeta. unfold validateSession. rewrite Hs, Hu.
  assert (Hsid : Session.id s = sid).
  { unfold session_findUnique in Hs. apply find_some in Hs as [_ Hs].
    now apply String.eqb_eq. }
  destruct (Session.expiresAt s <? t)%Z eqn:Hexp; simpl.
  - apply Z.ltb_lt in Hexp. repeat split.
    + intros other Hother. now apply session_findUnique_delete_other.
    + intros _. apply session_findUnique_delete.
    + lia.
  - apply Z.ltb_ge in Hexp. repeat split.
    + intros other Hother. rewrite session_findUnique_touch.
      destruct (session_findUnique other db) as [s'|] eqn:Hs'; [|reflexivity].
      unfold session_findUnique in Hs'. apply find_some in Hs' as [_ Hs'].
      apply String.eqb_eq in Hs'.
      destruct (String.eqb_spec (Session.id s') sid); [congruence|reflexivity].
    + lia.
    + intros _. rewrite session_findUnique_touch, Hs.
      now rewrite Hsid, String.eqb_refl.
Qed.

(** X18. Logging out ends exactly one session: after [deleteSession] the
    session is gone and validates to [null] without touching the database
    again, every other session is as it was, and deleting it a second time,
    or deleting a session that never existed, changes nothing. *)
Theorem deleteSession_ends_the_session sid db :
  let db' := deleteSession sid db in
  (forall t later, validateSession t later sid db' = (Normal None, db')) /\
  (forall other, other <> sid -> session_findUnique other db' = session_findUnique other db) /\
  users db' = users db /\
  deleteSession sid db' = db' /\
  (session_findUnique sid db = None -> db' = db).
Proof.
  cbv zeta.
  assert (Hgone : session_findUnique sid (deleteSession sid db) = None).
  { unfold deleteSession.
    destruct (session_findUnique sid db) eqn:Hs; [apply session_findUnique_delete|exact Hs]. }
  repeat split.
  - intros t later. unfold validateSession. now rewrite Hgone.
  - intros other Hother. unfold deleteSession.
    destruct (session_findUnique sid db); [|reflexivity].
    now apply session_findUnique_delete_other.
  - unfold deleteSession. now destruct (session_findUnique sid db).
  - unfold deleteSession at 1. now rewrite Hgone.
  - intros Hnone. unfold deleteSession. now rewrite Hnone.
Qed.

(** X19. Signing a user out everywhere: after [deleteAllUserSessions] no
    session of the user is stored and each of the user's former sessions
    validates to [null]; the sessions of every other user, and the users,
    are as they were. *)
Theorem deleteAllUserSessions_ends_all userId db :
  unique_session_id db ->
  let db' := deleteAllUserSessions userId db in
  (forall s, In s (sessions db') -> Session.userId s <> userId) /\
  (forall sid s, session_findUnique sid db = Some s ->
     if String.eqb (Session.userId s) userId
     then forall t later, validateSession t later sid db' = (Normal None, db')
     else session_findUnique sid db' = Some s) /\
  users db' = users db.
Proof.
  intros Hunique. cbv zeta. repeat split.
  - intros s Hs. unfold deleteAllUserSessions in Hs. simpl in Hs.
    apply List.filter_In in Hs as [_ Hs]. now apply negb_true_iff, String.eqb_neq in Hs.
  - intros sid s Hs.
    assert (Hfind : session_findUnique sid (deleteAllUserSessions userId db)
                    = if negb (String.eqb (Session.userId s) userId) then Some s else None).
    { unfold session_findUnique, deleteAllUserSessions in *. simpl.
      rewrite (find_key_filter_unique Session.id _ sid _ Hunique). now rewrite Hs. }
    destruct (String.eqb (Session.userId s) userId); simpl in Hfind; [|exact Hfind].
    intros t later. unfold validateSession. now rewrite Hfind.
Qed.

(** X20. The cleanup removes what has expired and nothing else: sessions
    and tokens whose expiry lies before [now], and authorization codes
    created more than ten minutes before [now]; users are never touched. A
    second run at the same time deletes nothing and logs nothing. *)
Theorem cleanupExpiredData_removes_the_expired now db :
  let db' := snd (DbService.cleanupExpiredData now db) in
  users db' = users db /\
  (forall s, In s (sessions db') <-> In s (sessions db) /\ (now <= Session.expiresAt s)%Z) /\
  (forall k, In k (oauthTokens db') <->
             In k (oauthTokens db) /\ (now <= OauthToken.accessTokenExpiresAt k)%Z) /\
  (forall c, In c (oauthAuthorizationCodes db') <->
             In c (oauthAuthorizationCodes db) /\
             (now - 600000 <= OauthAuthorizationCode.createdAt c)%Z) /\
  DbService.cleanupExpiredData now db' = ([], db').
Proof.
  cbv zeta. unfold DbService.cleanupExpiredData. simpl.
  split; [reflexivity|]. split; [|split; [|split]].
  - intros x. rewrite List.filter_In, negb_true_iff, Z.ltb_ge. reflexivity.
  - intros x. rewrite List.filter_In, negb_true_iff, Z.ltb_ge. reflexivity.
  - intros x. rewrite List.filter_In, negb_true_iff, Z.ltb_ge. reflexivity.
  - rewrite !filter_twice, !Nat.sub_diag. reflexivity.
Qed.

(** X21. The cleanup cannot be seen through [validateSession]: at any
    time from the cleanup on, a session id validates on the cleaned tables
    to the same user, or to [null], as it would have without the cleanup.
    This holds on tables that respect the primary key of the sessions and
    the reference from a session to its user. *)
Theorem cleanupExpiredData_is_invisible now t later sid db :
  unique_session_id db ->
  (forall s, In s (sessions db) -> user_findUnique_id (Session.userId s) db <> None) ->
  (now <= t)%Z ->
  fst (validateSession t later sid (snd (DbService.cleanupExpiredData now db)))
  = fst (validateSession t later sid db).
Proof.
  intros Hunique Hfk Ht. unfold validateSession, DbService.cleanupExpiredData.
  unfold session_findUnique, user_findUnique_id in *. simpl.
  rewrite (find_key_filter_unique Session.id _ sid _ Hunique).
  destruct (find _ (sessions db)) as [s|] eqn:Hs; [|reflexivity].
  apply find_some in Hs as [Hin _]. specialize (Hfk s Hin).
  destruct (Session.expiresAt s <? now)%Z eqn:Hnow; simpl;
    (destruct (find _ (users db)) as [u|]; [|contradiction]).
  - apply Z.ltb_lt in Hnow.
    rewrite (proj2 (Z.ltb_lt (Session.expiresAt s) t)) by lia. reflexivity.
  - destruct (Session.expiresAt s <? t)%Z; reflexivity.
Qed.

End AuthFacts.

(** * Properties of the login and registration endpoints *)

Lemma long_password_is_truthy (password : string) :
  (8 <= String.length password)%nat ->
  negb (truthy_string password) || (String.length password <? 8)%nat = false.
Proof.
  intros Hlen. apply orb_false_iff. split.
  - destruct password; [simpl in Hlen; lia|reflexivity].
  - now apply Nat.ltb_ge.
Qed.

Section WebServerFacts.
Import AuthTables.

Variable toLowerCase : string -> string.
Variable bcrypt_hash : string -> nat -> string -> string.
Variable bcrypt_compare : string -> string -> bool.

Local Abbreviation api_register' := (api_register toLowerCase bcrypt_hash).
Local Abbreviation api_login' := (api_login toLowerCase bcrypt_compare).

(** X22. Registration through the endpoint. A password shorter than 8
    characters is answered with 400 and nothing is stored. With a longer
    password, an address not yet registered and fresh ids, the answer is 200
    with a session cookie, and for the next 24 hours that cookie validates
    to the new user, who carries the lower-case address. *)
Theorem api_register_signs_the_user_in userId sessionId now later salt
    email password name callbackUrl db :
  ((String.length password < 8)%nat ->
   api_register' userId sessionId now later salt email password name callbackUrl db
   = (mkResponse 400 (JsonError "Password must be at least 8 characters") None, db)) /\
  ((8 <= String.length password)%nat ->
   user_findUnique_email (toLowerCase email) db = None ->
   user_findUnique_id userId db = None ->
   session_findUnique sessionId db = None ->
   exists db',
     api_register' userId sessionId now later salt email password name callbackUrl db
     = (mkResponse 200 (JsonRedirect (redirect_to callbackUrl)) (Some sessionId), db') /\
     forall t later',
       (t <= later + 86400000)%Z ->
       fst (validateSession t later' sessionId db')
       = Normal (Some (mkAuthUser userId (toLowerCase email)
                         (if truthy name then name else None)))).
Proof.
  split.
  - intros Hshort. unfold api_register.
    rewrite (proj2 (Nat.ltb_lt _ _) Hshort). now rewrite orb_true_r.
  - intros Hlong Hemail Hid Hsid. unfold api_register.
    rewrite (long_password_is_truthy password Hlong).
    unfold registerUser, user_create. simpl. rewrite Hemail, Hid.
    set (u := User.mk userId (toLowerCase email) (bcrypt_hash password SALT_ROUNDS salt)
                (if truthy name then name else None) now now).
    set (db1 := set_users (users db ++ [u]) db).
    assert (Hu : user_findUnique_id userId db1 = Some u).
    { unfold user_findUnique_id in *. simpl. rewrite (find_last _ _ _ Hid). simpl.
      now rewrite String.eqb_refl. }
    destruct (createSession_then_validate sessionId later userId db1 u Hu Hsid)
      as (db2 & Hcreate & _ & Hvalid).
    simpl. rewrite Hcreate. exists db2. split; [reflexivity|].
    intros t later' Ht. rewrite Hvalid.
    now rewrite (proj2 (Z.ltb_ge _ _) Ht).
Qed.

(** X23. Login through the endpoint. An unknown address and a wrong
    password get the same answer, 401 "Invalid email or password", with no
    cookie and nothing stored. With the password that bcrypt accepts, the
    answer is 200 with a session cookie that validates to the user for the
    next 24 hours. *)
Theorem api_login_answers sessionId now email password callbackUrl db :
  NoDup (map User.id (users db)) ->
  (user_findUnique_email (toLowerCase email) db = None ->
   api_login' sessionId now email password callbackUrl db
   = (mkResponse 401 (JsonError "Invalid email or password") None, db)) /\
  (forall u,
     user_findUnique_email (toLowerCase email) db = Some u ->
     bcrypt_compare password (User.passwordHash u) = false ->
     api_login' sessionId now email password callbackUrl db
     = (mkResponse 401 (JsonError "Invalid email or password") None, db)) /\
  (forall u,
     user_findUnique_email (toLowerCase email) db = Some u ->
     bcrypt_compare password (User.passwordHash u) = true ->
     session_findUnique sessionId db = None ->
     exists db',
       api_login' sessionId now email password callbackUrl db
       = (mkResponse 200 (JsonRedirect (redirect_to callbackUrl)) (Some sessionId), db') /\
       users db' = users db /\
       forall t later,
         (t <= now + 86400000)%Z ->
         fst (validateSession t later sessionId db') = Normal (Some (authUser u))).
Proof.
  intros Hids. split; [|split].
  - intros Hnone. unfold api_login, authenticateUser. now rewrite Hnone.
  - intros u Hu Hpw. unfold api_login, authenticateUser. now rewrite Hu, Hpw.
  - intros u Hu Hpw Hsid. unfold api_login, authenticateUser. rewrite Hu, Hpw.
    assert (Hid : user_findUnique_id (User.id u) db = Some u).
    { unfold user_findUnique_email, user_findUnique_id in *.
      apply find_some in Hu as [Hin _].
      exact (find_key_unique_In User.id (users db) u Hids Hin). }
    destruct (createSession_then_validate sessionId now (User.id u) db u Hid Hsid)
      as (db' & Hcreate & Husers & Hvalid).
    simpl. rewrite Hcreate. exists db'. split; [reflexivity|]. split; [exact Husers|].
    intros t later Ht. rewrite Hvalid. now rewrite (proj2 (Z.ltb_ge _ _) Ht).
Qed.

End WebServerFacts.

Lemma login_db_unique : AuthTables.unique_session_id login_db.
Proof.
  unfold AuthTables.unique_session_id. simpl.
  apply (bool_decide_unpack _). vm_compute. exact I.
Qed.

Lemma registerUser_rejects_duplicates_witness :
  registerUser ascii_toLowerCase toy_hash "u3" 3000 "s3" "BOB@example.com" "password1" None
    (snd bob_registered)
  = (Throw (Error "User with this email already exists"), snd bob_registered).
Proof.
  apply (registerUser_rejects_duplicates ascii_toLowerCase toy_hash
           "u2" 2000 "s2" "Bob@Example.com" "hunter22" (Some "Bob") login_db bob);
    reflexivity.
Defined.

Lemma register_then_authenticate_witness :
  authenticateUser ascii_toLowerCase toy_compare "BOB@EXAMPLE.COM" "hunter22"
    (snd bob_registered)
  = Some bob /\
  authenticateUser ascii_toLowerCase toy_compare "bob@example.com" "hunter23"
    (snd bob_registered)
  = None.
Proof.
  split.
  - exact (proj2 (register_then_authenticate ascii_toLowerCase toy_hash toy_compare
                    "u2" 2000 "s2" "Bob@Example.com" "hunter22" (Some "Bob") login_db bob
                    (snd bob_registered) "BOB@EXAMPLE.COM" "hunter22" eq_refl eq_refl)).
  - exact (proj2 (register_then_authenticate ascii_toLowerCase toy_hash toy_compare
                    "u2" 2000 "s2" "Bob@Example.com" "hunter22" (Some "Bob") login_db bob
                    (snd bob_registered) "bob@example.com" "hunter23" eq_refl eq_refl)).
Defined.

Lemma session_lasts_a_day_witness :
  exists db1,
    createSession "s9" 5000 "u1" login_db
    = (Normal (Session.mk "s9" "u1" 5000 5000 86405000), db1) /\
    fst (validateSession 86405000 86405000 "s9" db1) = Normal (Some (authUser ann)) /\
    fst (validateSession 86405001 86405001 "s9" db1) = Normal None.
Proof.
  destruct (proj1 (session_lasts_a_day "s9" 5000 "u1" login_db) ann eq_refl eq_refl)
    as (db1 & Hcreate & Hvalid).
  exists db1. split; [exact Hcreate|]. split; apply Hvalid.
Defined.

Lemma validateSession_keeps_expiry_witness :
  AuthTables.session_findUnique "s1" (snd (validateSession 4000 4001 "s1" login_db))
  = Some (Session.mk "s1" "u1" 1000 4001 86401000) /\
  AuthTables.session_findUnique "s0" (snd (validateSession 4000 4001 "s0" login_db)) = None.
Proof.
  split.
  - apply (validateSession_keeps_expiry 4000 4001 "s1" login_db
             (Session.mk "s1" "u1" 1000 1000 86401000) ann eq_refl eq_refl).
    vm_compute. discriminate.
  - apply (validateSession_keeps_expiry 4000 4001 "s0" login_db
             (Session.mk "s0" "u1" 100 200 500) ann eq_refl eq_refl).
    reflexivity.
Defined.

Lemma deleteAllUserSessions_ends_all_witness :
  validateSession 2000 2000 "s1" (deleteAllUserSessions "u1" login_db)
  = (Normal None, deleteAllUserSessions "u1" login_db).
Proof.
  exact (proj1 (proj2 (deleteAllUserSessions_ends_all "u1" login_db login_db_unique))
           "s1" (Session.mk "s1" "u1" 1000 1000 86401000) eq_refl 2000 2000).
Defined.

Lemma cleanupExpiredData_is_invisible_witness :
  fst (validateSession 2000 2000 "s0" (snd (DbService.cleanupExpiredData 1500 login_db)))
  = fst (validateSession 2000 2000 "s0" login_db) /\
  fst (validateSession 2000 2000 "s1" (snd (DbService.cleanupExpiredData 1500 login_db)))
  = Normal (Some (authUser ann)).
Proof.
  assert (Hfk : forall s, In s (AuthTables.sessions login_db) ->
                  AuthTables.user_findUnique_id (Session.userId s) login_db <> None).
  { intros s [<-|[<-|[]]]; discriminate. }
  split.
  - apply (cleanupExpiredData_is_invisible 1500 2000 2000 "s0" login_db
             login_db_unique Hfk). lia.
  - rewrite (cleanupExpiredData_is_invisible 1500 2000 2000 "s1" login_db
               login_db_unique Hfk) by lia.
    reflexivity.
Defined.

Lemma api_register_signs_the_user_in_witness :
  fst (api_register ascii_toLowerCase toy_hash "u2" "s2" 2000 2001 "salt"
         "Bob@Example.com" "hunter2" (Some "Bob") None login_db)
  = mkResponse 400 (JsonError "Password must be at least 8 characters") None /\
  exists db',
    api_register ascii_toLowerCase toy_hash "u2" "s2" 2000 2001 "salt"
      "Bob@Example.com" "hunter22" (Some "Bob") None login_db
    = (mkResponse 200 (JsonRedirect "/") (Some "s2"), db') /\
    fst (validateSession 86402001 86402001 "s2" db') = Normal (Some bob).
Proof.
  split.
  - rewrite (proj1 (api_register_signs_the_user_in ascii_toLowerCase toy_hash
                      "u2" "s2" 2000 2001 "salt" "Bob@Example.com" "hunter2"
                      (Some "Bob") None login_db)); [reflexivity|simpl; lia].
  - destruct (proj2 (api_register_signs_the_user_in ascii_toLowerCase toy_hash
                       "u2" "s2" 2000 2001 "salt" "Bob@Example.com" "hunter22"
                       (Some "Bob") None login_db))
      as (db' & Hreg & Hvalid); [simpl; lia|reflexivity|reflexivity|reflexivity|].
    exists db'. split; [exact Hreg|]. apply Hvalid. lia.
Defined.

Lemma api_login_answers_witness :
  api_login ascii_toLowerCase toy_compare "s2" 2000 "Ann@Example.com" "wrong horse" None
    login_db
  = (mkResponse 401 (JsonError "Invalid email or password") None, login_db) /\
  api_login ascii_toLowerCase toy_compare "s2" 2000 "nobody@example.com" "correct horse" None
    login_db
  = (mkResponse 401 (JsonError "Invalid email or password") None, login_db) /\
  exists db',
    api_login ascii_toLowerCase toy_compare "s2" 2000 "Ann@Example.com" "correct horse"
      (Some "/api/oauth/authorize") login_db
    = (mkResponse 200 (JsonRedirect "/api/oauth/authorize") (Some "s2"), db').
Proof.
  assert (Hids : NoDup (map User.id (AuthTables.users login_db))).
  { simpl. constructor; [apply not_elem_of_nil|constructor]. }
  split; [|split].
  - exact (proj1 (proj2 (api_login_answers ascii_toLowerCase toy_compare "s2" 2000
                           "Ann@Example.com" "wrong horse" None login_db Hids))
             ann eq_refl eq_refl).
  - exact (proj1 (api_login_answers ascii_toLowerCase toy_compare "s2" 2000
                    "nobody@example.com" "correct horse" None login_db Hids) eq_refl).
  - destruct (proj2 (proj2 (api_login_answers ascii_toLowerCase toy_compare "s2" 2000
                              "Ann@Example.com" "correct horse"
                              (Some "/api/oauth/authorize") login_db Hids))
                ann eq_refl eq_refl eq_refl)
      as (db' & Hlogin & _).
    exists db'. exact Hlogin.
Defined.

(** * Properties of the call service and of the tools *)

Section TwilioFacts.
Import Twilio.

Variable RECORD_CALLS : bool.
Variable DYNAMIC_API_SECRET : string.
Variable encodeURIComponent : string -> string.

Local Abbreviation makeCall' := (makeCall DYNAMIC_API_SECRET encodeURIComponent).

(** X24. No call without a callback URL: on a service whose callback URL
    was never set, [makeCall] throws "Callback URL not set" and sends
    nothing to Twilio. Once a URL is set, [makeCall] sends exactly one
    request, from the service's number to the number given, with the
    webhook under that URL carrying the secret and the encoded context, and
    it hands back what Twilio answers: the call, or the same error
    rethrown. *)
Theorem makeCall_needs_the_callback_url fromNumber url toNumber callContext answer :
  makeCall' (newTwilioCallService fromNumber) toNumber callContext answer
  = mkDid (Throw (Error "Callback URL not set")) [] [] /\
  (url <> "" ->
   let did := makeCall' (setCallbackUrl url (newTwilioCallService fromNumber))
                toNumber callContext answer in
   result did = answer /\
   sent did
   = [CallsCreate toNumber fromNumber
        (url +:+ "/call/outgoing?apiSecret=" +:+ DYNAMIC_API_SECRET
           +:+ "&callType=outgoing&callContext="
           +:+ encodeURIComponent (default "" callContext))]).
Proof.
  split; [reflexivity|].
  intros Hurl. cbv zeta. unfold makeCall, setCallbackUrl, newTwilioCallService. simpl.
  unfold truthy_string. rewrite (proj2 (String.eqb_neq url "") Hurl). simpl.
  destruct answer; split; reflexivity.
Qed.

(** X25. Hanging up and recording never fail the caller: whatever Twilio
    answers, [endCall] and [startRecording] complete normally. A refusal
    by Twilio is logged with its error, by each of the two under its own
    text, and nothing else is ever logged. With an empty call SID neither
    sends anything, and [startRecording] sends nothing unless recording is
    switched on. *)
Theorem endCall_and_startRecording_never_throw svc callSid answer answer' :
  let ended := twilio_endCall svc callSid answer in
  let recording := startRecording RECORD_CALLS svc callSid answer' in
  result ended = Normal tt /\
  result recording = Normal tt /\
  sent ended = (if truthy_string callSid then [CallUpdate callSid "completed"] else []) /\
  sent recording
  = (if RECORD_CALLS && truthy_string callSid then [RecordingsCreate callSid] else []) /\
  (forall e, answer = Throw e -> truthy_string callSid = true ->
     logged ended = [("Failed to end call " +:+ callSid +:+ ":", Some e)]) /\
  (forall e, answer' = Throw e -> RECORD_CALLS = true -> truthy_string callSid = true ->
     logged recording
     = [("Failed to start recording for call " +:+ callSid +:+ ":", Some e)]) /\
  ((exists call, answer = Normal call) \/ sent ended = [] -> logged ended = []) /\
  ((exists done, answer' = Normal done) \/ sent recording = [] -> logged recording = []).
Proof.
  cbv zeta. unfold twilio_endCall, startRecording.
  split; [|split; [|split; [|split; [|split; [|split; [|split]]]]]].
  - now destruct (truthy_string callSid), answer.
  - now destruct RECORD_CALLS, (truthy_string callSid), answer'.
  - now destruct (truthy_string callSid), answer.
  - now destruct RECORD_CALLS, (truthy_string callSid), answer'.
  - intros e -> ->. reflexivity.
  - intros e -> -> ->. reflexivity.
  - destruct (truthy_string callSid), answer; simpl; try reflexivity.
    intros [[call [=]]|[=]].
  - destruct RECORD_CALLS, (truthy_string callSid), answer'; simpl; try reflexivity.
    intros [[done [=]]|[=]].
Qed.

End TwilioFacts.

Module CallPersistenceLimits.
Import Prisma CallPersistenceService CallPersistenceQueries CallPersistenceMore.

Lemma getRecentCalls_In userId limit db tr :
  In tr (getRecentCalls userId limit db) ->
  exists call, In call (calls db) /\ Call.userId call = userId /\ tr = with_messages db call.
Proof.
  unfold getRecentCalls. intros Htr. apply in_map_iff in Htr as (call & <- & Hcall).
  apply list_elem_of_In, elem_of_take in Hcall as (i & Hcall & _).
  apply list_elem_of_lookup_2, list_elem_of_In, calls_of_In in Hcall as [Hin Huser].
  exists call. auto.
Qed.

Lemma getRecentCalls_length userId limit db :
  (length (getRecentCalls userId limit db) <= default 10 limit)%nat.
Proof. unfold getRecentCalls. rewrite length_map, length_take. lia. Qed.

End CallPersistenceLimits.

Section McpToolFacts.
Import Prisma CallPersistenceService CallPersistenceQueries.

Variable DYNAMIC_API_SECRET : string.
Variable encodeURIComponent : string -> string.

Local Abbreviation trigger_call' := (trigger_call DYNAMIC_API_SECRET encodeURIComponent).

(** The tools that [POST /mcp] builds are for the id of the OAuth session,
    whether a user with that id is stored or not. *)
Lemma mcp_session_user_id (userId : string) (db : DB) :
  auth_id (mcp_session_user userId db) = userId.
Proof.
  unfold mcp_session_user, truthy_string.
  destruct (String.eqb_spec userId "") as [->|_]; simpl; [reflexivity|].
  destruct (user_byId userId db) as [u|] eqn:Hu; [|reflexivity].
  unfold user_byId in Hu. apply find_some in Hu as [_ Hid].
  now apply String.eqb_eq in Hid.
Qed.

(** X26. A triggered call belongs to the user who triggered it, if that
    user is stored. When Twilio places the call under a call SID that is
    not stored yet, the tool of a stored user stores the call for its user
    and answers with the SID; reading that SID with [get-transcript], the
    user gets the call, in progress and without messages, and any other
    user gets "No transcript found". The tool of a user that is not stored,
    which [POST /mcp] builds when the user of the OAuth session is not
    found, asks Twilio for the call all the same, then answers with
    the error of the refused insert: nothing is stored and nobody can read
    the call that was placed. *)
Theorem triggered_call_belongs_to_its_user user other svc toNumber callContext call
    newId now db :
  callbackUrl svc <> "" ->
  Twilio.sid call <> "" ->
  call_findUnique (Twilio.sid call) db = None ->
  call_byId newId db = None ->
  messages_refer_to_calls db ->
  let placed :=
    [Twilio.CallsCreate toNumber (getFromNumber svc)
       (outgoing_url DYNAMIC_API_SECRET encodeURIComponent svc callContext)] in
  (user_byId (auth_id user) db <> None ->
   exists db',
     trigger_call' user (Some svc) toNumber callContext (Normal call) newId now db
     = (mkToolResult (TextTriggered (Twilio.sid call) toNumber (Twilio.status call)) false,
        placed, db') /\
     get_transcript user (Some (Twilio.sid call)) db'
     = mkToolResult
         (TextTranscript
            (mkCallTranscript (Twilio.sid call) (getFromNumber svc) toNumber
               (if truthy_string callContext then Some callContext else None)
               now None "in_progress" []))
         false /\
     (auth_id other <> auth_id user ->
      get_transcript other (Some (Twilio.sid call)) db'
      = mkToolResult (TextError "No transcript found") true)) /\
  (user_byId (auth_id user) db = None ->
   (exists e,
      trigger_call' user (Some svc) toNumber callContext (Normal call) newId now db
      = (mkToolResult (TextError (message e)) true, placed, db)) /\
   get_transcript other (Some (Twilio.sid call)) db
   = mkToolResult (TextError "No transcript found") true) /\
  (forall userId,
     user_byId userId db = None ->
     user_byId (auth_id (mcp_session_user userId db)) db = None).
Proof.
  intros Hurl Hsid Hfresh Hid Hfk. cbv zeta.
  assert (Hsession : forall userId,
            user_byId userId db = None ->
            user_byId (auth_id (mcp_session_user userId db)) db = None).
  { intros userId Hnone. now rewrite mcp_session_user_id. }
  assert (Hmake : makeCall DYNAMIC_API_SECRET encodeURIComponent svc toNumber
                    (Some callContext) (Normal call)
                  = Twilio.mkDid (Normal call)
                      [Twilio.CallsCreate toNumber (getFromNumber svc)
                         (outgoing_url DYNAMIC_API_SECRET encodeURIComponent svc callContext)]
                      []).
  { unfold makeCall. unfold truthy_string.
    now rewrite (proj2 (String.eqb_neq _ "") Hurl). }
  unfold trigger_call. rewrite Hmake. simpl.
  destruct (CallPersistenceMore.startCall_cases newId now (auth_id user) (Twilio.sid call)
              (getFromNumber svc) toNumber (Some callContext) db)
    as [(_ & _ & Huser & ->)|([H|[H|Huser]] & e & ->)]; simpl; try contradiction.
  - split; [|split; [intros H; contradiction|exact Hsession]]. intros _.
    eexists. split; [reflexivity|].
    unfold get_transcript, getTranscript. rewrite (truthy_Some _ Hsid). simpl.
    unfold call_findUnique in *. simpl. rewrite (find_last _ _ _ Hfresh). simpl.
    rewrite !String.eqb_refl. simpl. split.
    + unfold callToTranscript, include_messages. simpl.
      rewrite (CallPersistenceMore.filter_none _ _
                 (CallPersistenceMore.no_message_of_fresh_call newId db Hfk Hid)). simpl.
      unfold truthy_string. now destruct (String.eqb callContext "").
    + intros Hother.
      destruct (String.eqb_spec (auth_id user) (auth_id other)); [congruence|reflexivity].
  - split; [intros H; contradiction|]. split; [|exact Hsession]. intros _.
    split; [exists e; reflexivity|].
    unfold get_transcript, getTranscript. rewrite (truthy_Some _ Hsid). simpl.
    now rewrite Hfresh.
Qed.

(** X27. When the call cannot be placed nothing is stored: if the call
    service is not ready the tool answers "Voice server not ready yet"
    without asking Twilio; if Twilio refuses, the tool answers with
    Twilio's message; in both cases the answer is marked as an error and
    the stored calls are as they were. *)
Theorem failed_trigger_stores_nothing user svc toNumber callContext e newId now db :
  trigger_call' user None toNumber callContext (Throw e) newId now db
  = (mkToolResult (TextError "Voice server not ready yet") true, [], db) /\
  exists sent,
    trigger_call' user (Some svc) toNumber callContext (Throw e) newId now db
    = (mkToolResult
         (TextError (if truthy_string (callbackUrl svc) then message e
                     else "Callback URL not set")) true,
       sent, db).
Proof.
  split; [reflexivity|].
  unfold trigger_call, makeCall.
  destruct (truthy_string (callbackUrl svc)); simpl; eexists; reflexivity.
Qed.

(** X28. [list-calls] answers with calls of its user only, and counts
    them; it returns at most the limit asked for, where a limit left out,
    or a limit of 0, stands for 10. *)
Theorem list_calls_are_the_users user limit db :
  exists calls,
    list_calls user limit db = mkToolResult (TextCalls (length calls) calls) false /\
    (length calls <= match limit with None | Some 0%nat => 10 | Some n => n end)%nat /\
    forall tr, In tr calls ->
      exists call, In call (Prisma.calls db) /\ Call.userId call = auth_id user /\
                   tr = with_messages db call.
Proof.
  eexists. split; [reflexivity|]. split.
  - exact (CallPersistenceLimits.getRecentCalls_length (auth_id user)
             (Some (limit_or_10 limit)) db).
  - intros tr. apply CallPersistenceLimits.getRecentCalls_In.
Qed.

End McpToolFacts.

Lemma triggered_call_belongs_to_its_user_witness :
  (exists sent db',
     trigger_call "secret" encode_unreserved alice (Some ready_service) "+15550003" "book"
       (Normal (Twilio.mkCallInstance "CA5" "queued")) "c5" 5000 alice_db
     = (mkToolResult (TextTriggered "CA5" "+15550003" "queued") false, sent, db') /\
     get_transcript mallory (Some "CA5") db'
     = mkToolResult (TextError "No transcript found") true) /\
  (exists e sent,
     trigger_call "secret" encode_unreserved (mcp_session_user "mallory" alice_db)
       (Some ready_service) "+15550003" "book"
       (Normal (Twilio.mkCallInstance "CA5" "queued")) "c5" 5000 alice_db
     = (mkToolResult (TextError (message e)) true, sent, alice_db) /\
     length sent = 1%nat).
Proof.
  split.
  - destruct (proj1 (triggered_call_belongs_to_its_user "secret" encode_unreserved
                       alice mallory ready_service "+15550003" "book"
                       (Twilio.mkCallInstance "CA5" "queued") "c5" 5000 alice_db
                       ltac:(discriminate) ltac:(discriminate) eq_refl eq_refl
                       alice_db_refers_to_calls) ltac:(discriminate))
      as (db' & Htrigger & _ & Hother).
    eexists. exists db'. split; [exact Htrigger|]. apply Hother. discriminate.
  - destruct (proj1 (proj2 (triggered_call_belongs_to_its_user "secret" encode_unreserved
                              (mcp_session_user "mallory" alice_db)
                              alice ready_service "+15550003" "book"
                              (Twilio.mkCallInstance "CA5" "queued") "c5" 5000 alice_db
                              ltac:(discriminate) ltac:(discriminate) eq_refl eq_refl
                              alice_db_refers_to_calls)) eq_refl)
      as ((e & Htrigger) & _).
    exists e. eexists. split; [exact Htrigger|reflexivity].
Defined.

(** * Properties of the start-up checks *)

Lemma unset_false (env : gmap string string) (envVar : string) :
  unset env envVar = false <-> exists s, env !! envVar = Some s /\ s <> "".
Proof.
  unfold unset, truthy_string. destruct (env !! envVar) as [s|].
  - rewrite negb_false_iff, negb_true_iff, String.eqb_neq. split.
    + intros Hs. exists s. auto.
    + intros (s' & [= <-] & Hs). exact Hs.
  - split; [discriminate|]. intros (s & Hs & _). discriminate.
Qed.

Lemma filter_nil_all {A} (f : A -> bool) (l : list A) :
  List.filter f l = [] <-> forall x, In x l -> f x = false.
Proof.
  induction l as [|a l IH]; simpl; [tauto|].
  destruct (f a) eqn:Hf.
  - split; [discriminate|]. intros H. specialize (H a (or_introl eq_refl)). congruence.
  - rewrite IH. split.
    + intros H x [<-|Hx]; auto.
    + intros H x Hx. apply H. now right.
Qed.

(** X29. The server starts only with its whole environment: the web
    entry point goes on exactly when each of its five variables is set to a
    non-empty string, and otherwise exits with code 1 naming every variable
    that is missing or empty, in the order of the list. The stdio entry
    point, which needs no database, goes on exactly when the first four are
    set, so it starts wherever the web entry point does. *)
Theorem validateEnvironmentVariables_needs_all (env : gmap string string) :
  (WebMain.validateEnvironmentVariables env = Continue <->
   forall v, In v WebMain.REQUIRED_ENV_VARS -> exists s, env !! v = Some s /\ s <> "") /\
  (WebMain.validateEnvironmentVariables env <> Continue ->
   WebMain.validateEnvironmentVariables env
   = Exit 1 ["Error: Missing required environment variables: "
               +:+ join_names (List.filter (unset env) WebMain.REQUIRED_ENV_VARS)]) /\
  (StdioMain.validateEnvironmentVariables env = Continue <->
   forall v, In v StdioMain.REQUIRED_ENV_VARS -> exists s, env !! v = Some s /\ s <> "") /\
  (WebMain.validateEnvironmentVariables env = Continue ->
   StdioMain.validateEnvironmentVariables env = Continue).
Proof.
  assert (Hweb : WebMain.validateEnvironmentVariables env = Continue <->
            forall v, In v WebMain.REQUIRED_ENV_VARS ->
                      exists s, env !! v = Some s /\ s <> "").
  { unfold WebMain.validateEnvironmentVariables.
    destruct (List.filter (unset env) WebMain.REQUIRED_ENV_VARS) as [|m ms] eqn:Hmissing.
    - simpl. split; [|reflexivity]. intros _ v Hv.
      apply unset_false. now apply (proj1 (filter_nil_all _ _) Hmissing).
    - simpl. split; [discriminate|]. intros Hall.
      assert (Hm : In m (List.filter (unset env) WebMain.REQUIRED_ENV_VARS))
        by (rewrite Hmissing; now left).
      apply List.filter_In in Hm as [Hm Hunset].
      apply Hall, unset_false in Hm. congruence. }
  assert (Hstdio : forall vars, StdioMain.check env vars = Continue <->
            forall v, In v vars -> exists s, env !! v = Some s /\ s <> "").
  { induction vars as [|v vars IH]; simpl.
    - split; [intros _ v []|reflexivity].
    - destruct (unset env v) eqn:Hv.
      + split; [discriminate|]. intros Hall.
        specialize (Hall v (or_introl eq_refl)). apply unset_false in Hall. congruence.
      + rewrite IH. split.
        * intros Hall x [<-|Hx]; [now apply unset_false|now apply Hall].
        * intros Hall x Hx. apply Hall. now right. }
  split; [exact Hweb|]. split; [|split; [apply Hstdio|]].
  - unfold WebMain.validateEnvironmentVariables.
    destruct (List.filter (unset env) WebMain.REQUIRED_ENV_VARS); simpl;
      [intros H; now destruct H|reflexivity].
  - intros Hcontinue. apply Hstdio. intros v Hv.
    apply (proj1 Hweb Hcontinue). simpl in *. tauto.
Qed.

Example sample_env_is_refused :
  WebMain.validateEnvironmentVariables sample_env
  = Exit 1 ["Error: Missing required environment variables: OPENAI_API_KEY, DATABASE_URL"]
  /\ StdioMain.validateEnvironmentVariables sample_env
     = Exit 1 ["Error: OPENAI_API_KEY environment variable is required"].
Proof. split; vm_compute; reflexivity. Qed.

(** * Properties of the session cookie *)

Module CookieFacts.
Import Cookie.

Lemma split_cons (sep : ascii) (s : string) : exists h t, split sep s = h :: t.
Proof.
  induction s as [|c s (h & t & IH)]; simpl; [eauto|].
  destruct (Ascii.eqb c sep); [eauto|]. rewrite IH. eauto.
Qed.

Lemma split_lacks (sep : ascii) (s : string) : lacks sep s = true -> split sep s = [s].
Proof.
  induction s as [|c s IH]; simpl; [reflexivity|].
  intros [Hc Hs]%andb_true_iff. apply negb_true_iff in Hc. rewrite Hc.
  now rewrite (IH Hs).
Qed.

Lemma split_at (sep : ascii) (s t : string) :
  lacks sep s = true -> split sep (s +:+ String sep t) = s :: split sep t.
Proof.
  induction s as [|c s IH]; simpl.
  - intros _. now rewrite Ascii.eqb_refl.
  - intros [Hc Hs]%andb_true_iff. apply negb_true_iff in Hc. rewrite Hc.
    now rewrite (IH Hs).
Qed.

Lemma lacks_app (sep : ascii) (s t : string) :
  lacks sep (s +:+ t) = lacks sep s && lacks sep t.
Proof. induction s as [|c s IH]; simpl; [reflexivity|]. now rewrite IH, andb_assoc. Qed.

Lemma no_white_app (s t : string) : no_white (s +:+ t) = no_white s && no_white t.
Proof. induction s as [|c s IH]; simpl; [reflexivity|]. now rewrite IH, andb_assoc. Qed.

Lemma plain_chars_spec (s : string) :
  plain_chars s = true ->
  lacks ";" s = true /\ lacks "=" s = true /\ no_white s = true.
Proof.
  induction s as [|c s IH]; simpl; [auto|].
  intros [[[H1 H2]%andb_true_iff H3]%andb_true_iff H4]%andb_true_iff.
  destruct (IH H4) as (? & ? & ?). rewrite H1, H2, H3. auto.
Qed.

Lemma trimStart_no_white (s : string) : no_white s = true -> trimStart s = s.
Proof.
  destruct s as [|c s]; simpl; [reflexivity|].
  intros [Hc _]%andb_true_iff. apply negb_true_iff in Hc. now rewrite Hc.
Qed.

Lemma trimEnd_no_white (s : string) : no_white s = true -> trimEnd s = s.
Proof.
  induction s as [|c s IH]; simpl; [reflexivity|].
  intros [Hc Hs]%andb_true_iff. apply negb_true_iff in Hc. rewrite (IH Hs), Hc.
  now destruct s.
Qed.

(** A cookie as the header carries it, with or without the space after the
    semicolon, is read as its name and its value. *)
Lemma parse_cookie_pair (acc : gmap string string) (k v : string) (lead : bool) :
  plain k = true -> plain v = true ->
  parse_cookie acc (if lead then String " " (pair_text (k, v)) else pair_text (k, v))
  = <[k := v]> acc.
Proof.
  unfold plain. intros [Hk Hkc]%andb_true_iff [Hv Hvc]%andb_true_iff.
  destruct (plain_chars_spec k Hkc) as (_ & Hk2 & Hk3).
  destruct (plain_chars_spec v Hvc) as (_ & Hv2 & Hv3).
  assert (Hwhite : no_white (pair_text (k, v)) = true).
  { unfold pair_text. simpl. rewrite !no_white_app, Hk3. simpl. exact Hv3. }
  assert (Htrim : trim (if lead then String " " (pair_text (k, v)) else pair_text (k, v))
                  = pair_text (k, v)).
  { unfold trim. destruct lead; simpl;
      now rewrite (trimStart_no_white _ Hwhite), (trimEnd_no_white _ Hwhite). }
  unfold parse_cookie. rewrite Htrim. unfold pair_text. simpl.
  change (k +:+ "=" +:+ v) with (k +:+ String "=" v).
  rewrite (split_at "=" k v Hk2), (split_lacks "=" v Hv2). now rewrite Hk, Hv.
Qed.

Lemma lacks_pair_text (p : string * string) :
  plain (fst p) = true -> plain (snd p) = true -> lacks ";" (pair_text p) = true.
Proof.
  unfold plain. intros [_ Hk]%andb_true_iff [_ Hv]%andb_true_iff.
  destruct (plain_chars_spec _ Hk) as (Hk1 & _). destruct (plain_chars_spec _ Hv) as (Hv1 & _).
  unfold pair_text. rewrite !lacks_app, Hk1. simpl. exact Hv1.
Qed.

(** The pieces between the semicolons of a header. *)
Lemma split_header (p : string * string) (ps : list (string * string)) :
  Forall (fun q => plain (fst q) = true /\ plain (snd q) = true) (p :: ps) ->
  split ";" (header_of (p :: ps))
  = pair_text p :: map (fun q => String " " (pair_text q)) ps.
Proof.
  revert p. induction ps as [|q ps IH]; intros p Hall.
  - apply Forall_cons in Hall as [[Hk Hv] _]. unfold header_of. simpl.
    now apply split_lacks, lacks_pair_text.
  - apply Forall_cons in Hall as [[Hk Hv] Hall].
    change (header_of (p :: q :: ps))
      with (pair_text p +:+ String ";" (String " " (header_of (q :: ps)))).
    rewrite (split_at ";" _ _ (lacks_pair_text p Hk Hv)). f_equal.
    simpl. now rewrite (IH q Hall).
Qed.

Lemma foldl_parse_cookie (ps : list (string * string)) (lead : bool) :
  forall acc : gmap string string,
  Forall (fun q => plain (fst q) = true /\ plain (snd q) = true) ps ->
  foldl parse_cookie acc
    (map (fun q => if lead then String " " (pair_text q) else pair_text q) ps)
  = foldl (fun acc q => <[fst q := snd q]> acc) acc ps.
Proof.
  induction ps as [|[k v] ps IH]; intros acc Hall; [reflexivity|].
  apply Forall_cons in Hall as [[Hk Hv] Hall]. simpl.
  rewrite (parse_cookie_pair acc k v lead Hk Hv). now apply IH.
Qed.

Lemma last_value_snoc (name : string) (ps : list (string * string)) (p : string * string) :
  last_value name (ps ++ [p])
  = if String.eqb (fst p) name then Some (snd p) else last_value name ps.
Proof. unfold last_value. now rewrite foldl_app. Qed.

Lemma lookup_foldl_insert (name : string) (ps : list (string * string))
    (acc : gmap string string) :
  foldl (fun acc q => <[fst q := snd q]> acc) acc ps !! name
  = match last_value name ps with
    | Some v => Some v
    | None => acc !! name
    end.
Proof.
  induction ps as [|p ps IH] using rev_ind; [reflexivity|].
  rewrite foldl_app, last_value_snoc. simpl.
  destruct (String.eqb_spec (fst p) name) as [->|Hne].
  - apply lookup_insert_eq.
  - rewrite lookup_insert_ne by exact Hne. exact IH.
Qed.

Lemma last_value_In (name : string) (ps : list (string * string)) (v : string) :
  last_value name ps = Some v -> exists p, In p ps /\ fst p = name /\ snd p = v.
Proof.
  induction ps as [|p ps IH] using rev_ind; [discriminate|].
  rewrite last_value_snoc. destruct (String.eqb_spec (fst p) name) as [Hp|_].
  - intros [= <-]. exists p. split; [apply in_or_app; right; now left|auto].
  - intros Hv. destruct (IH Hv) as (q & Hq & ?). exists q.
    split; [apply in_or_app; now left|assumption].
Qed.

(** Reading back a header of plain cookies. *)
Lemma session_cookie_header (ps : list (string * string)) :
  Forall (fun q => plain (fst q) = true /\ plain (snd q) = true) ps ->
  session_cookie (Some (header_of ps)) = last_value SESSION_COOKIE_NAME ps.
Proof.
  intros Hall. destruct ps as [|p ps]; [reflexivity|].
  unfold session_cookie.
  assert (Htruthy : truthy (Some (header_of (p :: ps))) = true).
  { pose proof (split_header p ps Hall) as Hsplit.
    destruct (header_of (p :: ps)) eqn:Hh; [|reflexivity].
    simpl in Hsplit. injection Hsplit as Hp _.
    apply Forall_cons in Hall as [[Hk _] _]. unfold plain in Hk.
    apply andb_true_iff in Hk as [Hk _]. unfold truthy_string in Hk.
    unfold pair_text in Hp. destruct (fst p); [discriminate Hk|discriminate Hp]. }
  rewrite Htruthy. cbv zeta. change (default "" (Some (header_of (p :: ps))))
    with (header_of (p :: ps)).
  rewrite (split_header p ps Hall).
  change (pair_text p :: map (fun q => String " " (pair_text q)) ps)
    with ([pair_text p] ++ map (fun q => String " " (pair_text q)) ps).
  rewrite foldl_app.
  pose proof (Forall_cons_1 _ _ _ Hall) as [[Hk Hv] Hps].
  change [pair_text p] with (map (fun q => if false then String " " (pair_text q)
                                         else pair_text q) [p]).
  rewrite (foldl_parse_cookie [p] false ∅) by (constructor; auto).
  rewrite (foldl_parse_cookie ps true _ Hps).
  rewrite <- foldl_app. change ([p] ++ ps) with (p :: ps).
  rewrite lookup_foldl_insert, lookup_empty.
  destruct (last_value SESSION_COOKIE_NAME (p :: ps)) as [v|] eqn:Hlast; [|reflexivity].
  destruct (last_value_In _ _ _ Hlast) as (q & Hq & _ & <-).
  rewrite Forall_forall in Hall. destruct (Hall q (proj2 (list_elem_of_In _ _) Hq)) as [_ Hqv].
  unfold plain in Hqv. apply andb_true_iff in Hqv as [Hqv _]. now rewrite Hqv.
Qed.

End CookieFacts.

(** A value is cut at its first equals sign, and a cookie written with
    spaces around the equals sign is not the session cookie. *)
Example cookie_value_is_cut_at_equals :
  Cookie.session_cookie (Some "voice_call_session_id=abc=def") = Some "abc" /\
  Cookie.session_cookie (Some "voice_call_session_id = s1") = None.
Proof. split; vm_compute; reflexivity. Qed.

Section OAuthFacts.
Import AuthTables Cookie.

(** X30. Who a request is, for the OAuth server, is decided by its last
    session cookie alone. For a header of plain cookies: with no session
    cookie nobody is signed in and the database is not touched; with one
    that names no stored session likewise; with one that names a stored
    session the request is that session's user until the session expires
    and nobody after, whatever the other cookies are. The user's name falls
    back to the email address when it is null or empty. A request without a
    cookie header, or with an empty one, is nobody's. *)
Theorem oauth_user_comes_from_the_cookie cookies now later db :
  Forall (fun q => plain (fst q) = true /\ plain (snd q) = true) cookies ->
  (last_value SESSION_COOKIE_NAME cookies = None ->
   oauth_authenticateUser (Some (header_of cookies)) now later db = (Normal None, db)) /\
  (forall sid,
     last_value SESSION_COOKIE_NAME cookies = Some sid ->
     session_findUnique sid db = None ->
     oauth_authenticateUser (Some (header_of cookies)) now later db = (Normal None, db)) /\
  (forall sid s u,
     last_value SESSION_COOKIE_NAME cookies = Some sid ->
     session_findUnique sid db = Some s ->
     user_findUnique_id (Session.userId s) db = Some u ->
     fst (oauth_authenticateUser (Some (header_of cookies)) now later db)
     = Normal (if (Session.expiresAt s <? now)%Z then None
               else Some (mkOAuthUser (User.id u) (User.email u)
                            match User.name u with
                            | Some (String c n) => String c n
                            | _ => User.email u
                            end))) /\
  oauth_authenticateUser None now later db = (Normal None, db) /\
  oauth_authenticateUser (Some "") now later db = (Normal None, db).
Proof.
  intros Hall. unfold oauth_authenticateUser.
  rewrite (CookieFacts.session_cookie_header cookies Hall).
  split; [|split; [|split; [|split; reflexivity]]].
  - now intros ->.
  - intros sid -> Hnone. unfold validateSession. now rewrite Hnone.
  - intros sid s u -> Hs Hu. unfold validateSession. rewrite Hs, Hu.
    destruct (Session.expiresAt s <? now)%Z; [reflexivity|]. simpl.
    now destruct (User.name u) as [[|c n]|].
Qed.

End OAuthFacts.

Lemma oauth_user_comes_from_the_cookie_witness :
  fst (oauth_authenticateUser (Some "theme=dark; voice_call_session_id=s1; lang=en")
         2000 2000 login_db)
  = Normal (Some (mkOAuthUser "u1" "ann@example.com" "Ann")).
Proof.
  assert (Hall : Forall (fun q => Cookie.plain (fst q) = true /\ Cookie.plain (snd q) = true)
                   [("theme", "dark"); ("voice_call_session_id", "s1"); ("lang", "en")]).
  { repeat constructor. }
  exact (proj1 (proj2 (proj2 (oauth_user_comes_from_the_cookie _ 2000 2000 login_db Hall)))
           "s1" (Session.mk "s1" "u1" 1000 1000 (1000 + SESSION_DURATION_MS)) ann
           eq_refl eq_refl eq_refl).
Defined.
